(** * Market-data backend: cache-aside coordinator, history synchronizer,
      symbol resolver and subscription fan-out

    A shallow embedding of
      - [app/utils/yfinance_helper.py]      (module [YFinanceHelper])
      - [app/services/stock_service.py]     (module [StockService])
      - [app/services/websocket_service.py] (module [WebSocketManager])
      - [app/core/redis_client.py]          (modules [Runtime], [RedisClient])
      - [app/api/stocks.py]                 (module [StocksApi])
      - [app/schemas/stocks.py]             (required fields, in [StocksApi])
      - [app/api/websocket.py]              (module [WebSocketApi])
    together with the properties claimed about them.

    Conventions used throughout.
      - Python [str] values are modelled by [string]; the case and
        whitespace functions are the ASCII ones (tickers and period names
        are ASCII text).
      - Python and NumPy [float] values are IEEE-754 binary64 numbers,
        modelled by [spec_float] with the operations of [SpecFloat] at
        precision 53 and maximal exponent 1024.
      - [date] values are day ordinals in [Z]; [timedelta(days=n)] is [n].
      - Exceptions are values of type [exn]; code that can raise lives in
        the state-and-exception monad [M]. *)

From Stdlib Require Import ZArith String Ascii List Bool Lia.
From Stdlib Require Import Floats.SpecFloat.
From stdpp Require Import gmap strings list fin_maps.

Set Warnings "-register-all,-clear-no-such-hyp".
Local Open Scope string_scope.
Local Open Scope Z_scope.

(* ===================================================================== *)
(** * Python values *)
(* ===================================================================== *)

Module Py.

(** ** Strings *)

Definition is_lower (c : ascii) : bool :=
  let n := nat_of_ascii c in (97 <=? n)%nat && (n <=? 122)%nat.

Definition upper_char (c : ascii) : ascii :=
  if is_lower c then ascii_of_nat (nat_of_ascii c - 32) else c.

(** [s.upper()] *)
Fixpoint upper (s : string) : string :=
  match s with
  | EmptyString => EmptyString
  | String c r => String (upper_char c) (upper r)
  end.

(** [str.isspace] on one ASCII character: TAB, LF, VT, FF, CR, the four
    separators FS, GS, RS, US, and the blank. *)
Definition is_space (c : ascii) : bool :=
  let n := nat_of_ascii c in
  ((9 <=? n)%nat && (n <=? 13)%nat) || ((28 <=? n)%nat && (n <=? 32)%nat).

(** [s.lstrip()] and, through a predicate, [s.lstrip(chars)] *)
Fixpoint lstrip_by (p : ascii -> bool) (s : string) : string :=
  match s with
  | EmptyString => EmptyString
  | String c r => if p c then lstrip_by p r else s
  end.

Definition string_rev (s : string) : string :=
  string_of_list_ascii (rev (list_ascii_of_string s)).

Definition rstrip_by (p : ascii -> bool) (s : string) : string :=
  string_rev (lstrip_by p (string_rev s)).

(** [s.strip()] *)
Definition strip (s : string) : string := rstrip_by is_space (lstrip_by is_space s).

(** [s.lstrip("$")] *)
Definition lstrip_dollar (s : string) : string :=
  lstrip_by (fun c => Ascii.eqb c "$"%char) s.

(** [s.endswith(suf)]: [suf] is one of the suffixes of [s]. *)
Fixpoint endswith (s suf : string) : bool :=
  if String.eqb s suf then true
  else match s with
       | EmptyString => false
       | String _ r => endswith r suf
       end.

(** [s[:-n]] for a positive [n]: all but the last [n] characters. *)
Definition drop_last (n : nat) (s : string) : string :=
  substring 0 (String.length s - n) s.

(** Truth value of a string: non-empty. *)
Definition str_truthy (s : string) : bool :=
  match s with EmptyString => false | _ => true end.

(** ** Floats *)

Definition float := spec_float.

Definition prec : Z := 53.
Definition emax : Z := 1024.

Definition fsub : float -> float -> float := SFsub prec emax.
Definition fmul : float -> float -> float := SFmul prec emax.
Definition fdiv : float -> float -> float := SFdiv prec emax.

(** [float(z)] for a Python [int] *)
Definition float_of_int (z : Z) : float := binary_normalize prec emax z 0 false.

(** [math.isnan], which is also [pd.isna] on a float *)
Definition isnan (f : float) : bool :=
  match f with S754_nan => true | _ => false end.

(** [math.isinf] *)
Definition isinf (f : float) : bool :=
  match f with S754_infinity _ => true | _ => false end.

(** [int(f)]: truncation toward zero; [None] stands for the [ValueError]
    (NaN) or [OverflowError] (infinity) Python raises. *)
Definition int_of_float (f : float) : option Z :=
  match f with
  | S754_zero _ => Some 0
  | S754_finite s m e =>
      let a := if 0 <=? e then Z.pos m * 2 ^ e else Z.pos m / 2 ^ (- e) in
      Some (if s then - a else a)
  | S754_infinity _ | S754_nan => None
  end.

(** [f == z] for a float and an int (exact comparison of the values). *)
Definition float_eq_int (f : float) (z : Z) : bool :=
  match f with
  | S754_zero _ => z =? 0
  | S754_finite s m e =>
      let a := if s then Z.neg m else Z.pos m in
      if 0 <=? e then z =? a * 2 ^ e else z * 2 ^ (- e) =? a
  | S754_infinity _ | S754_nan => false
  end.

(** ** The value universe

    The objects that flow through the services: JSON-like data, the
    [datetime]/[pd.Timestamp] objects (identified by their [isoformat()]
    rendering), and pandas [Series]/[DataFrame] objects (identified by
    their [to_dict()] items and their [iterrows()] rows, keys already
    rendered by [str], together with the text [str()] gives for them).
    Dictionaries are insertion-ordered and keyed by strings. *)
Inductive pyval : Type :=
| PNone
| PBool (b : bool)
| PInt (z : Z)
| PFloat (f : float)
| PStr (s : string)
| PDatetime (iso : string)
| PList (l : list pyval)
| PDict (d : list (string * pyval))
| PSeries (items : list (string * pyval)) (text : string)
| PDataFrame (rows : list (string * list (string * pyval))) (text : string).

(** Truth value of an object ([if x:]). *)
Definition truthy (v : pyval) : bool :=
  match v with
  | PNone => false
  | PBool b => b
  | PInt z => negb (z =? 0)
  | PFloat f => negb (SFeqb f (S754_zero false))
  | PStr s => str_truthy s
  | PDatetime _ => true
  | PList l => match l with [] => false | _ => true end
  | PDict d => match d with [] => false | _ => true end
  | PSeries _ _ | PDataFrame _ _ => true
  end.

(** Truth value of an optional object, [None] being false. *)
Definition opt_truthy (v : option pyval) : bool :=
  match v with Some x => truthy x | None => false end.

(** [d.get(k)] *)
Fixpoint dict_get (k : string) (d : list (string * pyval)) : option pyval :=
  match d with
  | [] => None
  | (k', v) :: r => if String.eqb k k' then Some v else dict_get k r
  end.

(** [d.get(k)] with Python's default [None] *)
Definition dict_get_or_none (k : string) (d : list (string * pyval)) : pyval :=
  match dict_get k d with Some v => v | None => PNone end.

(** [v[k]] when [v] is a dictionary holding [k] *)
Definition field (k : string) (v : pyval) : option pyval :=
  match v with PDict d => dict_get k d | _ => None end.

(** [a == b] on numbers ([int] against [float] compares the values). *)
Definition num_eqb (a b : pyval) : bool :=
  match a, b with
  | PInt x, PInt y => x =? y
  | PFloat x, PFloat y => SFeqb x y
  | PInt x, PFloat y => float_eq_int y x
  | PFloat x, PInt y => float_eq_int x y
  | _, _ => false
  end.

(** A value is non-finite-free and timestamp-free: no NaN, no infinity,
    no [datetime]/[Timestamp] object and no pandas object anywhere in it. *)
Fixpoint json_safe (v : pyval) : bool :=
  match v with
  | PNone | PBool _ | PInt _ | PStr _ => true
  | PFloat f => negb (isnan f) && negb (isinf f)
  | PDatetime _ => false
  | PList l => forallb json_safe l
  | PDict d => forallb (fun kv => json_safe (snd kv)) d
  | PSeries _ _ | PDataFrame _ _ => false
  end.

(** ** The JSON wire format *)

(** [str(d)] for a [datetime] or [pd.Timestamp]: [d.isoformat(sep=' ')],
    the ISO text with a blank for its separator [T]. *)
Fixpoint datetime_str (iso : string) : string :=
  match iso with
  | EmptyString => EmptyString
  | String c r =>
      if Ascii.eqb c "T"%char then String " "%char r else String c (datetime_str r)
  end.

(** [json.loads(json.dumps(value, default=str))]: what comes back of a
    value written as JSON with [str] for the objects JSON does not know.
    Dictionaries, lists, strings, numbers (NaN and the infinities are
    written [NaN], [Infinity], [-Infinity] and read back), booleans and
    [None] come back as they are; a [datetime], a [Series] or a
    [DataFrame] comes back as the string [str()] gives. *)
Fixpoint json_wire (v : pyval) : pyval :=
  match v with
  | PNone => PNone
  | PBool b => PBool b
  | PInt z => PInt z
  | PFloat f => PFloat f
  | PStr s => PStr s
  | PDatetime iso => PStr (datetime_str iso)
  | PList l => PList (map json_wire l)
  | PDict d => PDict (map (fun '(k, x) => (k, json_wire x)) d)
  | PSeries _ text => PStr text
  | PDataFrame _ text => PStr text
  end.

(** JSON-like values: no [datetime] and no pandas object anywhere. *)
Fixpoint json_like (v : pyval) : bool :=
  match v with
  | PNone | PBool _ | PInt _ | PFloat _ | PStr _ => true
  | PDatetime _ => false
  | PList l => forallb json_like l
  | PDict d => forallb (fun kv => json_like (snd kv)) d
  | PSeries _ _ | PDataFrame _ _ => false
  end.

End Py.

(* ===================================================================== *)
(** * The runtime: collaborators, clock, exceptions *)
(* ===================================================================== *)

Module Runtime.
Import Py.

(** ** Provider data *)

(** One row of the provider's price table: the index timestamp (by its
    [date()]) and the five [float64] columns. *)
Record HistRow : Type := mkHistRow {
  r_date : Z;
  r_open : float;
  r_high : float;
  r_low : float;
  r_close : float;
  r_volume : float
}.

Definition DataFrame : Type := list HistRow.

(** [hist.empty] *)
Definition df_empty (df : DataFrame) : bool :=
  match df with [] => true | _ => false end.

(** The two ways [ticker.history] is called: [history(period=p)] and
    [history(start=a, end=b)] (the provider takes [b] as exclusive). *)
Inductive HistReq : Type :=
| ReqPeriod (period : string)
| ReqRange (start stop : Z).

(** ** Database rows *)

(** [app/models/stocks.py], class [Stock] (the columns the services read). *)
Record Stock : Type := mkStock {
  s_symbol : string;
  s_yahoo_symbol : option string;
  s_company_name : option string;
  s_sector : option string;
  s_exchange : option string
}.

(** [app/models/stocks.py], class [StockHistory].  The serial [id] is never
    read by the services and is left out; [date] holds midnight timestamps
    (the writer passes [date] objects) and is a day ordinal here. *)
Record StockHistory : Type := mkStockHistory {
  h_symbol : string;
  h_date : Z;
  h_open : option float;
  h_high : option float;
  h_low : option float;
  h_close : option float;
  h_volume : option Z;
  h_last_updated : Z
}.

(** ** Clock *)

(** [datetime.now(ist)]: weekday (Monday is 0) and time of day. *)
Record IstTime : Type := mkIstTime {
  t_weekday : Z;
  t_hour : Z;
  t_minute : Z;
  t_second : Z;
  t_microsecond : Z
}.

(** ** Exceptions and observable events *)

Inductive exn : Type := Exn (msg : string).

Definition exn_str (e : exn) : string := match e with Exn m => m end.

Inductive Event : Type :=
| EvHistory (symbol : string) (req : HistReq)   (* ticker.history(...) *)
| EvInfo (symbol : string)                      (* ticker.info *)
| EvCacheSet (key : string) (value : pyval) (ttl : Z)
                                                (* redis_client.set(...) called *)
| EvSend (client : string) (message : pyval).   (* websocket.send_text(...) *)

(** [app/core/config.py]: the cache settings. *)
Definition CACHE_TTL_REALTIME : Z := 30.
Definition CACHE_TTL_HISTORICAL : Z := 86400.

(** ** The world

    Everything outside the service objects: the Redis connection and its
    live entries (value and the TTL given when written), the two database
    tables with the open transaction, the provider (a table of answers,
    [None] where the call raises), the clocks, a script of transport
    failures for Redis calls, database calls and websocket sends (the next
    such call fails when the head is [true]; an exhausted script means no
    failure), and the log of provider calls, cache writes and messages
    sent. *)
Record World : Type := mkWorld {
  w_redis_up : bool;
  w_cache : gmap string (pyval * Z);
  w_stocks : list Stock;
  w_history : list StockHistory;
  w_txn_base : option (list StockHistory);
  w_faults : list bool;
  w_provider : string -> HistReq -> option DataFrame;
  w_info : string -> option (list (string * pyval));
  w_today : Z;
  w_now_iso : string;
  w_sql_now : Z;
  w_ist_now : option IstTime;
  w_ist_later : list (option IstTime);
  w_log : list Event
}.

Definition set_cache (c : gmap string (pyval * Z)) (w : World) : World :=
  mkWorld (w_redis_up w) c (w_stocks w) (w_history w) (w_txn_base w)
          (w_faults w) (w_provider w) (w_info w) (w_today w) (w_now_iso w)
          (w_sql_now w) (w_ist_now w) (w_ist_later w) (w_log w).

Definition set_table (h : list StockHistory) (b : option (list StockHistory))
    (w : World) : World :=
  mkWorld (w_redis_up w) (w_cache w) (w_stocks w) h b
          (w_faults w) (w_provider w) (w_info w) (w_today w) (w_now_iso w)
          (w_sql_now w) (w_ist_now w) (w_ist_later w) (w_log w).

Definition set_faults (f : list bool) (w : World) : World :=
  mkWorld (w_redis_up w) (w_cache w) (w_stocks w) (w_history w) (w_txn_base w)
          f (w_provider w) (w_info w) (w_today w) (w_now_iso w)
          (w_sql_now w) (w_ist_now w) (w_ist_later w) (w_log w).

Definition set_ist (t : option IstTime) (l : list (option IstTime))
    (w : World) : World :=
  mkWorld (w_redis_up w) (w_cache w) (w_stocks w) (w_history w) (w_txn_base w)
          (w_faults w) (w_provider w) (w_info w) (w_today w) (w_now_iso w)
          (w_sql_now w) t l (w_log w).

Definition add_log (e : Event) (w : World) : World :=
  mkWorld (w_redis_up w) (w_cache w) (w_stocks w) (w_history w) (w_txn_base w)
          (w_faults w) (w_provider w) (w_info w) (w_today w) (w_now_iso w)
          (w_sql_now w) (w_ist_now w) (w_ist_later w) (w_log w ++ [e]).

(** ** The monad *)

Inductive outcome (A : Type) : Type :=
| Returned (a : A)
| Raised (e : exn).
Arguments Returned {A} a.
Arguments Raised {A} e.

(** Computations over a state [S] that return or raise. *)
Definition ST (S A : Type) : Type := S -> outcome A * S.

Definition M (A : Type) : Type := ST World A.

Definition ret {S A} (a : A) : ST S A := fun w => (Returned a, w).

Definition raise {S A} (e : exn) : ST S A := fun w => (Raised e, w).

Definition bind {S A B} (m : ST S A) (k : A -> ST S B) : ST S B :=
  fun w => match m w with
           | (Returned a, w') => k a w'
           | (Raised e, w') => (Raised e, w')
           end.

(** [try: body  except Exception as e: handler(e)] *)
Definition try_except {S A} (body : ST S A) (handler : exn -> ST S A) : ST S A :=
  fun w => match body w with
           | (Returned a, w') => (Returned a, w')
           | (Raised e, w') => handler e w'
           end.

Notation "'do' x <- m ; k" := (bind m (fun x => k))
  (at level 10, x name, m at level 100, k at level 200).

(** The next Redis, database or websocket call: does it fail? *)
Definition next_fault : M bool :=
  fun w => match w_faults w with
           | [] => (Returned false, w)
           | b :: r => (Returned b, set_faults r w)
           end.

(** ** Redis ([app/core/redis_client.py]) *)

(** [RedisClient.get]: [None] when disconnected, on a transport error, or
    when the key is absent; it does not raise. *)
Definition redis_get (key : string) : M (option pyval) :=
  fun w =>
    if negb (w_redis_up w) then (Returned None, w)
    else (do bad <- next_fault;
          if (bad : bool) then ret None
          else fun w' => (Returned (fst <$> (w_cache w' !! key)), w')) w.

(** [RedisClient.set]: [False] when disconnected or on a transport error;
    it does not raise.  The value is written as
    [json.dumps(value, default=str)] and [get] answers with [json.loads]
    of the text: the cache holds what that round trip gives. *)
Definition redis_set (key : string) (value : pyval) (ttl : Z) : M bool :=
  fun w =>
    let w := add_log (EvCacheSet key value ttl) w in
    if negb (w_redis_up w) then (Returned false, w)
    else (do bad <- next_fault;
          if (bad : bool) then ret false
          else fun w' =>
                 (Returned true,
                  set_cache (<[key := (json_wire value, ttl)]> (w_cache w')) w')) w.

(** ** Database session *)

Definition db_error : exn := Exn "database error".

(** A statement on the session: fails when the failure script says so. *)
Definition db_call {A} (run : World -> A * World) : M A :=
  do bad <- next_fault;
  if (bad : bool) then raise db_error
  else fun w => let (a, w') := run w in (Returned a, w').

(** [select(Stock).where(Stock.symbol == sym)] then [scalar_one_or_none()]
    ([symbol] is unique). *)
Definition db_select_stock (sym : string) : M (option Stock) :=
  db_call (fun w => (find (fun s => String.eqb (s_symbol s) sym) (w_stocks w), w)).

(** The row with the greatest date among the rows of [sym]
    ([order_by(date.desc()).limit(1)]). *)
Fixpoint latest_row (sym : string) (rows : list StockHistory) : option StockHistory :=
  match rows with
  | [] => None
  | r :: rest =>
      if String.eqb (h_symbol r) sym then
        match latest_row sym rest with
        | Some r' => if h_date r <? h_date r' then Some r' else Some r
        | None => Some r
        end
      else latest_row sym rest
  end.

Definition db_select_latest (sym : string) : M (option StockHistory) :=
  db_call (fun w => (latest_row sym (w_history w), w)).

(** Stable insertion sort by date ([order_by(date.asc())]). *)
Fixpoint insert_by_date (r : StockHistory) (l : list StockHistory) : list StockHistory :=
  match l with
  | [] => [r]
  | x :: rest => if h_date r <? h_date x then r :: l else x :: insert_by_date r rest
  end.

Definition sort_by_date (l : list StockHistory) : list StockHistory :=
  fold_right insert_by_date [] l.

(** The rows of [sym] with [start <= date <= stop], each bound optional. *)
Definition in_window (sym : string) (start stop : option Z) (r : StockHistory) : bool :=
  String.eqb (h_symbol r) sym
  && match start with Some a => a <=? h_date r | None => true end
  && match stop with Some b => h_date r <=? b | None => true end.

Definition db_select_window (sym : string) (start stop : option Z)
    : M (list StockHistory) :=
  db_call (fun w => (sort_by_date (List.filter (in_window sym start stop) (w_history w)), w)).

(** ** Database writes: statement, commit, rollback

    A write is visible to the session at once; [w_txn_base] remembers the
    table as it was when the open transaction made its first write, which
    is what [rollback] restores and [commit] forgets. *)
Definition db_write (f : list StockHistory -> list StockHistory) : M unit :=
  db_call (fun w =>
    let base := match w_txn_base w with Some b => b | None => w_history w end in
    (tt, set_table (f (w_history w)) (Some base) w)).

Definition db_commit : M unit :=
  db_call (fun w => (tt, set_table (w_history w) None w)).

Definition db_rollback : M unit :=
  db_call (fun w =>
    let h := match w_txn_base w with Some b => b | None => w_history w end in
    (tt, set_table h None w)).

(** [NOW()] as the database evaluates it. *)
Definition sql_now : M Z := fun w => (Returned (w_sql_now w), w).

(** ** Provider ([yfinance]) *)

Definition provider_error : exn := Exn "provider error".

(** [yf.Ticker(sym).history(...)]: every call is logged. *)
Definition ticker_history (sym : string) (req : HistReq) : M DataFrame :=
  fun w =>
    let w := add_log (EvHistory sym req) w in
    match w_provider w sym req with
    | Some df => (Returned df, w)
    | None => (Raised provider_error, w)
    end.

(** [yf.Ticker(sym).info] *)
Definition ticker_info (sym : string) : M (list (string * pyval)) :=
  fun w =>
    let w := add_log (EvInfo sym) w in
    match w_info w sym with
    | Some d => (Returned d, w)
    | None => (Raised provider_error, w)
    end.

(** ** Clocks *)

(** [date.today()] *)
Definition date_today : M Z := fun w => (Returned (w_today w), w).

(** [datetime.now().isoformat()] *)
Definition now_isoformat : M string := fun w => (Returned (w_now_iso w), w).

(** [datetime.now(ist)] behind its [import pytz]: the current reading
    ([None] when obtaining it raises); the clock then moves on to the next
    scripted reading, if any. *)
Definition now_ist : M (option IstTime) :=
  fun w =>
    (Returned (w_ist_now w),
     match w_ist_later w with
     | [] => w
     | t :: rest => set_ist t rest w
     end).

(** The provider calls and the cache writes recorded in a log. *)
Definition is_provider_call (e : Event) : bool :=
  match e with
  | EvHistory _ _ | EvInfo _ => true
  | EvCacheSet _ _ _ | EvSend _ _ => false
  end.

Definition provider_calls (w : World) : list Event :=
  List.filter is_provider_call (w_log w).

Definition history_requests (w : World) : list (string * HistReq) :=
  flat_map (fun e => match e with EvHistory s r => [(s, r)] | _ => [] end) (w_log w).

Definition cache_writes (w : World) : list (string * pyval * Z) :=
  flat_map (fun e => match e with EvCacheSet k v t => [(k, v, t)] | _ => [] end) (w_log w).

End Runtime.

(* ===================================================================== *)
(** * [app/utils/yfinance_helper.py] *)
(* ===================================================================== *)

Module YFinanceHelper.
Import Py Runtime.

(** Index symbols that take no suffix. *)
Definition INDEX_SYMBOLS : list string :=
  ["^NSEI"; "^NSEBANK"; "^DJI"; "^FTSE"; "^BSESN"].

Definition in_index_symbols (s : string) : bool :=
  existsb (String.eqb s) INDEX_SYMBOLS.

Definition attribute_error : exn := Exn "AttributeError".

(** [sanitize_for_json].  The [isinstance] tests are tried in the order of
    the source: dict, list, Series, DataFrame, and then
    [isinstance(data, (float, pd.core.dtypes.generic.floating))].  The
    module [pandas.core.dtypes.generic] has no attribute [floating], so
    building that tuple raises [AttributeError]: every value that is not a
    dictionary, a list, a [Series] or a [DataFrame] ends there, and the
    tests written below it (float, int, datetime, [pd.isna]) are never
    reached.  [None] stands for the [AttributeError]. *)
Fixpoint sanitize_for_json (data : pyval) : option pyval :=
  match data with
  | PDict d =>
      PDict <$> mapM (fun '(k, v) => pair k <$> sanitize_for_json v) d
  | PList l =>
      PList <$> mapM sanitize_for_json l
  | PSeries items _ =>
      PDict <$> mapM (fun '(k, v) => pair k <$> sanitize_for_json v) items
  | PDataFrame rows _ =>
      PDict <$> mapM (fun '(idx, row) =>
                        (fun r => (idx, PDict r))
                          <$> mapM (fun '(k, v) => pair k <$> sanitize_for_json v) row)
                     rows
  | PNone | PBool _ | PInt _ | PFloat _ | PStr _ | PDatetime _ => None
  end.

(** The call, in code that can raise. *)
Definition sanitized (data : pyval) : M pyval :=
  match sanitize_for_json data with
  | Some v => ret v
  | None => raise attribute_error
  end.

(** [symbol.lstrip("$").upper()] *)
Definition clean_symbol (symbol : string) : string :=
  upper (lstrip_dollar symbol).

(** The candidate list built by [get_safe_ticker_data_sync]. *)
Definition symbol_variations (symbol : string) : list string :=
  let clean := clean_symbol symbol in
  if in_index_symbols clean then [clean]
  else if endswith clean ".BSE" then
    let base := drop_last 4 clean in
    [String.append base ".BO"; String.append base ".NS"]
  else if endswith clean ".NS" || endswith clean ".BO" then [clean]
  else [String.append clean ".NS"; String.append clean ".BO"].

(** The loop over the candidates: the first one whose six-month history is
    not empty wins; a candidate that raises is skipped.  The ticker object
    is identified by the symbol it was built from, so the result
    [(ticker, hist, variant)] is the pair [(variant, hist)] and
    [(None, None, None)] is [None]. *)
Fixpoint try_variants (variants : list string) : M (option (string * DataFrame)) :=
  match variants with
  | [] => ret None
  | variant :: rest =>
      do r <- try_except
                (do hist <- ticker_history variant (ReqPeriod "6mo");
                 ret (if df_empty hist then None else Some (variant, hist)))
                (fun _ => ret None);
      match r with
      | Some found => ret (Some found)
      | None => try_variants rest
      end
  end.

Definition get_safe_ticker_data_sync (symbol : string)
    : M (option (string * DataFrame)) :=
  try_variants (symbol_variations symbol).

(** [get_safe_ticker_data_async] runs the same function on the executor. *)
Definition get_safe_ticker_data_async (symbol : string)
    : M (option (string * DataFrame)) :=
  get_safe_ticker_data_sync symbol.

End YFinanceHelper.

(* ===================================================================== *)
(** * [app/services/stock_service.py] *)
(* ===================================================================== *)

Module StockService.
Import Py Runtime YFinanceHelper.

(** ** Dates as text *)

(** Year, month and day of a proleptic Gregorian ordinal
    ([date.fromordinal]; day 1 is 0001-01-01). *)
Definition civil_of_ordinal (n : Z) : Z * Z * Z :=
  let z := n + 305 in
  let era := z / 146097 in
  let doe := z - era * 146097 in
  let yoe := (doe - doe / 1460 + doe / 36524 - doe / 146096) / 365 in
  let doy := doe - (365 * yoe + yoe / 4 - yoe / 100) in
  let mp := (5 * doy + 2) / 153 in
  let d := doy - (153 * mp + 2) / 5 + 1 in
  let m := if mp <? 10 then mp + 3 else mp - 9 in
  let y := yoe + era * 400 + (if m <=? 2 then 1 else 0) in
  (y, m, d).

Definition digit (n : Z) : string :=
  String (ascii_of_nat (48 + Z.to_nat (n mod 10))) EmptyString.

Definition two_digits (n : Z) : string :=
  String.append (digit (n / 10)) (digit n).

Definition four_digits (n : Z) : string :=
  String.append (two_digits (n / 100)) (two_digits n).

(** [d.strftime('%Y-%m-%d')] *)
Definition strftime_ymd (n : Z) : string :=
  let '(y, m, d) := civil_of_ordinal n in
  String.append (four_digits y)
    (String.append "-" (String.append (two_digits m)
       (String.append "-" (two_digits d)))).

(** ** [_is_market_open] *)

Definition time_of_day (hour minute second microsecond : Z) : Z :=
  ((hour * 60 + minute) * 60 + second) * 1000000 + microsecond.

(** Weekend check, then 9:15 AM to 3:30 PM IST, both ends included; a
    failure to read the clock counts as closed. *)
Definition market_hours (reading : option IstTime) : bool :=
  match reading with
  | None => false
  | Some now =>
      if 5 <=? t_weekday now then false
      else
        let t := time_of_day (t_hour now) (t_minute now) (t_second now)
                             (t_microsecond now) in
        (time_of_day 9 15 0 0 <=? t) && (t <=? time_of_day 15 30 0 0)
  end.

Definition _is_market_open : M bool :=
  do now <- now_ist;
  ret (market_hours now).

(** ** [_get_period_dates] *)

Definition period_mapping : list (string * Z) :=
  [("1D", 1); ("1W", 7); ("15D", 15); ("1M", 30); ("6M", 180);
   ("1Y", 365); ("5Y", 365 * 5)].

(** [period_mapping.get(k)] *)
Fixpoint mapping_get (k : string) (m : list (string * Z)) : option Z :=
  match m with
  | [] => None
  | (k', d) :: r => if String.eqb k k' then Some d else mapping_get k r
  end.

(** The window for a period on a given day: [(start, end)], [None] for
    an open start.  A [timedelta] is true when it is not zero. *)
Definition period_dates (today : Z) (period : string) : option Z * Z :=
  if String.eqb (upper period) "ALL" then (None, today)
  else
    match mapping_get (upper period) period_mapping with
    | Some delta =>
        if negb (delta =? 0) then (Some (today - delta), today)
        else (Some (today - 180), today)
    | None => (Some (today - 180), today)
    end.

Definition _get_period_dates (period : string) : M (option Z * Z) :=
  do today <- date_today;
  ret (period_dates today period).

(** ** Reads from the database *)

(** [_get_yahoo_symbol]: the [yahoo_symbol] column of the stock, [None]
    when there is no such stock, when the column is null, or on error. *)
Definition _get_yahoo_symbol (symbol : string) : M (option string) :=
  try_except
    (do r <- db_select_stock (upper symbol);
     ret (match r with Some s => s_yahoo_symbol s | None => None end))
    (fun _ => ret None).

(** [_get_latest_date_in_db] *)
Definition _get_latest_date_in_db (symbol : string) : M (option Z) :=
  try_except
    (do r <- db_select_latest (upper symbol);
     ret (match r with Some row => Some (h_date row) | None => None end))
    (fun _ => ret None).

Definition float_or_zero (x : option float) : pyval :=
  match x with Some f => PFloat f | None => PInt 0 end.

Definition int_or_zero (x : option Z) : pyval :=
  match x with Some z => PInt z | None => PInt 0 end.

(** One entry of the history payload. *)
Definition history_entry (row : StockHistory) : pyval :=
  PDict [("timestamp", PStr (strftime_ymd (h_date row)));
         ("open", float_or_zero (h_open row));
         ("high", float_or_zero (h_high row));
         ("low", float_or_zero (h_low row));
         ("close", float_or_zero (h_close row));
         ("volume", int_or_zero (h_volume row))].

(** [_get_history_from_db]: the rows of the window in date order, or the
    empty list on error. *)
Definition _get_history_from_db (symbol : string) (start_date end_date : option Z)
    : M (list pyval) :=
  try_except
    (do rows <- db_select_window (upper symbol) start_date end_date;
     ret (map history_entry rows))
    (fun _ => ret []).

(** ** [_store_history_to_db] *)

(** The parameters of one [INSERT]. *)
Record BarParams : Type := mkBarParams {
  p_symbol : string;
  p_date : Z;
  p_open : option float;
  p_high : option float;
  p_low : option float;
  p_close : option float;
  p_volume : option Z
}.

(** [float(x) if not pd.isna(x) else None] *)
Definition float_or_none (x : float) : option float :=
  if isnan x then None else Some x.

Definition type_error : exn := Exn "TypeError".
Definition overflow_error : exn := Exn "OverflowError".

(** [int(x) if not pd.isna(x) else None]; [int] raises on an infinity. *)
Definition int_or_none (x : float) : M (option Z) :=
  if isnan x then ret None
  else match int_of_float x with
       | Some z => ret (Some z)
       | None => raise overflow_error
       end.

Definition bar_params (symbol : string) (row : HistRow) : M BarParams :=
  do v <- int_or_none (r_volume row);
  ret (mkBarParams (upper symbol) (r_date row)
         (float_or_none (r_open row)) (float_or_none (r_high row))
         (float_or_none (r_low row)) (float_or_none (r_close row)) v).

Fixpoint prepare_insert_data (symbol : string) (data : DataFrame) : M (list BarParams) :=
  match data with
  | [] => ret []
  | row :: rest =>
      do p <- bar_params symbol row;
      do ps <- prepare_insert_data symbol rest;
      ret (p :: ps)
  end.

Definition conflicts (p : BarParams) (r : StockHistory) : bool :=
  String.eqb (h_symbol r) (p_symbol p) && (h_date r =? p_date p).

(** [INSERT ... ON CONFLICT (symbol, date) DO UPDATE SET ...] for one
    parameter set: the conflicting row gets the five values and
    [last_updated]; without a conflict a row is added. *)
Definition upsert_row (now : Z) (table : list StockHistory) (p : BarParams)
    : list StockHistory :=
  if existsb (conflicts p) table then
    map (fun r =>
           if conflicts p r then
             mkStockHistory (h_symbol r) (h_date r) (p_open p) (p_high p)
                            (p_low p) (p_close p) (p_volume p) now
           else r)
        table
  else
    table ++ [mkStockHistory (p_symbol p) (p_date p) (p_open p) (p_high p)
                             (p_low p) (p_close p) (p_volume p) now].

(** The statement run with a list of parameter sets, one after the other. *)
Definition upsert_rows (now : Z) (ps : list BarParams) (table : list StockHistory)
    : list StockHistory :=
  fold_left (upsert_row now) ps table.

Definition _store_history_to_db (symbol : string) (data : DataFrame) : M unit :=
  try_except
    (do insert_data <- prepare_insert_data symbol data;
     match insert_data with
     | [] => ret tt
     | _ =>
         do now <- sql_now;
         do _ <- db_write (upsert_rows now insert_data);
         db_commit
     end)
    (fun _ => db_rollback).

(** ** [_fetch_and_store_history] *)

Definition _fetch_and_store_history (yahoo_symbol symbol : string)
    (start_date : option Z) : M unit :=
  try_except
    (do hist <- match start_date with
                | Some start =>
                    do today <- date_today;
                    ticker_history yahoo_symbol (ReqRange start (today + 1))
                | None => ticker_history yahoo_symbol (ReqPeriod "max")
                end;
     if negb (df_empty hist) then _store_history_to_db symbol hist
     else ret tt)
    (fun _ => ret tt).

(** ** [get_history] *)

Definition history_key (symbol period : string) : string :=
  String.append "history:" (String.append (upper symbol) (String.append ":" period)).

Definition history_error (period message : string) : M pyval :=
  do ts <- now_isoformat;
  ret (PDict [("data", PList []);
              ("source", PStr "error");
              ("timestamp", PStr ts);
              ("period", PStr period);
              ("records", PInt 0);
              ("error", PStr message)]).

(** Step 4 of [get_history]: whether to fetch, and from which date. *)
Definition fetch_plan (latest_db_date : option Z) (today : Z) : bool * option Z :=
  match latest_db_date with
  | None => (true, None)
  | Some latest =>
      if latest <? today - 1 then (true, Some (latest + 1)) else (false, None)
  end.

(** The response assembled in step 6. *)
Definition history_response (history_data : list pyval) (need_fetch : bool)
    (ts period : string) : pyval :=
  PDict [("data", PList history_data);
         ("source", PStr (if negb need_fetch then "database"
                          else "database+yfinance"));
         ("timestamp", PStr ts);
         ("period", PStr period);
         ("records", PInt (Z.of_nat (length history_data)));
         ("error", PNone)].

(** Steps 2 to 6 once the cache has missed. *)
Definition get_history_uncached (symbol period cache_key : string) : M pyval :=
  do yahoo_symbol <- _get_yahoo_symbol symbol;
  match yahoo_symbol with
  | Some yahoo_symbol =>
      if str_truthy yahoo_symbol then
        do window <- _get_period_dates period;
        let '(start_date, end_date) := window in
        do latest_db_date <- _get_latest_date_in_db symbol;
        do today <- date_today;
        let '(need_fetch, fetch_start_date) := fetch_plan latest_db_date today in
        do _ <- (if need_fetch
                 then _fetch_and_store_history yahoo_symbol symbol fetch_start_date
                 else ret tt);
        do history_data <- _get_history_from_db symbol start_date (Some end_date);
        do ts <- now_isoformat;
        let response_data := history_response history_data need_fetch ts period in
        do _ <- redis_set cache_key response_data CACHE_TTL_HISTORICAL;
        ret response_data
      else history_error period "Symbol not found in database"
  | None => history_error period "Symbol not found in database"
  end.

Definition get_history (symbol period : string) : M pyval :=
  let cache_key := history_key symbol period in
  try_except
    (do cached_data <- redis_get cache_key;
     if opt_truthy cached_data then
       ret (match cached_data with Some hit => hit | None => PNone end)
     else get_history_uncached symbol period cache_key)
    (fun e => history_error period
                (String.append "Failed to get historical data: " (exn_str e))).

(** ** [_get_latest_db_quote] *)

(** [float(x)] for a nullable column: [float(None)] is a [TypeError]. *)
Definition float_of_column (x : option float) : M pyval :=
  match x with
  | Some f => ret (PFloat f)
  | None => raise type_error
  end.

Definition str_or_none (x : option string) : pyval :=
  match x with Some s => PStr s | None => PNone end.

(** [int(v) if v else 0] for the nullable volume. *)
Definition volume_or_zero (x : option Z) : pyval :=
  match x with
  | Some z => if negb (z =? 0) then PInt z else PInt 0
  | None => PInt 0
  end.

Definition fzero : float := S754_zero false.

Definition _get_latest_db_quote (symbol : string) : M (option pyval) :=
  try_except
    (do latest_row <- db_select_latest (upper symbol);
     match latest_row with
     | None => ret None
     | Some latest_row =>
         do stock_info <- db_select_stock (upper symbol);
         match stock_info with
         | None => ret None
         | Some stock_info =>
             do current_price <- float_of_column (h_close latest_row);
             do day_high <- float_of_column (h_high latest_row);
             do day_low <- float_of_column (h_low latest_row);
             do open_ <- float_of_column (h_open latest_row);
             do ts <- now_isoformat;
             ret (Some (PDict
               [("stock", PDict
                   [("symbol", PStr (upper symbol));
                    ("name", str_or_none (s_company_name stock_info));
                    ("exchange", str_or_none (s_exchange stock_info));
                    ("currentPrice", current_price);
                    ("change", PFloat fzero);
                    ("changePercent", PFloat fzero);
                    ("volume", volume_or_zero (h_volume latest_row));
                    ("dayHigh", day_high);
                    ("dayLow", day_low);
                    ("open", open_);
                    ("sector", str_or_none (s_sector stock_info))]);
                ("source", PStr "database");
                ("timestamp", PStr ts)]))
         end
     end)
    (fun _ => ret None).

(** ** [_fetch_quote_from_yfinance] *)

(** Method 2: the periods tried in turn on one ticker; [hist] is the value
    the variable holds so far.  A period that raises is skipped, the first
    non-empty answer ends the loop. *)
Fixpoint try_periods (yahoo_symbol : string) (periods : list string)
    (hist : option DataFrame) : M (option DataFrame) :=
  match periods with
  | [] => ret hist
  | period :: rest =>
      do r <- try_except
                (do h <- ticker_history yahoo_symbol (ReqPeriod period);
                 ret (Some h))
                (fun _ => ret None);
      match r with
      | Some h =>
          if negb (df_empty h) then ret (Some h)
          else try_periods yahoo_symbol rest (Some h)
      | None => try_periods yahoo_symbol rest hist
      end
  end.

(** [int(x) if not pd.isna(x) else 0] *)
Definition int_or_zero_of_float (x : float) : M pyval :=
  if isnan x then ret (PInt 0)
  else match int_of_float x with
       | Some z => ret (PInt z)
       | None => raise overflow_error
       end.

Definition hundred : float := float_of_int 100.

(** [a or b] on the sector column. *)
Definition sector_or (sector : option string) (info : list (string * pyval)) : pyval :=
  match sector with
  | Some s =>
      if str_truthy s then PStr s
      else match dict_get "sector" info with Some v => v | None => PStr "Unknown" end
  | None => match dict_get "sector" info with Some v => v | None => PStr "Unknown" end
  end.

(** From "Validate we have data" to the end, for the ticker and the
    frame the two methods ended with. *)
Definition build_quote (symbol : string) (stock_info : Stock)
    (ticker : string) (hist : DataFrame) : M (option pyval) :=
  match rev hist with
  | [] => ret None
  | last_row :: before =>
      let current_price := r_close last_row in
      let previous_price :=
        match before with
        | prev_row :: _ => r_close prev_row
        | [] => current_price
        end in
      let change := fsub current_price previous_price in
      let change_percent :=
        if negb (SFeqb previous_price fzero)
        then PFloat (fmul (fdiv change previous_price) hundred)
        else PInt 0 in
      do info <- try_except (ticker_info ticker) (fun _ => ret []);
      do volume <- int_or_zero_of_float (r_volume last_row);
      let stock_data :=
        PDict [("symbol", PStr (upper symbol));
               ("name", str_or_none (s_company_name stock_info));
               ("exchange", str_or_none (s_exchange stock_info));
               ("currentPrice", PFloat current_price);
               ("change", PFloat change);
               ("changePercent", change_percent);
               ("volume", volume);
               ("marketCap", dict_get_or_none "marketCap" info);
               ("pe", dict_get_or_none "trailingPE" info);
               ("sector", sector_or (s_sector stock_info) info);
               ("high52Week", dict_get_or_none "fiftyTwoWeekHigh" info);
               ("low52Week", dict_get_or_none "fiftyTwoWeekLow" info);
               ("dividendYield", dict_get_or_none "dividendYield" info);
               ("dayHigh", PFloat (r_high last_row));
               ("dayLow", PFloat (r_low last_row));
               ("open", PFloat (r_open last_row))] in
      do stock <- sanitized stock_data;
      do ts <- now_isoformat;
      ret (Some (PDict [("stock", stock);
                        ("source", PStr "yfinance");
                        ("timestamp", PStr ts)]))
  end.

Definition _fetch_quote_from_yfinance (symbol : string) : M (option pyval) :=
  try_except
    (do stock_info <- db_select_stock (upper symbol);
     match stock_info with
     | None => ret None
     | Some stock_info =>
         match s_yahoo_symbol stock_info with
         | None =>
             (* both methods call a string method on [None] and fail *)
             ret None
         | Some yahoo_symbol =>
             do found <- try_except (get_safe_ticker_data_async yahoo_symbol)
                                    (fun _ => ret None);
             match found with
             | Some (working_symbol, hist) =>
                 if df_empty hist then
                   do hist' <- try_periods yahoo_symbol ["2d"; "5d"; "1mo"] (Some hist);
                   match hist' with
                   | Some h => build_quote symbol stock_info yahoo_symbol h
                   | None => ret None
                   end
                 else build_quote symbol stock_info working_symbol hist
             | None =>
                 do hist' <- try_periods yahoo_symbol ["2d"; "5d"; "1mo"] None;
                 match hist' with
                 | Some h => build_quote symbol stock_info yahoo_symbol h
                 | None => ret None
                 end
             end
         end
     end)
    (fun _ => ret None).

(** ** [get_quote] *)

Definition quote_key (symbol : string) : string :=
  String.append "quote:" (upper symbol).

(** Step 3: the live fetch and its cache write. *)
Definition get_quote_live (symbol cache_key : string) : M (option pyval) :=
  do quote_data <- _fetch_quote_from_yfinance symbol;
  if opt_truthy quote_data then
    do is_open <- _is_market_open;
    let ttl := if (is_open : bool) then CACHE_TTL_REALTIME
               else CACHE_TTL_REALTIME * 10 in
    do _ <- redis_set cache_key
              (match quote_data with Some q => q | None => PNone end) ttl;
    ret quote_data
  else ret None.

Definition get_quote (symbol : string) : M (option pyval) :=
  let cache_key := quote_key symbol in
  try_except
    (do cached_data <- redis_get cache_key;
     if opt_truthy cached_data then ret cached_data
     else
       do is_open <- _is_market_open;
       if negb is_open then
         do db_quote <- _get_latest_db_quote symbol;
         if opt_truthy db_quote then
           do _ <- redis_set cache_key
                     (match db_quote with Some q => q | None => PNone end)
                     (CACHE_TTL_REALTIME * 10);
           ret db_quote
         else get_quote_live symbol cache_key
       else get_quote_live symbol cache_key)
    (fun _ => ret None).

End StockService.

(* ===================================================================== *)
(** * [app/services/websocket_service.py] *)
(* ===================================================================== *)

Module WebSocketManager.
Import Py Runtime YFinanceHelper.

(** The manager object.  A websocket and a task are known by a handle;
    [tasks_created] counts the [asyncio.create_task] calls (and is the next
    handle), [tasks_cancelled] lists the handles on which [cancel()] was
    called. *)
Record Manager : Type := mkManager {
  active_connections : gmap string nat;
  subscriptions : gmap string (gset string);
  symbol_subscribers : gmap string (gset string);
  update_tasks : gmap string nat;
  tasks_created : nat;
  tasks_cancelled : list nat
}.

(** [WebSocketManager.__init__] *)
Definition init : Manager := mkManager ∅ ∅ ∅ ∅ 0 [].

(** The manager together with the world it runs in. *)
Record System : Type := mkSystem {
  sys_manager : Manager;
  sys_world : World
}.

Definition W (A : Type) : Type := ST System A.

Definition lift {A} (m : M A) : W A :=
  fun s => let (r, w') := m (sys_world s) in (r, mkSystem (sys_manager s) w').

Definition get_manager : W Manager := fun s => (Returned (sys_manager s), s).

Definition modify (f : Manager -> Manager) : W unit :=
  fun s => (Returned tt, mkSystem (f (sys_manager s)) (sys_world s)).

(** [connect] (after a successful [accept()]) *)
Definition connect (websocket : nat) (client_id : string) (m : Manager) : Manager :=
  mkManager (<[client_id := websocket]> (active_connections m))
            (<[client_id := ∅]> (subscriptions m))
            (symbol_subscribers m) (update_tasks m)
            (tasks_created m) (tasks_cancelled m).

(** [unsubscribe_symbol] *)
Definition unsubscribe_symbol (client_id symbol : string) (m : Manager) : Manager :=
  let symbol := upper symbol in
  let subs :=
    match subscriptions m !! client_id with
    | Some syms => <[client_id := syms ∖ {[symbol]}]> (subscriptions m)
    | None => subscriptions m
    end in
  match symbol_subscribers m !! symbol with
  | Some C =>
      let C' := C ∖ {[client_id]} in
      if decide (C' = ∅) then
        match update_tasks m !! symbol with
        | Some task =>
            mkManager (active_connections m) subs
                      (delete symbol (symbol_subscribers m))
                      (delete symbol (update_tasks m))
                      (tasks_created m) (tasks_cancelled m ++ [task])
        | None =>
            mkManager (active_connections m) subs
                      (delete symbol (symbol_subscribers m))
                      (update_tasks m)
                      (tasks_created m) (tasks_cancelled m)
        end
      else
        mkManager (active_connections m) subs
                  (<[symbol := C']> (symbol_subscribers m))
                  (update_tasks m) (tasks_created m) (tasks_cancelled m)
  | None =>
      mkManager (active_connections m) subs (symbol_subscribers m)
                (update_tasks m) (tasks_created m) (tasks_cancelled m)
  end.

(** [disconnect]: the symbols of the client are visited in the order of
    [elements]. *)
Definition disconnect (client_id : string) (m : Manager) : Manager :=
  let m1 := mkManager (delete client_id (active_connections m))
                      (subscriptions m) (symbol_subscribers m)
                      (update_tasks m) (tasks_created m) (tasks_cancelled m) in
  match subscriptions m1 !! client_id with
  | Some syms =>
      let m2 := fold_left (fun acc symbol => unsubscribe_symbol client_id symbol acc)
                          (elements syms) m1 in
      mkManager (active_connections m2)
                (delete client_id (subscriptions m2))
                (symbol_subscribers m2) (update_tasks m2)
                (tasks_created m2) (tasks_cancelled m2)
  | None => m1
  end.

(** One turn of the first loop of [subscribe_symbols].  The caller has
    checked that the client has an entry in [subscriptions]. *)
Definition subscribe_one (client_id : string) (m : Manager) (symbol : string) : Manager :=
  let symbol := strip (upper symbol) in
  if str_truthy symbol then
    let subs :=
      match subscriptions m !! client_id with
      | Some syms => <[client_id := syms ∪ {[symbol]}]> (subscriptions m)
      | None => subscriptions m
      end in
    let C := match symbol_subscribers m !! symbol with
             | Some C => C
             | None => ∅
             end in
    let C' := C ∪ {[client_id]} in
    if (size C' =? 1)%nat then
      mkManager (active_connections m) subs
                (<[symbol := C']> (symbol_subscribers m))
                (<[symbol := tasks_created m]> (update_tasks m))
                (S (tasks_created m)) (tasks_cancelled m)
    else
      mkManager (active_connections m) subs
                (<[symbol := C']> (symbol_subscribers m))
                (update_tasks m) (tasks_created m) (tasks_cancelled m)
  else m.

(** [websocket.send_text(json.dumps(message))] *)
Definition send_text (client_id : string) (message : pyval) : M unit :=
  do bad <- next_fault;
  if (bad : bool) then raise (Exn "send failed")
  else fun w => (Returned tt, add_log (EvSend client_id message) w).

(** [send_to_client] *)
Definition send_to_client (client_id : string) (message : pyval) : W bool :=
  do m <- get_manager;
  match active_connections m !! client_id with
  | Some _ =>
      try_except
        (do _ <- lift (send_text client_id message); ret true)
        (fun _ => do _ <- modify (disconnect client_id); ret false)
  | None => ret false
  end.

Definition stock_update (data : pyval) : pyval :=
  PDict [("type", PStr "stock_update"); ("data", data)].

(** The second loop of [subscribe_symbols]: the cached tick, if any. *)
Fixpoint send_cached (client_id : string) (symbols : list string) : W unit :=
  match symbols with
  | [] => ret tt
  | symbol :: rest =>
      do cached_data <- lift (redis_get (String.append "realtime:" (upper symbol)));
      do _ <- (if opt_truthy cached_data then
                 send_to_client client_id
                   (stock_update (match cached_data with Some d => d | None => PNone end))
               else ret false);
      send_cached client_id rest
  end.

(** [subscribe_symbols] *)
Definition subscribe_symbols (client_id : string) (symbols : list string) : W unit :=
  do m <- get_manager;
  match subscriptions m !! client_id with
  | None => ret tt
  | Some _ =>
      do _ <- modify (fun m => fold_left (subscribe_one client_id) symbols m);
      send_cached client_id symbols
  end.

(** The sends of [broadcast_to_symbol_subscribers]; the result lists the
    clients whose send did not succeed. *)
Fixpoint send_all (clients : list string) (message : pyval) : W (list string) :=
  match clients with
  | [] => ret []
  | client_id :: rest =>
      do success <- send_to_client client_id message;
      do disconnected <- send_all rest message;
      ret (if (success : bool) then disconnected else client_id :: disconnected)
  end.

(** [broadcast_to_symbol_subscribers] *)
Definition broadcast_to_symbol_subscribers (symbol : string) (data : pyval) : W unit :=
  do m <- get_manager;
  match symbol_subscribers m !! symbol with
  | Some C =>
      do disconnected <- send_all (elements C) (stock_update data);
      modify (fun m => fold_left (fun acc client_id =>
                                    unsubscribe_symbol client_id symbol acc)
                                 disconnected m)
  | None => ret tt
  end.

(** A number from [ticker.info] in arithmetic with a [float64]. *)
Definition number_of (v : pyval) : W float :=
  match v with
  | PFloat f => ret f
  | PInt z => ret (float_of_int z)
  | PBool b => ret (float_of_int (if b then 1 else 0))
  | _ => raise (Exn "TypeError")
  end.

(** [int(x)] on a [float64]: raises on NaN and on an infinity. *)
Definition int_of (x : float) : W pyval :=
  match int_of_float x with
  | Some z => ret (PInt z)
  | None => raise (Exn "ValueError")
  end.

(** The condition of the [while] of [_update_symbol_loop]. *)
Definition has_subscribers (symbol : string) (m : Manager) : bool :=
  match symbol_subscribers m !! symbol with
  | Some C => negb (bool_decide (C = ∅))
  | None => false
  end.

(** The [try] block of one iteration (the sleeps are not modelled). *)
Definition update_symbol_once (symbol : string) : W unit :=
  do found <- lift (get_safe_ticker_data_sync symbol);
  match found with
  | Some (ticker, hist) =>
      match rev hist with
      | latest :: _ =>
          do info <- lift (ticker_info ticker);
          do prev_close <- match dict_get "previousClose" info with
                           | Some v => number_of v
                           | None => ret (r_close latest)
                           end;
          let price := r_close latest in
          let change := fsub (r_close latest) prev_close in
          let change_percent :=
            fmul (fdiv (fsub (r_close latest) prev_close) prev_close)
                 StockService.hundred in
          do volume <- int_of (r_volume latest);
          do ts <- lift now_isoformat;
          let data_dict :=
            PDict [("symbol", PStr symbol);
                   ("price", PFloat price);
                   ("change", PFloat change);
                   ("change_percent", PFloat change_percent);
                   ("volume", volume);
                   ("timestamp", PStr ts)] in
          do _ <- lift (redis_set (String.append "realtime:" symbol) data_dict 30);
          broadcast_to_symbol_subscribers symbol data_dict
      | [] => ret tt
      end
  | None => ret tt
  end.

(** One iteration of [_update_symbol_loop]; the result tells whether the
    loop goes on. *)
Definition update_symbol_iteration (symbol : string) : W bool :=
  do m <- get_manager;
  if has_subscribers symbol m then
    do _ <- try_except (update_symbol_once symbol) (fun _ => ret tt);
    ret true
  else ret false.

(** [_update_symbol_loop], for at most [fuel] iterations. *)
Fixpoint _update_symbol_loop (fuel : nat) (symbol : string) : W unit :=
  match fuel with
  | O => ret tt
  | S n =>
      do again <- update_symbol_iteration symbol;
      if (again : bool) then _update_symbol_loop n symbol else ret tt
  end.

(** ** Runs of the manager *)

Inductive Op : Type :=
| OpConnect (websocket : nat) (client_id : string)
| OpDisconnect (client_id : string)
| OpSubscribe (client_id : string) (symbols : list string)
| OpUnsubscribe (client_id symbol : string)
| OpPoll (symbol : string).

Definition step (s : System) (op : Op) : System :=
  match op with
  | OpConnect ws c => mkSystem (connect ws c (sys_manager s)) (sys_world s)
  | OpDisconnect c => mkSystem (disconnect c (sys_manager s)) (sys_world s)
  | OpSubscribe c symbols => snd (subscribe_symbols c symbols s)
  | OpUnsubscribe c symbol =>
      mkSystem (unsubscribe_symbol c symbol (sys_manager s)) (sys_world s)
  | OpPoll symbol => snd (update_symbol_iteration symbol s)
  end.

Definition run (ops : list Op) (s : System) : System := fold_left step ops s.

(** A poll task is registered for the symbol. *)
Definition task_registered (symbol : string) (m : Manager) : Prop :=
  is_Some (update_tasks m !! symbol).

(** The subscriber set of the symbol is not empty. *)
Definition subscribed (symbol : string) (m : Manager) : Prop :=
  ∃ C, symbol_subscribers m !! symbol = Some C ∧ C ≠ ∅.

End WebSocketManager.

(* ===================================================================== *)
(** * Vocabulary of the statements *)
(* ===================================================================== *)

Module Observations.
Import Py Runtime YFinanceHelper StockService WebSocketManager.

(** ** The store *)

(** A stored row without its [last_updated] stamp. *)
Definition bar_of (r : StockHistory) : BarParams :=
  mkBarParams (h_symbol r) (h_date r) (h_open r) (h_high r) (h_low r)
              (h_close r) (h_volume r).

Definition bar_key (b : BarParams) : string * Z := (p_symbol b, p_date b).

Definition bars (w : World) : list BarParams := map bar_of (w_history w).

(** The upsert statement read on bars. *)
Definition same_key (p b : BarParams) : bool :=
  String.eqb (p_symbol b) (p_symbol p) && (p_date b =? p_date p).

Definition put (p b : BarParams) : BarParams := if same_key p b then p else b.

Definition upsert_bar (t : list BarParams) (p : BarParams) : list BarParams :=
  if existsb (same_key p) t then map (put p) t else (t ++ [p])%list.

Definition put_all (ps : list BarParams) (b : BarParams) : BarParams :=
  fold_left (fun b p => put p b) ps b.

(** The stock row and the latest bar the queries of the service find. *)
Definition stock_of (symbol : string) (w : World) : option Stock :=
  find (fun s => String.eqb (s_symbol s) (upper symbol)) (w_stocks w).

Definition latest_bar (symbol : string) (w : World) : option StockHistory :=
  latest_row (upper symbol) (w_history w).

(** [D] is the latest date stored for the symbol. *)
Definition latest_date_is (symbol : string) (w : World) (D : Z) : Prop :=
  (exists r, In r (w_history w) /\ h_symbol r = upper symbol /\ h_date r = D) /\
  (forall r, In r (w_history w) -> h_symbol r = upper symbol -> h_date r <= D).

Definition no_rows_for (symbol : string) (w : World) : Prop :=
  forall r, In r (w_history w) -> h_symbol r <> upper symbol.

(** ** The cache and the provider *)

(** What [redis_client.get] answers when the transport does not fail. *)
Definition cached_value (key : string) (w : World) : option pyval :=
  if w_redis_up w then fst <$> (w_cache w !! key) else None.

(** The request [_fetch_and_store_history] sends for a start date. *)
Definition fetch_request (start_date : option Z) (today : Z) : HistReq :=
  match start_date with
  | Some start => ReqRange start (today + 1)
  | None => ReqPeriod "max"
  end.



(** ** Results *)

Definition error_result (v : pyval) : Prop :=
  (exists msg, field "error" v = Some (PStr msg)) /\
  field "data" v = Some (PList []) /\
  field "records" v = Some (PInt 0).

Definition ok_result (v : pyval) : Prop := field "error" v = Some PNone.

(** [quote["stock"][k]] *)
Definition quote_field (k : string) (quote : pyval) : option pyval :=
  match field "stock" quote with
  | Some stock => field k stock
  | None => None
  end.

(** ** The subscription manager *)

(** Registered tasks are exactly the symbols with subscribers. *)
Definition lifecycle_inv (m : Manager) : Prop :=
  forall symbol, task_registered symbol m <-> subscribed symbol m.

(** A computation keeps the invariant, whatever it returns or raises. *)
Definition keeps_inv {A} (c : W A) : Prop :=
  forall s, lifecycle_inv (sys_manager s) -> lifecycle_inv (sys_manager (snd (c s))).

(** Without transport failures a computation leaves the manager alone. *)
Definition quiet {A} (c : W A) : Prop :=
  forall s, w_faults (sys_world s) = [] ->
    sys_manager (snd (c s)) = sys_manager s /\
    w_faults (sys_world (snd (c s))) = [].

(** Two clients connect, both subscribe to one symbol, then leave in the
    same order. *)
Definition both_connected (x y : string) (wx wy : nat) : Manager :=
  connect wy y (connect wx x init).

Definition first_subscribed (x y symbol : string) (wx wy : nat) : Manager :=
  subscribe_one x (both_connected x y wx wy) symbol.

Definition both_subscribed (x y symbol : string) (wx wy : nat) : Manager :=
  subscribe_one y (first_subscribed x y symbol wx wy) symbol.

Definition first_left (x y symbol : string) (wx wy : nat) : Manager :=
  unsubscribe_symbol x symbol (both_subscribed x y symbol wx wy).

Definition both_left (x y symbol : string) (wx wy : nat) : Manager :=
  unsubscribe_symbol y symbol (first_left x y symbol wx wy).

End Observations.

(* ===================================================================== *)
(** * Sample data *)
(* ===================================================================== *)

Module Samples.
Import Py Runtime YFinanceHelper StockService WebSocketManager.

Definition f100 : float := Eval vm_compute in float_of_int 100.
Definition f102 : float := Eval vm_compute in float_of_int 102.
Definition f5000 : float := Eval vm_compute in float_of_int 5000.

Definition abc_stock : Stock :=
  mkStock "ABC" (Some "ABC.NS") (Some "ABC Ltd") (Some "Tech") (Some "NSE").

Definition abc_bar (date : Z) : StockHistory :=
  mkStockHistory "ABC" date (Some f100) (Some f102) (Some f100) (Some f102)
                 (Some 5000) 0.

(** A bar whose close and volume were not reported. *)
Definition abc_null_bar : StockHistory :=
  mkStockHistory "ABC" 739923 (Some f100) (Some f100) (Some f100) None None 0.

(** The same bar with a close of 0.0 and a volume of 0. *)
Definition abc_zero_bar : StockHistory :=
  mkStockHistory "ABC" 739923 (Some f100) (Some f100) (Some f100) (Some fzero)
                 (Some 0) 0.

Definition abc_frame : DataFrame :=
  [mkHistRow 739922 f100 f100 f100 f100 f5000;
   mkHistRow 739923 f100 f102 f100 f102 f5000].

(** A last row whose close is NaN. *)
Definition nan_frame : DataFrame :=
  [mkHistRow 739923 f100 f102 f100 S754_nan f5000].

Definition mixed_frame : DataFrame := (abc_frame ++ nan_frame)%list.

Definition abc_provider (symbol : string) (req : HistReq) : option DataFrame :=
  if String.eqb symbol "ABC.NS" then Some abc_frame else Some [].

Definition nan_provider (symbol : string) (req : HistReq) : option DataFrame :=
  if String.eqb symbol "XYZ.NS" then Some nan_frame else Some [].

Definition abc_nan_provider (symbol : string) (req : HistReq) : option DataFrame :=
  if String.eqb symbol "ABC.NS" then Some nan_frame else Some [].

(** A provider every call of which raises. *)
Definition failing_provider (symbol : string) (req : HistReq) : option DataFrame :=
  None.

Definition no_info (symbol : string) : option (list (string * pyval)) := Some [].

Definition saturday_noon : IstTime := mkIstTime 5 12 0 0 0.
Definition wednesday_noon : IstTime := mkIstTime 2 12 0 0 0.

(** A world on Wednesday 2026-11-04 (day 739924) with Redis connected and
    empty, no failure scripted and an empty log. *)
Definition sample_world (stocks : list Stock) (history : list StockHistory)
    (provider : string -> HistReq -> option DataFrame) (now : IstTime) : World :=
  mkWorld true ∅ stocks history None [] provider no_info
          739924 "2026-11-04T12:00:00" 1 (Some now) [] [].

(** The same world at another database time. *)
Definition with_sql_now (t : Z) (w : World) : World :=
  mkWorld (w_redis_up w) (w_cache w) (w_stocks w) (w_history w) (w_txn_base w)
          (w_faults w) (w_provider w) (w_info w) (w_today w) (w_now_iso w)
          t (w_ist_now w) (w_ist_later w) (w_log w).

(** Client X subscribed to XYZ, whose provider row has a NaN close. *)
Definition nan_system : System :=
  run [OpConnect 1 "X"; OpSubscribe "X" ["xyz"]]
      (mkSystem init (sample_world [] [] nan_provider wednesday_noon)).

Definition nan_tick : pyval :=
  PDict [("symbol", PStr "XYZ");
         ("price", PFloat S754_nan);
         ("change", PFloat S754_nan);
         ("change_percent", PFloat S754_nan);
         ("volume", PInt 5000);
         ("timestamp", PStr "2026-11-04T12:00:00")].

End Samples.

(* ===================================================================== *)
(** * [app/core/redis_client.py], the remaining operations *)
(* ===================================================================== *)

Module RedisClient.
Import Py Runtime.

(** [RedisClient.delete]: [False] when disconnected or on a transport
    error, [True] otherwise (whether or not the key was there). *)
Definition redis_delete (key : string) : M bool :=
  fun w =>
    if negb (w_redis_up w) then (Returned false, w)
    else (do bad <- next_fault;
          if (bad : bool) then ret false
          else fun w' => (Returned true, set_cache (delete key (w_cache w')) w')) w.

(** [RedisClient.exists]: [False] when disconnected or on a transport
    error. *)
Definition redis_exists (key : string) : M bool :=
  fun w =>
    if negb (w_redis_up w) then (Returned false, w)
    else (do bad <- next_fault;
          if (bad : bool) then ret false
          else fun w' => (Returned (bool_decide (is_Some (w_cache w' !! key))), w')) w.

End RedisClient.

(* ===================================================================== *)
(** * [app/utils/yfinance_helper.py], the signals of
      [calculate_technical_recommendations] *)
(* ===================================================================== *)

Module Recommendations.
Import Py Runtime.

(** The last values of the indicators, as pandas computed them. *)
Record Indicators : Type := mkIndicators {
  current_price : float;
  ma_20 : float;
  ma_50 : float;
  ma_200 : float;
  rsi : float;
  macd_current : float;
  signal_current : float
}.

(** [safe_value(val, default)] *)
Definition safe_value (val default : float) : float :=
  if isnan val || isinf val then default else val.

(** [safe_compare(val1, val2)]: [val1 > val2], and [False] when either is
    missing. *)
Definition safe_compare (val1 val2 : float) : bool :=
  if isnan val1 || isnan val2 then false else SFltb val2 val1.

(** The votes of the moving averages: 2 to buy, 2 to sell, or none. *)
Definition ma_votes (i : Indicators) : nat * nat :=
  if safe_compare (current_price i) (ma_20 i)
     && safe_compare (ma_20 i) (ma_50 i)
     && safe_compare (ma_50 i) (ma_200 i) then (2, 0)%nat
  else if safe_compare (ma_20 i) (current_price i)
          && safe_compare (ma_50 i) (ma_20 i)
          && safe_compare (ma_200 i) (ma_50 i) then (0, 2)%nat
  else (0, 0)%nat.

(** [rsi_val = safe_value(rsi, 50)] *)
Definition rsi_val (i : Indicators) : float := safe_value (rsi i) (float_of_int 50).

Definition rsi_votes (i : Indicators) : nat * nat :=
  if SFltb (rsi_val i) (float_of_int 30) then (1, 0)%nat
  else if SFltb (float_of_int 70) (rsi_val i) then (0, 1)%nat
  else (0, 0)%nat.

Definition macd_votes (i : Indicators) : nat * nat :=
  if safe_compare (macd_current i) (signal_current i) then (1, 0)%nat
  else (0, 1)%nat.

Definition buy_signals (i : Indicators) : nat :=
  (fst (ma_votes i) + fst (rsi_votes i) + fst (macd_votes i))%nat.

Definition sell_signals (i : Indicators) : nat :=
  (snd (ma_votes i) + snd (rsi_votes i) + snd (macd_votes i))%nat.

(** "Generate recommendation" *)
Definition rating (i : Indicators) : string :=
  let buy := buy_signals i in
  let sell := sell_signals i in
  if (sell <? buy)%nat then
    if (2 <=? buy - sell)%nat then "Strong Buy" else "Buy"
  else if (buy <? sell)%nat then
    if (2 <=? sell - buy)%nat then "Strong Sell" else "Sell"
  else "Hold".

End Recommendations.

(* ===================================================================== *)
(** * [app/api/stocks.py], the quote and history route functions *)
(* ===================================================================== *)

Module StocksApi.
Import Py Runtime StockService.

(** What a route function does: it returns a body or raises an
    [HTTPException].  The conversion of a returned body by the
    [response_model] of the route is done by the framework after the
    function has returned; it is not part of these definitions, which end
    where the function ends. *)
Inductive Outcome : Type :=
| Returns (body : pyval)
| RaisesHttp (status : Z) (detail : string).

(** The function [get_stock_quote]. *)
Definition get_stock_quote (symbol : string) : M Outcome :=
  try_except
    (do quote_data <- get_quote symbol;
     if opt_truthy quote_data then
       ret (Returns (match quote_data with Some q => q | None => PNone end))
     else ret (RaisesHttp 404 "Stock not found or no data available"))
    (fun e => ret (RaisesHttp 500 (String.append "Internal server error: " (exn_str e)))).

(** [app/schemas/stocks.py]: the fields that [StockQuoteResponse], the
    model of the [stock] entry in the response model of the quote route,
    declares without a default.  None of them is optional: a body in
    which one is missing or [None] does not pass the response model. *)
Definition StockQuoteResponse_required : list string :=
  ["symbol"; "name"; "exchange"; "currentPrice"; "change"; "changePercent";
   "volume"; "dayHigh"; "dayLow"; "open"].

Definition lacks_required (body : pyval) : bool :=
  existsb (fun k =>
             match field "stock" body with
             | Some stock =>
                 match field k stock with
                 | Some PNone | None => true
                 | Some _ => false
                 end
             | None => true
             end)
          StockQuoteResponse_required.

Definition route_error (period message : string) : M pyval :=
  do ts <- now_isoformat;
  ret (PDict [("data", PList []);
              ("source", PStr "error");
              ("timestamp", PStr ts);
              ("period", PStr period);
              ("records", PInt 0);
              ("error", PStr message)]).

Fixpoint starts_with (prefix s : string) : bool :=
  match prefix, s with
  | EmptyString, _ => true
  | String a p, String b r => Ascii.eqb a b && starts_with p r
  | String _ _, EmptyString => false
  end.

(** [sub in s] for two strings *)
Fixpoint contains (s sub : string) : bool :=
  starts_with sub s
  || match s with
     | EmptyString => false
     | String _ r => contains r sub
     end.

Definition is_error_word (v : pyval) : bool :=
  match v with PStr s => String.eqb s "error" | _ => false end.

(** ["error" in history_data and history_data["error"]].  On a
    dictionary this is the truth value of the entry, if any.  On a list
    or a string that holds ["error"] the index raises [TypeError]; on a
    number or a boolean the membership test itself raises it.  (A pandas
    object cannot come out of [get_history], which returns a dictionary
    it built or what [json.loads] gave; for a [Series] the test looks up
    the label, for a [DataFrame] with such a column the truth value of
    the column raises [ValueError].) *)
Definition error_entry (history_data : pyval) : M bool :=
  match history_data with
  | PDict d => ret (opt_truthy (dict_get "error" d))
  | PList l => if existsb is_error_word l then raise type_error else ret false
  | PStr s => if contains s "error" then raise type_error else ret false
  | PSeries items _ => ret (opt_truthy (dict_get "error" items))
  | PDataFrame rows _ =>
      if existsb (fun row => bool_decide (is_Some (dict_get "error" (snd row)))) rows
      then raise (Exn "ValueError") else ret false
  | PNone | PBool _ | PInt _ | PFloat _ | PDatetime _ => raise type_error
  end.

(** The function [get_stock_history]. *)
Definition get_stock_history (symbol period : string) : M pyval :=
  try_except
    (do history_data <- get_history symbol period;
     if negb (truthy history_data)
     then route_error period "No historical data available"
     else
       do _ <- error_entry history_data;   (* the warning it logs *)
       ret history_data)
    (fun e => route_error period
                (String.append "Internal server error: " (exn_str e))).

End StocksApi.

(* ===================================================================== *)
(** * [app/api/websocket.py] *)
(* ===================================================================== *)

Module WebSocketApi.
Import Py Runtime WebSocketManager.

(** What [receive_text] delivers: text that [json.loads] decodes to a
    value, or text it rejects. *)
Inductive Frame : Type :=
| FrameText (message : pyval)
| FrameUndecodable.

(** [for symbol in symbols]: the items visited, [None] when the value is
    not iterable.  A string yields its characters, a dictionary its keys. *)
Definition iterate (symbols : pyval) : option (list pyval) :=
  match symbols with
  | PList l => Some l
  | PStr s => Some (map (fun c => PStr (String c EmptyString)) (list_ascii_of_string s))
  | PDict d => Some (map (fun kv => PStr (fst kv)) d)
  | _ => None
  end.

(** The strings before the first item that is not a string, and whether
    there is no such item. *)
Fixpoint strings_prefix (items : list pyval) : list string * bool :=
  match items with
  | [] => ([], true)
  | PStr s :: rest => let (l, ok) := strings_prefix rest in (s :: l, ok)
  | _ :: _ => ([], false)
  end.

(** [WebSocketManager.connect], with its [accept()]. *)
Definition connect_accept (websocket : nat) (client_id : string) : W unit :=
  do bad <- lift next_fault;
  if (bad : bool) then raise (Exn "accept failed")
  else modify (connect websocket client_id).

(** [subscribe_symbols] on whatever the message holds under "symbols": an
    item that is not a string makes [symbol.upper()] raise after the items
    before it were registered. *)
Definition subscribe_message (client_id : string) (symbols : pyval) : W unit :=
  do m <- get_manager;
  match subscriptions m !! client_id with
  | None => ret tt
  | Some _ =>
      match iterate symbols with
      | None => raise (Exn "TypeError")
      | Some items =>
          let (l, ok) := strings_prefix items in
          if (ok : bool) then subscribe_symbols client_id l
          else
            do _ <- modify (fun m => fold_left (subscribe_one client_id) l m);
            raise (Exn "AttributeError")
      end
  end.

Definition unsubscribe_all (client_id : string) (symbols : list string)
    (m : Manager) : Manager :=
  fold_left (fun acc symbol => unsubscribe_symbol client_id symbol acc) symbols m.

(** [for symbol in symbols: unsubscribe_symbol(client_id, symbol)] *)
Definition unsubscribe_message (client_id : string) (symbols : pyval) : W unit :=
  match iterate symbols with
  | None => raise (Exn "TypeError")
  | Some items =>
      let (l, ok) := strings_prefix items in
      do _ <- modify (unsubscribe_all client_id l);
      if (ok : bool) then ret tt else raise (Exn "AttributeError")
  end.

Definition is_type (name : string) (message_type : option pyval) : bool :=
  match message_type with
  | Some (PStr t) => String.eqb t name
  | _ => false
  end.

(** [message.get("symbols", [])] *)
Definition symbols_of (d : list (string * pyval)) : pyval :=
  match dict_get "symbols" d with Some v => v | None => PList [] end.

(** The body of the [while True], after [receive_text]. *)
Definition handle_frame (client_id : string) (frame : Frame) : W unit :=
  match frame with
  | FrameUndecodable => raise (Exn "JSONDecodeError")
  | FrameText (PDict d) =>
      let message_type := dict_get "type" d in
      if is_type "subscribe" message_type then
        do _ <- subscribe_message client_id (symbols_of d);
        lift (send_text client_id
                (PDict [("type", PStr "subscribed");
                        ("symbols", symbols_of d);
                        ("client_id", PStr client_id)]))
      else if is_type "unsubscribe" message_type then
        do _ <- unsubscribe_message client_id (symbols_of d);
        lift (send_text client_id
                (PDict [("type", PStr "unsubscribed");
                        ("symbols", symbols_of d);
                        ("client_id", PStr client_id)]))
      else if is_type "ping" message_type then
        lift (send_text client_id (PDict [("type", PStr "pong")]))
      else ret tt
  | FrameText _ => raise (Exn "AttributeError")
  end.

(** The [while True] over the frames the client sends; when they are
    exhausted [receive_text] raises [WebSocketDisconnect]. *)
Fixpoint receive_loop (client_id : string) (frames : list Frame) : W unit :=
  match frames with
  | [] => raise (Exn "WebSocketDisconnect")
  | frame :: rest =>
      do _ <- handle_frame client_id frame;
      receive_loop client_id rest
  end.

(** [websocket_endpoint]: the [try], its two handlers, and the [finally].
    The session is run from its first step to its last; the sessions of
    other clients and the update tasks take their turns before or after
    it. *)
Definition websocket_endpoint (websocket : nat) (client_id : string)
    (frames : list Frame) : W unit :=
  do _ <- try_except
            (do _ <- connect_accept websocket client_id;
             do _ <- lift (send_text client_id
                             (PDict [("type", PStr "connected");
                                     ("client_id", PStr client_id);
                                     ("message", PStr "WebSocket connected successfully")]));
             receive_loop client_id frames)
            (fun _ => ret tt);
  modify (disconnect client_id).

(** [get_websocket_status]; [active_symbols] lists the keys in the order
    of [elements]. *)
Definition total_subscriptions (m : Manager) : nat :=
  map_fold (fun _ (syms : gset string) acc => (size syms + acc)%nat) 0%nat
           (subscriptions m).

Definition get_websocket_status (m : Manager) : pyval :=
  PDict [("active_connections", PInt (Z.of_nat (size (active_connections m))));
         ("total_subscriptions", PInt (Z.of_nat (total_subscriptions m)));
         ("active_symbols",
          PList (map PStr (elements (dom (symbol_subscribers m)))));
         ("update_tasks", PInt (Z.of_nat (size (update_tasks m))))].

End WebSocketApi.

(* ===================================================================== *)
(** * Vocabulary of the further statements *)
(* ===================================================================== *)

Module Invariants.
Import Py Runtime YFinanceHelper StockService WebSocketManager.

(** ** The subscription manager *)

(** No symbol is kept with an empty subscriber set. *)
Definition sets_nonempty (m : Manager) : Prop :=
  forall symbol C, symbol_subscribers m !! symbol = Some C -> C <> ∅.

(** The client is in the subscriber set of the symbol. *)
Definition listens (client_id symbol : string) (m : Manager) : Prop :=
  exists C, symbol_subscribers m !! symbol = Some C /\ client_id ∈ C.

(** The symbol is in the subscription set of the client. *)
Definition follows (client_id symbol : string) (m : Manager) : Prop :=
  exists syms, subscriptions m !! client_id = Some syms /\ symbol ∈ syms.

(** Every subscriber is recorded on the client side too, and the symbols
    recorded there are in upper case. *)
Definition consistent (m : Manager) : Prop :=
  (forall c s, listens c s m -> follows c s m) /\
  (forall c s, follows c s m -> upper s = s).

(** A client is connected exactly when it has a subscription set. *)
Definition paired (m : Manager) : Prop :=
  forall c, is_Some (active_connections m !! c) <-> is_Some (subscriptions m !! c).

(** What the manager holds about one client. *)
Definition view (client_id : string) (m : Manager)
    : option nat * option (gset string) :=
  (active_connections m !! client_id, subscriptions m !! client_id).

(** What the manager holds about a client [d] is what [m0] holds: its
    websocket, its subscription set, the subscriber sets it is in, and
    the update tasks of its symbols. *)
Definition untouched (d : string) (m0 m : Manager) : Prop :=
  view d m = view d m0 /\
  (forall symbol, listens d symbol m <-> listens d symbol m0) /\
  (forall symbol, listens d symbol m0 ->
                  update_tasks m !! symbol = update_tasks m0 !! symbol).

(** Every registered task was created earlier. *)
Definition handles_issued (m : Manager) : Prop :=
  forall symbol task, update_tasks m !! symbol = Some task ->
                      (task < tasks_created m)%nat.

(** Nothing of the client is left. *)
Definition client_gone (client_id : string) (m : Manager) : Prop :=
  active_connections m !! client_id = None /\
  subscriptions m !! client_id = None /\
  forall symbol, ~ listens client_id symbol m.

(** A computation keeps a property of the manager, whatever it returns or
    raises. *)
Definition preserves {A} (P : Manager -> Prop) (c : W A) : Prop :=
  forall s, P (sys_manager s) -> P (sys_manager (snd (c s))).

(** ** The world *)

(** The table as committed: what a rollback would restore. *)
Definition committed (w : World) : list StockHistory :=
  match w_txn_base w with Some b => b | None => w_history w end.

(** Nothing but the failure script and the clock differs. *)
Definition same_data (w w' : World) : Prop :=
  w_redis_up w' = w_redis_up w /\ w_cache w' = w_cache w /\
  w_stocks w' = w_stocks w /\ w_history w' = w_history w /\
  w_txn_base w' = w_txn_base w /\ w_provider w' = w_provider w /\
  w_info w' = w_info w /\ w_today w' = w_today w /\
  w_now_iso w' = w_now_iso w /\ w_sql_now w' = w_sql_now w /\
  w_log w' = w_log w.

(** A computation keeps a property of the world, whatever it returns or
    raises. *)
Definition maintains {A} (P : World -> Prop) (m : M A) : Prop :=
  forall w, P w -> P (snd (m w)).

(** Two worlds that differ at most in the Redis connection and in what
    the cache holds, neither with a failure scripted. *)
Definition redis_apart (w1 w2 : World) : Prop :=
  w_faults w1 = [] /\ w_faults w2 = [] /\
  w_stocks w1 = w_stocks w2 /\ w_history w1 = w_history w2 /\
  w_txn_base w1 = w_txn_base w2 /\ w_provider w1 = w_provider w2 /\
  w_info w1 = w_info w2 /\ w_today w1 = w_today w2 /\
  w_now_iso w1 = w_now_iso w2 /\ w_sql_now w1 = w_sql_now w2 /\
  w_ist_now w1 = w_ist_now w2 /\ w_ist_later w1 = w_ist_later w2 /\
  w_log w1 = w_log w2.

(** A computation does the same in two such worlds: same result, same
    provider calls, same cache writes attempted, same tables. *)
Definition agrees {A} (m : M A) : Prop :=
  forall w1 w2, redis_apart w1 w2 ->
    fst (m w1) = fst (m w2) /\ redis_apart (snd (m w1)) (snd (m w2)).

(** No scalar anywhere in the value: dictionaries, lists and pandas
    objects whose leaves, if any, are empty containers. *)
Fixpoint scalar_free (v : pyval) : bool :=
  match v with
  | PDict d => forallb (fun kv => scalar_free (snd kv)) d
  | PList l => forallb scalar_free l
  | PSeries items _ => forallb (fun kv => scalar_free (snd kv)) items
  | PDataFrame rows _ =>
      forallb (fun row => forallb (fun kv => scalar_free (snd kv)) (snd row)) rows
  | PNone | PBool _ | PInt _ | PFloat _ | PStr _ | PDatetime _ => false
  end.

(** No price of the row is NaN. *)
Definition not_nan (x : option float) : bool :=
  match x with Some f => negb (isnan f) | None => true end.

Definition nan_free (r : StockHistory) : bool :=
  not_nan (h_open r) && not_nan (h_high r) && not_nan (h_low r)
  && not_nan (h_close r).

(** The parameter set carries no NaN price. *)
Definition clean_params (p : BarParams) : bool :=
  not_nan (p_open p) && not_nan (p_high p) && not_nan (p_low p)
  && not_nan (p_close p).

(** No NaN price in the table, nor in what a rollback would restore. *)
Definition clean_table (w : World) : Prop :=
  forallb nan_free (w_history w) = true /\ forallb nan_free (committed w) = true.

(** Rows in ascending date order. *)
Fixpoint ascending (rows : list StockHistory) : Prop :=
  match rows with
  | [] => True
  | r :: rest => (forall r', In r' rest -> h_date r <= h_date r') /\ ascending rest
  end.

(** The messages sent, in order. *)
Definition sends (w : World) : list (string * pyval) :=
  flat_map (fun e => match e with EvSend c m => [(c, m)] | _ => [] end) (w_log w).

(** A provider answer that [try_variants] passes over. *)
Definition no_data (answer : option DataFrame) : Prop :=
  answer = None \/ answer = Some [].

Definition six_months (variant : string) : string * HistReq :=
  (variant, ReqPeriod "6mo").

(** The world once the six-month history of each candidate was asked for. *)
Definition asked (variants : list string) (w : World) : World :=
  fold_left (fun w v => add_log (EvHistory v (ReqPeriod "6mo")) w) variants w.

End Invariants.

(* ===================================================================== *)
(** * Further sample data *)
(* ===================================================================== *)

Module MoreSamples.
Import Py Runtime YFinanceHelper StockService WebSocketManager Samples.

(** A world whose cache holds an entry for the quote and for the
    six-month history of ABC. *)
Definition cached_answer : pyval := PDict [("source", PStr "database")].

Definition warm_world : World :=
  set_cache (<[quote_key "abc" := (cached_answer, 30)]>
               (<[history_key "abc" "6M" := (cached_answer, 86400)]> ∅))
            (sample_world [] [] failing_provider wednesday_noon).

(** A stock row whose company name is null. *)
Definition nameless_stock : Stock :=
  mkStock "ABC" (Some "ABC.NS") None (Some "Tech") (Some "NSE").

(** A frame whose second row has an infinite volume. *)
Definition inf_frame : DataFrame :=
  [mkHistRow 739922 f100 f100 f100 f100 f5000;
   mkHistRow 739923 f100 f102 f100 f102 (S754_infinity false)].

Definition inf_provider (symbol : string) (req : HistReq) : option DataFrame :=
  if String.eqb symbol "ABC.NS" then Some inf_frame else Some [].

(** The same world with Redis disconnected. *)
Definition redis_down (w : World) : World :=
  mkWorld false ∅ (w_stocks w) (w_history w) (w_txn_base w)
          (w_faults w) (w_provider w) (w_info w) (w_today w) (w_now_iso w)
          (w_sql_now w) (w_ist_now w) (w_ist_later w) (w_log w).

End MoreSamples.

(* ===================================================================== *)
(** * Properties *)
(* ===================================================================== *)

Import Py Runtime YFinanceHelper StockService WebSocketManager.
Import Observations Samples.

(** ** The model on small inputs *)

Example upper_strip_example : strip (upper "  reliance.ns  ") = "RELIANCE.NS".
Proof. reflexivity. Qed.

Example lstrip_dollar_example : clean_symbol "$$tcs" = "TCS".
Proof. reflexivity. Qed.

Example variations_examples :
  symbol_variations "^nsei" = ["^NSEI"] /\
  symbol_variations "infy.ns" = ["INFY.NS"] /\
  symbol_variations "infy.bo" = ["INFY.BO"] /\
  symbol_variations "infy" = ["INFY.NS"; "INFY.BO"] /\
  symbol_variations "infy.bse" = ["INFY.BO"; "INFY.NS"].
Proof. repeat split. Qed.

Example int_of_float_examples :
  int_of_float f5000 = Some 5000 /\
  int_of_float (binary_normalize prec emax (-5) (-1) false) = Some (-2) /\
  int_of_float S754_nan = None /\
  int_of_float (S754_infinity false) = None.
Proof. repeat split. Qed.

Example strftime_examples :
  strftime_ymd 739924 = "2026-11-04" /\
  strftime_ymd 730179 = "2000-02-29" /\
  strftime_ymd 738945 = "2024-02-29" /\
  strftime_ymd 719163 = "1970-01-01" /\
  strftime_ymd 1 = "0001-01-01".
Proof. repeat split. Qed.

Example market_hours_examples :
  market_hours (Some (mkIstTime 0 9 15 0 0)) = true /\
  market_hours (Some (mkIstTime 0 9 14 59 999999)) = false /\
  market_hours (Some (mkIstTime 4 15 30 0 0)) = true /\
  market_hours (Some (mkIstTime 4 15 30 0 1)) = false /\
  market_hours (Some saturday_noon) = false /\
  market_hours None = false.
Proof. repeat split. Qed.

Example period_examples :
  period_dates 739924 "1m" = (Some 739894, 739924) /\
  period_dates 739924 "5Y" = (Some 738099, 739924) /\
  period_dates 739924 "all" = (None, 739924) /\
  period_dates 739924 "3M" = (Some 739744, 739924).
Proof. repeat split. Qed.

(** A cold symbol: the whole history is fetched and stored, the window is
    read back from the store, and the result is cached for a day. *)
Example cold_history_example :
  let r := get_history "abc" "6M"
             (sample_world [abc_stock] [] abc_provider wednesday_noon) in
  history_requests (snd r) = [("ABC.NS", ReqPeriod "max")] /\
  length (w_history (snd r)) = 2%nat /\
  (exists v, fst r = Returned v /\
     field "records" v = Some (PInt 2) /\
     field "source" v = Some (PStr "database+yfinance") /\
     field "error" v = Some PNone /\
     cache_writes (snd r) = [(history_key "abc" "6M", v, CACHE_TTL_HISTORICAL)]).
Proof.
  split; [reflexivity|]. split; [reflexivity|].
  eexists. split; [reflexivity|]. repeat split.
Qed.

(** The second call is answered from the cache, without the provider. *)
Example cached_history_example :
  let first := get_history "abc" "6M"
                 (sample_world [abc_stock] [] abc_provider wednesday_noon) in
  let second := get_history "abc" "6M" (snd first) in
  fst second = fst first /\
  history_requests (snd second) = history_requests (snd first).
Proof. split; reflexivity. Qed.

(** No live quote comes out: the dictionary of the quote is assembled, and
    [sanitize_for_json] raises on its first field; the fetch catches that
    and answers [None]. *)
Example live_quote_example :
  fst (_fetch_quote_from_yfinance "abc"
         (sample_world [abc_stock] [] abc_provider wednesday_noon)) = Returned None /\
  sanitize_for_json (PDict [("symbol", PStr "ABC")]) = None /\
  sanitize_for_json (PDict [("rows", PList [])]) = Some (PDict [("rows", PList [])]).
Proof. repeat split. Qed.

(** ** Symbol resolution *)

Lemma upper_app a b : upper (String.append a b) = String.append (upper a) (upper b).
Proof. induction a as [|c a IH]; simpl; [reflexivity | now rewrite IH]. Qed.

Lemma lstrip_by_app p a c s :
  p c = false ->
  lstrip_by p (String.append a (String c s)) = String.append (lstrip_by p a) (String c s).
Proof.
  intros Hc. induction a as [|x a IH]; simpl.
  - now rewrite Hc.
  - destruct (p x); [exact IH | reflexivity].
Qed.

Lemma endswith_unfold s suf :
  endswith s suf =
  if String.eqb s suf then true
  else match s with EmptyString => false | String _ r => endswith r suf end.
Proof. destruct s; reflexivity. Qed.

Lemma endswith_app a suf : endswith (String.append a suf) suf = true.
Proof.
  induction a as [|c a IH].
  - simpl String.append. rewrite endswith_unfold. now rewrite String.eqb_refl.
  - rewrite endswith_unfold. simpl String.append.
    destruct (String.eqb _ _); [reflexivity | exact IH].
Qed.

Lemma endswith_inv s suf : endswith s suf = true -> exists a, s = String.append a suf.
Proof.
  induction s as [|c s IH]; rewrite endswith_unfold.
  - destruct (String.eqb "" suf) eqn:E; [|discriminate].
    apply String.eqb_eq in E. intros _. exists "". now subst.
  - destruct (String.eqb (String c s) suf) eqn:E.
    + apply String.eqb_eq in E. intros _. exists "". now subst.
    + intros H. destruct (IH H) as [a ->]. now exists (String c a).
Qed.

Lemma substring_prefix a b : substring 0 (String.length a) (String.append a b) = a.
Proof.
  induction a as [|c a IH]; simpl.
  - destruct b; reflexivity.
  - now rewrite IH.
Qed.

Lemma length_append a b :
  String.length (String.append a b) = (String.length a + String.length b)%nat.
Proof. induction a as [|c a IH]; simpl; [reflexivity | now rewrite IH]. Qed.

Lemma drop_last_app a suf : drop_last (String.length suf) (String.append a suf) = a.
Proof.
  unfold drop_last. rewrite length_append.
  replace (String.length a + String.length suf - String.length suf)%nat
    with (String.length a) by lia.
  apply substring_prefix.
Qed.

Lemma index_symbol_not_bse c : in_index_symbols c = true -> endswith c ".BSE" = false.
Proof.
  unfold in_index_symbols, INDEX_SYMBOLS. simpl.
  repeat (destruct (String.eqb c _) eqn:E;
          [apply String.eqb_eq in E; subst; reflexivity | clear E]).
  discriminate.
Qed.

Lemma clean_symbol_bse b :
  clean_symbol (String.append b ".BSE") = String.append (clean_symbol b) ".BSE".
Proof.
  unfold clean_symbol, lstrip_dollar.
  rewrite (lstrip_by_app _ b "."%char "BSE") by reflexivity.
  now rewrite upper_app.
Qed.

Lemma variations_of_bse ticker :
  endswith (clean_symbol ticker) ".BSE" = true ->
  clean_symbol ticker = String.append (drop_last 4 (clean_symbol ticker)) ".BSE" /\
  symbol_variations ticker =
    [String.append (drop_last 4 (clean_symbol ticker)) ".BO";
     String.append (drop_last 4 (clean_symbol ticker)) ".NS"].
Proof.
  intros Hb. unfold symbol_variations.
  destruct (in_index_symbols (clean_symbol ticker)) eqn:Hi.
  - apply index_symbol_not_bse in Hi. congruence.
  - rewrite Hb. split; [|reflexivity].
    destruct (endswith_inv _ _ Hb) as [a Ha].
    pose proof (drop_last_app a ".BSE") as D. simpl String.length in D.
    now rewrite Ha, D.
Qed.

(** C7 (as amended).  For a ticker whose cleaned form ends with ".BSE" the
    candidates are exactly two: the BSE variant (base + ".BO") first and
    the NSE variant (base + ".NS") second, where base is the cleaned ticker
    without its suffix; this holds in particular for every ticker written
    prefix + ".BSE".  For a ticker that is no index symbol and carries none
    of the suffixes ".BSE", ".NS", ".BO", the candidates are the NSE variant
    first and the BSE variant second. *)
Theorem C7_resolution_order (ticker : string) :
  let clean := clean_symbol ticker in
  (endswith clean ".BSE" = true ->
     let base := drop_last 4 clean in
     clean = String.append base ".BSE" /\
     symbol_variations ticker = [String.append base ".BO"; String.append base ".NS"])
  /\
  (forall prefix, ticker = String.append prefix ".BSE" ->
     symbol_variations ticker =
       [String.append (clean_symbol prefix) ".BO";
        String.append (clean_symbol prefix) ".NS"])
  /\
  (in_index_symbols clean = false ->
   endswith clean ".BSE" = false ->
   endswith clean ".NS" = false ->
   endswith clean ".BO" = false ->
     symbol_variations ticker = [String.append clean ".NS"; String.append clean ".BO"]).
Proof.
  intros clean. split; [|split].
  - intros Hb base. now apply variations_of_bse.
  - intros prefix ->.
    assert (Hb : endswith (clean_symbol (String.append prefix ".BSE")) ".BSE" = true)
      by (rewrite clean_symbol_bse; apply endswith_app).
    destruct (variations_of_bse _ Hb) as [_ ->].
    rewrite clean_symbol_bse.
    pose proof (drop_last_app (clean_symbol prefix) ".BSE") as D.
    simpl String.length in D. now rewrite D.
  - intros Hi Hb Hn Ho. unfold symbol_variations. fold clean.
    now rewrite Hi, Hb, Hn, Ho.
Qed.

Lemma C7_resolution_order_witness :
  symbol_variations "reliance.bse" = ["RELIANCE.BO"; "RELIANCE.NS"] /\
  symbol_variations "$TCS" = ["TCS.NS"; "TCS.BO"].
Proof.
  split.
  - apply (proj1 (C7_resolution_order "reliance.bse")). reflexivity.
  - apply (proj2 (proj2 (C7_resolution_order "$TCS"))); reflexivity.
Defined.

(** C7 as stated fails: for "RELIANCE.BSE" the claim puts the BSE variant
    second, as the fallback; the code returns ["RELIANCE.BO"; "RELIANCE.NS"],
    whose second candidate is the NSE variant. *)
Lemma C7_counterexample :
  ~ (exists first second,
       symbol_variations "RELIANCE.BSE" = [first; second] /\
       (second = "RELIANCE.BO" \/ second = "RELIANCE.BSE")).
Proof.
  intros (first & second & E & [H|H]); subst second; discriminate E.
Qed.

(** ** Period windows *)

(** C6 (as amended).  A period that is not "ALL" and not a key of the
    mapping (after upper-casing) resolves to the six-month window: from
    180 days before today to today. *)
Theorem C6_unknown_period_default (today : Z) (period : string) :
  upper period <> "ALL" ->
  mapping_get (upper period) period_mapping = None ->
  period_dates today period = (Some (today - 180), today) /\
  period_dates today period = period_dates today "6M" /\
  forall w, _get_period_dates period w = (Returned (Some (w_today w - 180), w_today w), w).
Proof.
  intros Hall Hmap.
  assert (E : forall t, period_dates t period = (Some (t - 180), t)).
  { intros t. unfold period_dates. rewrite Hmap.
    destruct (String.eqb (upper period) "ALL") eqn:E; [|reflexivity].
    apply String.eqb_eq in E. contradiction. }
  split; [apply E|]. split; [rewrite E; reflexivity|].
  intros w. unfold _get_period_dates, bind, date_today, ret. now rewrite E.
Qed.

Lemma C6_unknown_period_default_witness :
  period_dates 739924 "2y" = (Some (739924 - 180), 739924) /\
  period_dates 739924 "2y" = period_dates 739924 "6M" /\
  forall w, _get_period_dates "2y" w = (Returned (Some (w_today w - 180), w_today w), w).
Proof.
  apply (C6_unknown_period_default 739924 "2y"); [discriminate | reflexivity].
Defined.

(** C6 as stated fails: "2Y" is not in the mapping, and its window is
    neither the five-year window (the widest of the mapping) nor the
    open-ended one of "ALL". *)
Lemma C6_counterexample :
  ~ (upper "2Y" <> "ALL" ->
     mapping_get (upper "2Y") period_mapping = None ->
     period_dates 739924 "2Y" = period_dates 739924 "5Y" \/
     period_dates 739924 "2Y" = period_dates 739924 "ALL").
Proof.
  intros H. destruct H as [H|H]; [discriminate | reflexivity | |]; discriminate H.
Qed.

(** ** The subscription manager: tasks follow subscribers *)

Lemma lifecycle_inv_init : lifecycle_inv init.
Proof.
  intros s. unfold task_registered, subscribed. simpl. split.
  - intros [t Ht]. rewrite lookup_empty in Ht. discriminate.
  - intros (C & HC & _). rewrite lookup_empty in HC. discriminate.
Qed.

Lemma lifecycle_inv_ext m m' :
  symbol_subscribers m' = symbol_subscribers m ->
  update_tasks m' = update_tasks m ->
  lifecycle_inv m -> lifecycle_inv m'.
Proof.
  intros Hs Ht H s. unfold task_registered, subscribed. rewrite Hs, Ht. apply H.
Qed.

Lemma lifecycle_inv_connect ws c m : lifecycle_inv m -> lifecycle_inv (connect ws c m).
Proof. apply lifecycle_inv_ext; reflexivity. Qed.

Lemma lifecycle_inv_unsubscribe c symbol m :
  lifecycle_inv m -> lifecycle_inv (unsubscribe_symbol c symbol m).
Proof.
  intros H s. unfold unsubscribe_symbol.
  pose proof (H s) as Hs. pose proof (H (upper symbol)) as Hu.
  unfold task_registered, subscribed in *.
  destruct (symbol_subscribers m !! upper symbol) as [C|] eqn:EC; simpl; [|exact Hs].
  destruct (decide (C ∖ {[c]} = ∅)) as [Hempty|Hne].
  - destruct (update_tasks m !! upper symbol) as [t|] eqn:ET; simpl.
    + destruct (decide (s = upper symbol)) as [->|Hneq].
      * rewrite !lookup_delete_eq. split; [intros [? ?]; discriminate|].
        intros (? & ? & _); discriminate.
      * rewrite !lookup_delete_ne by congruence. exact Hs.
    + destruct (decide (s = upper symbol)) as [->|Hneq].
      * rewrite lookup_delete_eq, ET. split; [intros [? ?]; discriminate|].
        intros (? & ? & _); discriminate.
      * rewrite lookup_delete_ne by congruence. exact Hs.
  - simpl. destruct (decide (s = upper symbol)) as [->|Hneq].
    + rewrite lookup_insert_eq. split.
      * intros _. eauto.
      * intros _. apply Hu. exists C. split; [reflexivity|].
        intros ->. apply Hne. set_solver.
    + rewrite lookup_insert_ne by congruence. exact Hs.
Qed.

Lemma lifecycle_inv_unsubscribe_all c symbols m :
  lifecycle_inv m ->
  lifecycle_inv (fold_left (fun acc symbol => unsubscribe_symbol c symbol acc) symbols m).
Proof.
  revert m. induction symbols as [|s l IH]; intros m H; simpl; [exact H|].
  apply IH. now apply lifecycle_inv_unsubscribe.
Qed.

Lemma lifecycle_inv_unsubscribe_clients symbol clients m :
  lifecycle_inv m ->
  lifecycle_inv (fold_left (fun acc c => unsubscribe_symbol c symbol acc) clients m).
Proof.
  revert m. induction clients as [|c l IH]; intros m H; simpl; [exact H|].
  apply IH. now apply lifecycle_inv_unsubscribe.
Qed.

Lemma lifecycle_inv_disconnect c m : lifecycle_inv m -> lifecycle_inv (disconnect c m).
Proof.
  intros H. unfold disconnect. simpl.
  destruct (subscriptions m !! c) as [syms|]; [|exact H].
  eapply lifecycle_inv_ext; [reflexivity | reflexivity |].
  apply lifecycle_inv_unsubscribe_all. exact H.
Qed.

Lemma lifecycle_inv_subscribe_one c m symbol :
  lifecycle_inv m -> lifecycle_inv (subscribe_one c m symbol).
Proof.
  intros H s. unfold subscribe_one.
  set (n := strip (upper symbol)).
  destruct (str_truthy n); [|apply H].
  pose proof (H s) as Hs. pose proof (H n) as Hn.
  unfold task_registered, subscribed in *.
  set (C := match symbol_subscribers m !! n with Some C => C | None => ∅ end).
  assert (Hne : C ∪ {[c]} ≠ ∅) by set_solver.
  destruct (size (C ∪ {[c]}) =? 1)%nat eqn:E; simpl.
  - destruct (decide (s = n)) as [->|Hneq].
    + rewrite !lookup_insert_eq. split; eauto.
    + rewrite !lookup_insert_ne by congruence. exact Hs.
  - destruct (decide (s = n)) as [->|Hneq].
    + rewrite lookup_insert_eq. split; [eauto|]. intros _.
      apply Hn. subst C.
      destruct (symbol_subscribers m !! n) as [C0|] eqn:EC.
      * exists C0. split; [reflexivity|]. intros ->.
        rewrite union_empty_l_L, size_singleton in E. discriminate.
      * rewrite union_empty_l_L, size_singleton in E. discriminate.
    + rewrite lookup_insert_ne by congruence. exact Hs.
Qed.

Lemma lifecycle_inv_subscribe_all c symbols m :
  lifecycle_inv m -> lifecycle_inv (fold_left (subscribe_one c) symbols m).
Proof.
  revert m. induction symbols as [|s l IH]; intros m H; simpl; [exact H|].
  apply IH. now apply lifecycle_inv_subscribe_one.
Qed.

Lemma keeps_ret {A} (a : A) : keeps_inv (ret a).
Proof. intros s H. exact H. Qed.

Lemma keeps_raise {A} e : keeps_inv (@raise System A e).
Proof. intros s H. exact H. Qed.

Lemma keeps_lift {A} (m : M A) : keeps_inv (lift m).
Proof. intros s H. unfold lift. destruct (m (sys_world s)). exact H. Qed.

Lemma keeps_get : keeps_inv get_manager.
Proof. intros s H. exact H. Qed.

Lemma keeps_modify f :
  (forall m, lifecycle_inv m -> lifecycle_inv (f m)) -> keeps_inv (modify f).
Proof. intros Hf s H. simpl. now apply Hf. Qed.

Lemma keeps_bind {A B} (m : W A) (k : A -> W B) :
  keeps_inv m -> (forall a, keeps_inv (k a)) -> keeps_inv (bind m k).
Proof.
  intros Hm Hk s H. unfold bind. specialize (Hm s H).
  destruct (m s) as [[a|e] s']; simpl in *; [now apply Hk | exact Hm].
Qed.

Lemma keeps_try {A} (b : W A) (h : exn -> W A) :
  keeps_inv b -> (forall e, keeps_inv (h e)) -> keeps_inv (try_except b h).
Proof.
  intros Hb Hh s H. unfold try_except. specialize (Hb s H).
  destruct (b s) as [[a|e] s']; simpl in *; [exact Hb | now apply Hh].
Qed.

Ltac keeps :=
  repeat lazymatch goal with
    | |- keeps_inv (ret _) => apply keeps_ret
    | |- keeps_inv (raise _) => apply keeps_raise
    | |- keeps_inv (lift _) => apply keeps_lift
    | |- keeps_inv get_manager => apply keeps_get
    | |- keeps_inv (bind _ _) => apply keeps_bind; [|intros ?]
    | |- keeps_inv (try_except _ _) => apply keeps_try; [|intros ?]
    | |- keeps_inv (modify _) => apply keeps_modify; intros ? ?
    end.

Lemma keeps_send_to_client c msg : keeps_inv (send_to_client c msg).
Proof.
  unfold send_to_client. apply keeps_bind; [apply keeps_get|]. intros m.
  destruct (active_connections m !! c); keeps. now apply lifecycle_inv_disconnect.
Qed.

Lemma keeps_send_cached c symbols : keeps_inv (send_cached c symbols).
Proof.
  induction symbols as [|s l IH]; simpl; keeps.
  - destruct (opt_truthy a); [apply keeps_send_to_client | apply keeps_ret].
  - exact IH.
Qed.

Lemma keeps_subscribe_symbols c symbols : keeps_inv (subscribe_symbols c symbols).
Proof.
  unfold subscribe_symbols. apply keeps_bind; [apply keeps_get|]. intros m.
  destruct (subscriptions m !! c); keeps.
  - now apply lifecycle_inv_subscribe_all.
  - apply keeps_send_cached.
Qed.

Lemma keeps_send_all clients msg : keeps_inv (send_all clients msg).
Proof.
  induction clients as [|c l IH]; simpl; keeps.
  - apply keeps_send_to_client.
  - exact IH.
Qed.

Lemma keeps_broadcast symbol data : keeps_inv (broadcast_to_symbol_subscribers symbol data).
Proof.
  unfold broadcast_to_symbol_subscribers. apply keeps_bind; [apply keeps_get|]. intros m.
  destruct (symbol_subscribers m !! symbol); keeps.
  - apply keeps_send_all.
  - now apply lifecycle_inv_unsubscribe_clients.
Qed.

Lemma keeps_update_once symbol : keeps_inv (update_symbol_once symbol).
Proof.
  unfold update_symbol_once. apply keeps_bind; [apply keeps_lift|]. intros [[t hist]|]; keeps.
  destruct (rev hist); keeps.
  - destruct (dict_get "previousClose" a) as [v|]; keeps.
    unfold number_of. destruct v; keeps.
  - unfold int_of. destruct (int_of_float _); keeps.
  - apply keeps_broadcast.
Qed.

Lemma keeps_update_iteration symbol : keeps_inv (update_symbol_iteration symbol).
Proof.
  unfold update_symbol_iteration. apply keeps_bind; [apply keeps_get|]. intros m.
  destruct (has_subscribers symbol m); keeps. apply keeps_update_once.
Qed.

Lemma lifecycle_inv_step s op :
  lifecycle_inv (sys_manager s) -> lifecycle_inv (sys_manager (step s op)).
Proof.
  intros H. destruct op; simpl.
  - now apply lifecycle_inv_connect.
  - now apply lifecycle_inv_disconnect.
  - now apply keeps_subscribe_symbols.
  - now apply lifecycle_inv_unsubscribe.
  - now apply keeps_update_iteration.
Qed.

Lemma lifecycle_inv_run ops s :
  lifecycle_inv (sys_manager s) -> lifecycle_inv (sys_manager (run ops s)).
Proof.
  revert s. induction ops as [|op l IH]; intros s H; simpl; [exact H|].
  apply IH. now apply lifecycle_inv_step.
Qed.



Lemma next_fault_quiet w : w_faults w = [] -> next_fault w = (Returned false, w).
Proof. intros H. unfold next_fault. now rewrite H. Qed.

Lemma quiet_ret {A} (a : A) : quiet (ret a).
Proof. intros s H. auto. Qed.

Lemma quiet_bind {A B} (m : W A) (k : A -> W B) :
  quiet m -> (forall a, quiet (k a)) -> quiet (bind m k).
Proof.
  intros Hm Hk s H. unfold bind. destruct (Hm s H) as [H1 H2].
  destruct (m s) as [[a|e] s']; simpl in *; [|auto].
  destruct (Hk a s' H2) as [H3 H4]. rewrite H3, H4. auto.
Qed.

Lemma quiet_redis_get key : quiet (lift (redis_get key)).
Proof.
  intros s H. unfold lift, redis_get.
  destruct (w_redis_up (sys_world s)); simpl; [|auto].
  unfold bind. rewrite (next_fault_quiet _ H). simpl. auto.
Qed.

Lemma quiet_send_to_client c msg : quiet (send_to_client c msg).
Proof.
  intros s H. unfold send_to_client, bind, get_manager.
  destruct (active_connections (sys_manager s) !! c); simpl; [|auto].
  unfold try_except, bind, lift, send_text, bind.
  rewrite (next_fault_quiet _ H). simpl. auto.
Qed.

Lemma quiet_send_cached c symbols : quiet (send_cached c symbols).
Proof.
  induction symbols as [|sym l IH]; simpl; [apply quiet_ret|].
  apply quiet_bind; [apply quiet_redis_get|]. intros v.
  apply quiet_bind; [|intros _; exact IH].
  destruct (opt_truthy v); [apply quiet_send_to_client | apply quiet_ret].
Qed.

Lemma subscribe_symbols_quiet c symbols s :
  w_faults (sys_world s) = [] ->
  is_Some (subscriptions (sys_manager s) !! c) ->
  sys_manager (snd (subscribe_symbols c symbols s))
    = fold_left (subscribe_one c) symbols (sys_manager s) /\
  w_faults (sys_world (snd (subscribe_symbols c symbols s))) = [].
Proof.
  intros H [syms Hs]. unfold subscribe_symbols, bind, get_manager. rewrite Hs.
  simpl. apply (quiet_send_cached c symbols
    {| sys_manager := fold_left (subscribe_one c) symbols (sys_manager s);
       sys_world := sys_world s |} H).
Qed.


Lemma scenario_first_subscribed x y symbol wx wy :
  x <> y -> str_truthy (strip (upper symbol)) = true ->
  let m := first_subscribed x y symbol wx wy in
  symbol_subscribers m = {[strip (upper symbol) := {[x]}]} /\
  update_tasks m = {[strip (upper symbol) := 0%nat]} /\
  tasks_created m = 1%nat /\ tasks_cancelled m = [] /\
  is_Some (subscriptions m !! y).
Proof.
  intros distinct nonempty m. unfold m, first_subscribed, both_connected, subscribe_one.
  rewrite nonempty. simpl.
  rewrite lookup_empty, union_empty_l_L, size_singleton. simpl.
  repeat split; try reflexivity.
  - now rewrite union_empty_l_L, insert_empty.
  - rewrite (lookup_insert_ne _ y x) by congruence. rewrite lookup_insert_eq.
    rewrite lookup_insert_ne by congruence. rewrite lookup_insert_eq. eauto.
Qed.

Lemma scenario_both_subscribed x y symbol wx wy :
  x <> y -> str_truthy (strip (upper symbol)) = true ->
  let m := both_subscribed x y symbol wx wy in
  symbol_subscribers m = {[strip (upper symbol) := {[x; y]}]} /\
  update_tasks m = {[strip (upper symbol) := 0%nat]} /\
  tasks_created m = 1%nat /\ tasks_cancelled m = [].
Proof.
  intros distinct nonempty m.
  destruct (scenario_first_subscribed x y symbol wx wy distinct nonempty)
    as (Hs & Ht & Hc & Hx & _).
  unfold m, both_subscribed, subscribe_one. rewrite nonempty, Hs, Ht, Hc, Hx.
  rewrite lookup_singleton_eq.
  assert (E : size ({[x]} ∪ {[y]} : gset string) = 2%nat).
  { rewrite size_union by set_solver. now rewrite !size_singleton. }
  rewrite E. simpl. repeat split; try reflexivity.
  apply insert_singleton_eq.
Qed.

Lemma scenario_first_left x y symbol wx wy :
  x <> y -> str_truthy (strip (upper symbol)) = true ->
  upper symbol = strip (upper symbol) ->
  let m := first_left x y symbol wx wy in
  symbol_subscribers m = {[strip (upper symbol) := {[y]}]} /\
  update_tasks m = {[strip (upper symbol) := 0%nat]} /\
  tasks_created m = 1%nat /\ tasks_cancelled m = [].
Proof.
  intros distinct nonempty stripped m.
  destruct (scenario_both_subscribed x y symbol wx wy distinct nonempty)
    as (Hs & Ht & Hc & Hx).
  set (n := strip (upper symbol)) in *.
  unfold m, first_left, unsubscribe_symbol. rewrite Hc, Hx, stripped, Hs, Ht.
  rewrite lookup_singleton_eq.
  assert (E : ({[x; y]} ∖ {[x]} : gset string) = {[y]}) by set_solver.
  rewrite E. destruct (decide ({[y]} = (∅ : gset string))) as [Hbad|_]; [set_solver|].
  simpl. repeat split; try reflexivity.
  apply insert_singleton_eq.
Qed.

Lemma scenario_both_left x y symbol wx wy :
  x <> y -> str_truthy (strip (upper symbol)) = true ->
  upper symbol = strip (upper symbol) ->
  let m := both_left x y symbol wx wy in
  symbol_subscribers m = ∅ /\ update_tasks m = ∅ /\
  tasks_created m = 1%nat /\ tasks_cancelled m = [0%nat].
Proof.
  intros distinct nonempty stripped m.
  destruct (scenario_first_left x y symbol wx wy distinct nonempty stripped)
    as (Hs & Ht & Hc & Hx).
  set (n := strip (upper symbol)) in *.
  unfold m, both_left, unsubscribe_symbol. rewrite Hc, Hx, stripped, Hs, Ht.
  rewrite !lookup_singleton_eq.
  assert (E : ({[y]} ∖ {[y]} : gset string) = ∅) by set_solver.
  rewrite E. destruct (decide ((∅ : gset string) = ∅)) as [_|Hbad]; [|congruence].
  simpl. repeat split; try reflexivity; apply delete_singleton_eq.
Qed.

(** C1.  After any sequence of connect, disconnect, subscribe, unsubscribe
    and poll-iteration operations on a fresh manager, in any world, a poll
    task is registered for a symbol exactly when the symbol has a non-empty
    subscriber set.  In particular, when no send fails: two distinct
    clients subscribing to one symbol (written without surrounding blanks)
    leave one registered task, the only one ever created; after the first
    unsubscribes the task is still registered and nothing was cancelled;
    after the second unsubscribes no task is registered and that task was
    cancelled. *)
Theorem C1_poll_task_iff_subscribers :
  (forall (ops : list Op) (w : World) (symbol : string),
     let m := sys_manager (run ops (mkSystem init w)) in
     task_registered symbol m <-> subscribed symbol m)
  /\
  (forall (w : World) (x y symbol : string) (wx wy : nat),
     w_faults w = [] ->
     x <> y ->
     str_truthy (strip (upper symbol)) = true ->
     upper symbol = strip (upper symbol) ->
     let n := strip (upper symbol) in
     let s2 := run [OpConnect wx x; OpConnect wy y;
                    OpSubscribe x [symbol]; OpSubscribe y [symbol]]
                   (mkSystem init w) in
     let s3 := step s2 (OpUnsubscribe x symbol) in
     let s4 := step s3 (OpUnsubscribe y symbol) in
     (update_tasks (sys_manager s2) = {[n := 0%nat]} /\
      tasks_created (sys_manager s2) = 1%nat) /\
     (update_tasks (sys_manager s3) = {[n := 0%nat]} /\
      tasks_cancelled (sys_manager s3) = []) /\
     (update_tasks (sys_manager s4) = ∅ /\
      tasks_created (sys_manager s4) = 1%nat /\
      tasks_cancelled (sys_manager s4) = [0%nat])).
Proof.
  split.
  - intros ops w symbol m. apply lifecycle_inv_run. apply lifecycle_inv_init.
  - intros w x y symbol wx wy Hf Hxy Hn Hu n s2 s3 s4.
    pose proof (scenario_first_subscribed x y symbol wx wy Hxy Hn) as (_ & _ & _ & _ & Hy).
    pose proof (scenario_both_subscribed x y symbol wx wy Hxy Hn) as (_ & Ht2 & Hc2 & _).
    pose proof (scenario_first_left x y symbol wx wy Hxy Hn Hu) as (_ & Ht3 & _ & Hx3).
    pose proof (scenario_both_left x y symbol wx wy Hxy Hn Hu) as (_ & Ht4 & Hc4 & Hx4).
    set (sA := mkSystem (both_connected x y wx wy) w).
    assert (HA : is_Some (subscriptions (sys_manager sA) !! x)).
    { simpl. rewrite lookup_insert_ne by congruence. rewrite lookup_insert_eq. eauto. }
    destruct (subscribe_symbols_quiet x [symbol] sA Hf HA) as [HmB HfB].
    set (sB := snd (subscribe_symbols x [symbol] sA)) in *.
    simpl in HmB.
    assert (HB : is_Some (subscriptions (sys_manager sB) !! y)) by (rewrite HmB; exact Hy).
    destruct (subscribe_symbols_quiet y [symbol] sB HfB HB) as [HmC _].
    assert (E2 : sys_manager s2 = both_subscribed x y symbol wx wy).
    { change (sys_manager s2)
        with (sys_manager (snd (subscribe_symbols y [symbol] sB))).
      rewrite HmC. simpl. now rewrite HmB. }
    assert (E3 : sys_manager s3 = first_left x y symbol wx wy).
    { unfold first_left. now rewrite <- E2. }
    assert (E4 : sys_manager s4 = both_left x y symbol wx wy).
    { unfold both_left. now rewrite <- E3. }
    rewrite E4, E3, E2. auto 10.
Qed.

Lemma C1_poll_task_iff_subscribers_witness :
  let s2 := run [OpConnect 1 "X"; OpConnect 2 "Y";
                 OpSubscribe "X" ["xyz"]; OpSubscribe "Y" ["xyz"]]
                (mkSystem init (sample_world [] [] abc_provider wednesday_noon)) in
  let s3 := step s2 (OpUnsubscribe "X" "xyz") in
  let s4 := step s3 (OpUnsubscribe "Y" "xyz") in
  (update_tasks (sys_manager s2) = {["XYZ" := 0%nat]} /\
   tasks_created (sys_manager s2) = 1%nat) /\
  (update_tasks (sys_manager s3) = {["XYZ" := 0%nat]} /\
   tasks_cancelled (sys_manager s3) = []) /\
  (update_tasks (sys_manager s4) = ∅ /\
   tasks_created (sys_manager s4) = 1%nat /\
   tasks_cancelled (sys_manager s4) = [0%nat]).
Proof.
  apply (proj2 C1_poll_task_iff_subscribers
           (sample_world [] [] abc_provider wednesday_noon) "X" "Y" "xyz" 1%nat 2%nat).
  - reflexivity.
  - discriminate.
  - reflexivity.
  - reflexivity.
Defined.

(** ** The store: upsert *)

Lemma same_key_iff p b : same_key p b = true <-> bar_key b = bar_key p.
Proof.
  unfold same_key, bar_key. rewrite andb_true_iff, String.eqb_eq, Z.eqb_eq.
  split; [intros [-> ->]; reflexivity | intros [= -> ->]; auto].
Qed.

Lemma same_key_refl p : same_key p p = true.
Proof. now apply same_key_iff. Qed.

Lemma conflicts_same_key p r : conflicts p r = same_key p (bar_of r).
Proof. reflexivity. Qed.

Lemma put_key p b : bar_key (put p b) = bar_key b.
Proof.
  unfold put. destruct (same_key p b) eqn:E; [|reflexivity].
  symmetry. now apply same_key_iff.
Qed.

Lemma same_key_put q p b : same_key q (put p b) = same_key q b.
Proof.
  destruct (same_key q b) eqn:E.
  - apply same_key_iff. rewrite put_key. now apply same_key_iff.
  - destruct (same_key q (put p b)) eqn:E'; [|reflexivity].
    apply same_key_iff in E'. rewrite put_key in E'.
    apply same_key_iff in E'. congruence.
Qed.

Lemma put_all_key ps b : bar_key (put_all ps b) = bar_key b.
Proof.
  revert b. induction ps as [|p ps IH]; intros b; simpl; [reflexivity|].
  unfold put_all in IH. now rewrite IH, put_key.
Qed.

Lemma existsb_conflicts p t :
  existsb (conflicts p) t = existsb (same_key p) (map bar_of t).
Proof. induction t as [|r t IH]; simpl; [reflexivity | now rewrite IH]. Qed.

Lemma bar_of_upsert_row now t p :
  map bar_of (upsert_row now t p) = upsert_bar (map bar_of t) p.
Proof.
  unfold upsert_row, upsert_bar.
  rewrite <- existsb_conflicts.
  destruct (existsb _ t) eqn:E.
  - rewrite !map_map. apply map_ext. intros r. unfold put.
    rewrite conflicts_same_key.
    destruct (same_key p (bar_of r)) eqn:K; [|reflexivity].
    apply same_key_iff in K. unfold bar_key in K. simpl in K.
    injection K as K1 K2. unfold bar_of. simpl. rewrite K1, K2. now destruct p.
  - rewrite map_app. simpl. unfold bar_of. simpl. now destruct p.
Qed.

Lemma bar_of_upsert_rows now ps t :
  map bar_of (upsert_rows now ps t) = fold_left upsert_bar ps (map bar_of t).
Proof.
  unfold upsert_rows.
  revert t. induction ps as [|p ps IH]; intros t; simpl; [reflexivity|].
  now rewrite IH, bar_of_upsert_row.
Qed.

Lemma existsb_same_key p t :
  existsb (same_key p) t = true <-> exists b, In b t /\ bar_key b = bar_key p.
Proof.
  rewrite existsb_exists. split; intros (b & Hb & K); exists b; split; auto;
    now apply same_key_iff.
Qed.

(** Keys already present are updated in place. *)
Lemma upsert_in_place ps t :
  (forall p, In p ps -> exists b, In b t /\ bar_key b = bar_key p) ->
  fold_left upsert_bar ps t = map (put_all ps) t.
Proof.
  revert t. induction ps as [|p ps IH]; intros t H; simpl.
  - now rewrite map_id.
  - assert (E : existsb (same_key p) t = true).
    { apply existsb_same_key. apply H. now left. }
    unfold upsert_bar at 2. rewrite E. rewrite IH.
    + rewrite map_map. reflexivity.
    + intros q Hq. destruct (H q (or_intror Hq)) as (b & Hb & K).
      exists (put p b). split; [now apply in_map|]. now rewrite put_key.
Qed.

Lemma upsert_bar_keeps_keys t p b :
  In b t -> exists b', In b' (upsert_bar t p) /\ bar_key b' = bar_key b.
Proof.
  intros Hb. unfold upsert_bar. destruct (existsb _ t).
  - exists (put p b). split; [now apply in_map | apply put_key].
  - exists b. split; [apply in_or_app; now left | reflexivity].
Qed.

Lemma upsert_bar_has_key t p :
  exists b, In b (upsert_bar t p) /\ bar_key b = bar_key p.
Proof.
  unfold upsert_bar. destruct (existsb _ t) eqn:E.
  - apply existsb_same_key in E. destruct E as (b & Hb & K).
    exists (put p b). split; [now apply in_map | now rewrite put_key].
  - exists p. split; [apply in_or_app; right; now left | reflexivity].
Qed.

Lemma fold_upsert_keeps_keys ps t b :
  In b t -> exists b', In b' (fold_left upsert_bar ps t) /\ bar_key b' = bar_key b.
Proof.
  revert t b. induction ps as [|p ps IH]; intros t b Hb; simpl; [eauto|].
  destruct (upsert_bar_keeps_keys t p b Hb) as (b1 & H1 & K1).
  destruct (IH _ _ H1) as (b2 & H2 & K2). exists b2. split; [exact H2 | congruence].
Qed.

Lemma fold_upsert_covers ps t p :
  In p ps -> exists b, In b (fold_left upsert_bar ps t) /\ bar_key b = bar_key p.
Proof.
  revert t. induction ps as [|q ps IH]; intros t Hp; simpl; [destruct Hp|].
  destruct Hp as [->|Hp]; [|now apply IH].
  destruct (upsert_bar_has_key t p) as (b & Hb & K).
  destruct (fold_upsert_keeps_keys ps _ b Hb) as (b' & Hb' & K').
  exists b'. split; [exact Hb' | congruence].
Qed.

Lemma put_all_snoc ps p b : put_all (ps ++ [p]) b = put p (put_all ps b).
Proof. unfold put_all. now rewrite fold_left_app. Qed.

(** After the batch every row is the one the batch leaves for its key. *)
Lemma fold_upsert_settled ps t b :
  In b (fold_left upsert_bar ps t) -> put_all ps b = b.
Proof.
  revert b. induction ps as [|p ps IH] using rev_ind; intros b Hb; [reflexivity|].
  rewrite put_all_snoc. rewrite fold_left_app in Hb. simpl in Hb.
  set (t' := fold_left upsert_bar ps t) in *.
  unfold upsert_bar in Hb.
  destruct (existsb (same_key p) t') eqn:E.
  - apply in_map_iff in Hb. destruct Hb as (b0 & <- & Hb0).
    assert (P : put p b0 = if same_key p b0 then p else b0) by reflexivity.
    rewrite P. destruct (same_key p b0) eqn:K.
    + assert (K' : same_key p (put_all ps p) = true).
      { apply same_key_iff. apply put_all_key. }
      unfold put. now rewrite K'.
    + rewrite (IH _ Hb0). unfold put. now rewrite K.
  - apply in_app_or in Hb. destruct Hb as [Hb|[<-|[]]].
    + rewrite (IH _ Hb). unfold put.
      assert (K : same_key p b = false).
      { destruct (same_key p b) eqn:K; [|reflexivity].
        assert (existsb (same_key p) t' = true)
          by (apply existsb_exists; eauto). congruence. }
      now rewrite K.
    + unfold put. 
      assert (K' : same_key p (put_all ps p) = true).
      { apply same_key_iff. apply put_all_key. }
      now rewrite K'.
Qed.

Lemma upsert_bars_idempotent ps t :
  fold_left upsert_bar ps (fold_left upsert_bar ps t) = fold_left upsert_bar ps t.
Proof.
  rewrite upsert_in_place.
  - rewrite <- (map_id (fold_left upsert_bar ps t)) at 2.
    apply map_ext_in. intros b Hb. now apply (fold_upsert_settled ps t).
  - intros p Hp. now apply fold_upsert_covers.
Qed.

Lemma upsert_bar_nodup t p :
  NoDup (map bar_key t) -> NoDup (map bar_key (upsert_bar t p)).
Proof.
  intros H. unfold upsert_bar. destruct (existsb _ t) eqn:E.
  - rewrite map_map. erewrite map_ext; [exact H|]. intros b. apply put_key.
  - rewrite map_app. simpl. apply NoDup_app. split; [exact H|]. split.
    + intros k Hk Hp. apply list_elem_of_singleton in Hp. subst k.
      apply list_elem_of_In, in_map_iff in Hk. destruct Hk as (b & K & Hb).
      assert (existsb (same_key p) t = true) by (apply existsb_same_key; eauto).
      congruence.
    + apply NoDup_singleton.
Qed.

Lemma fold_upsert_nodup ps t :
  NoDup (map bar_key t) -> NoDup (map bar_key (fold_left upsert_bar ps t)).
Proof.
  revert t. induction ps as [|p ps IH]; intros t H; simpl; [exact H|].
  apply IH. now apply upsert_bar_nodup.
Qed.


(** ** Runs without transport failures *)

Lemma db_call_quiet {A} (run : World -> A * World) w :
  w_faults w = [] -> db_call run w = (Returned (fst (run w)), snd (run w)).
Proof.
  intros H. unfold db_call, bind. rewrite (next_fault_quiet w H).
  now destruct (run w).
Qed.

(** Building the parameter sets neither reads nor changes the world. *)
Lemma prepare_insert_data_pure symbol data :
  exists r, forall w, prepare_insert_data symbol data w = (r, w).
Proof.
  induction data as [|row rest [r IH]]; simpl.
  - now exists (Returned []).
  - unfold bind, bar_params, bind, int_or_none.
    destruct (isnan (r_volume row)).
    + destruct r as [ps|e].
      * eexists. intros w. unfold ret. rewrite IH. reflexivity.
      * eexists. intros w. unfold ret. rewrite IH. reflexivity.
    + destruct (int_of_float (r_volume row)).
      * destruct r as [ps|e]; eexists; intros w; unfold ret; rewrite IH; reflexivity.
      * eexists. intros w. reflexivity.
Qed.

(** What the write leaves in the table when no statement fails. *)
Lemma store_history_table symbol data :
  exists r, (forall w, prepare_insert_data symbol data w = (r, w)) /\
    forall w, w_faults w = [] -> w_txn_base w = None ->
      let w' := snd (_store_history_to_db symbol data w) in
      fst (_store_history_to_db symbol data w) = Returned tt /\
      w_faults w' = [] /\ w_txn_base w' = None /\ w_log w' = w_log w /\
      w_history w' =
        match r with
        | Returned (p :: ps) => upsert_rows (w_sql_now w) (p :: ps) (w_history w)
        | _ => w_history w
        end.
Proof.
  destruct (prepare_insert_data_pure symbol data) as [r Hr].
  exists r. split; [exact Hr|]. intros w Hf Hb.
  unfold _store_history_to_db, try_except, bind. rewrite Hr.
  destruct r as [[|p ps]|e].
  - simpl. auto.
  - unfold sql_now, db_write, db_commit.
    rewrite (db_call_quiet _ w Hf). cbn.
    rewrite db_call_quiet by exact Hf. cbn. auto.
  - unfold db_rollback. rewrite (db_call_quiet _ w Hf). cbn. rewrite Hb. auto.
Qed.


(** C3.  Writing the same provider frame for the same symbol a second
    time, on the table the first write left (at whatever later database
    time, no statement failing), leaves the same bars: the same rows in the
    same order with the same open, high, low, close and volume, hence the
    same row count; and a table with one row per (symbol, date) still has
    one row per key. *)
Theorem C3_upsert_idempotent (symbol : string) (data : DataFrame) (w1 w2 : World) :
  w_faults w1 = [] -> w_txn_base w1 = None ->
  let once := snd (_store_history_to_db symbol data w1) in
  w_faults w2 = [] -> w_txn_base w2 = None ->
  w_history w2 = w_history once ->
  let twice := snd (_store_history_to_db symbol data w2) in
  bars twice = bars once /\
  length (w_history twice) = length (w_history once) /\
  (NoDup (map bar_key (bars w1)) -> NoDup (map bar_key (bars twice))).
Proof.
  intros Hf1 Hb1 once Hf2 Hb2 Hh twice.
  destruct (store_history_table symbol data) as (r & _ & H).
  destruct (H w1 Hf1 Hb1) as (_ & _ & _ & _ & E1).
  destruct (H w2 Hf2 Hb2) as (_ & _ & _ & _ & E2).
  fold once in E1. fold twice in E2.
  assert (B : bars twice = bars once).
  { unfold bars. rewrite E2, Hh. destruct r as [[|p ps]|e]; try reflexivity.
    rewrite E1, !bar_of_upsert_rows. apply upsert_bars_idempotent. }
  split; [exact B|]. split.
  - unfold bars in B. apply (f_equal (@length _)) in B.
    now rewrite !length_map in B.
  - intros N. rewrite B. unfold bars. rewrite E1.
    destruct r as [[|p ps]|e]; try exact N.
    rewrite bar_of_upsert_rows. now apply fold_upsert_nodup.
Qed.

Lemma C3_upsert_idempotent_witness :
  let w1 := sample_world [abc_stock] [abc_bar 739922] abc_provider wednesday_noon in
  let once := snd (_store_history_to_db "abc" mixed_frame w1) in
  let twice := snd (_store_history_to_db "abc" mixed_frame
                      (with_sql_now 2 once)) in
  bars twice = bars once /\
  length (w_history twice) = length (w_history once) /\
  (NoDup (map bar_key (bars w1)) -> NoDup (map bar_key (bars twice))).
Proof.
  intros w1 once twice.
  apply (C3_upsert_idempotent "abc" mixed_frame w1 (with_sql_now 2 once));
    reflexivity.
Defined.

Lemma redis_get_quiet key w :
  w_faults w = [] -> redis_get key w = (Returned (cached_value key w), w).
Proof.
  intros H. unfold redis_get, cached_value.
  destruct (w_redis_up w); simpl; [|reflexivity].
  unfold bind. now rewrite (next_fault_quiet w H).
Qed.

(** On a value made of dictionaries, lists, strings, numbers, booleans and
    [None], writing it as JSON and reading it back gives the value. *)
Lemma json_wire_like v : json_like v = true -> json_wire v = v.
Proof.
  revert v. fix IH 1. intros [| b | z | f | s | iso | l | d | its text | rows text] H;
    try reflexivity; try discriminate H; simpl in *.
  - f_equal. induction l as [|x l IHl]; [reflexivity|].
    simpl in H. apply andb_true_iff in H as [Hx Hl].
    simpl. now rewrite (IH x Hx), (IHl Hl).
  - f_equal. induction d as [|[k x] d IHd]; [reflexivity|].
    simpl in H. apply andb_true_iff in H as [Hx Hd].
    simpl. now rewrite (IH x Hx), (IHd Hd).
Qed.

Lemma history_entry_like row : json_like (history_entry row) = true.
Proof.
  unfold history_entry. cbn.
  now destruct (h_open row), (h_high row), (h_low row), (h_close row), (h_volume row).
Qed.

(** The history response is made of such values: the cache gives it back
    as it was written. *)
Lemma history_response_wire rows need ts period :
  json_wire (history_response (map history_entry rows) need ts period)
  = history_response (map history_entry rows) need ts period.
Proof.
  apply json_wire_like. unfold history_response.
  cbn [json_like forallb snd]. rewrite !andb_true_r.
  induction rows as [|row rows IH]; [reflexivity|].
  cbn [map forallb]. now rewrite history_entry_like, IH.
Qed.

Lemma redis_set_quiet key value ttl w :
  w_faults w = [] ->
  redis_set key value ttl w =
    (Returned (w_redis_up w),
     if w_redis_up w
     then set_cache (<[key := (json_wire value, ttl)]> (w_cache w))
                    (add_log (EvCacheSet key value ttl) w)
     else add_log (EvCacheSet key value ttl) w).
Proof.
  intros H. unfold redis_set. cbn.
  destruct (w_redis_up w); cbn; [|reflexivity].
  unfold bind, next_fault. cbn. now rewrite H.
Qed.

Lemma set_table_same w :
  w_txn_base w = None -> set_table (w_history w) None w = w.
Proof. destruct w; simpl; intros ->; reflexivity. Qed.

Lemma store_history_world symbol data w :
  w_faults w = [] -> w_txn_base w = None ->
  exists table,
    _store_history_to_db symbol data w = (Returned tt, set_table table None w).
Proof.
  intros Hf Hb.
  destruct (prepare_insert_data_pure symbol data) as [r Hr].
  unfold _store_history_to_db, try_except, bind. rewrite Hr.
  destruct r as [[|p ps]|e].
  - exists (w_history w). unfold ret. now rewrite set_table_same.
  - unfold sql_now, db_write, db_commit.
    rewrite (db_call_quiet _ w Hf). cbn.
    rewrite db_call_quiet by exact Hf. cbn. eauto.
  - unfold db_rollback. rewrite (db_call_quiet _ w Hf). cbn. rewrite Hb. eauto.
Qed.

Lemma fetch_and_store_quiet yahoo symbol start w :
  w_faults w = [] -> w_txn_base w = None ->
  exists table,
    _fetch_and_store_history yahoo symbol start w =
      (Returned tt,
       set_table table None
         (add_log (EvHistory yahoo (fetch_request start (w_today w))) w)).
Proof.
  intros Hf Hb.
  set (w1 := add_log (EvHistory yahoo (fetch_request start (w_today w))) w).
  assert (Hf1 : w_faults w1 = []) by exact Hf.
  assert (Hb1 : w_txn_base w1 = None) by exact Hb.
  assert (E : forall k : DataFrame -> M unit,
     bind (match start with
           | Some s => bind date_today (fun today => ticker_history yahoo (ReqRange s (today + 1)))
           | None => ticker_history yahoo (ReqPeriod "max")
           end) k w =
     match w_provider w yahoo (fetch_request start (w_today w)) with
     | Some df => k df w1
     | None => (Raised provider_error, w1)
     end).
  { intros k. unfold bind, date_today, ticker_history, fetch_request.
    destruct start; cbn; destruct (w_provider w yahoo _); reflexivity. }
  unfold _fetch_and_store_history, try_except. rewrite E.
  destruct (w_provider w yahoo _) as [df|].
  - destruct (df_empty df); simpl.
    + exists (w_history w1). unfold ret. now rewrite (set_table_same w1 Hb1).
    + destruct (store_history_world symbol df w1 Hf1 Hb1) as [table ->]. eauto.
  - exists (w_history w1). unfold ret. now rewrite (set_table_same w1 Hb1).
Qed.

Lemma get_yahoo_symbol_quiet symbol w :
  w_faults w = [] ->
  _get_yahoo_symbol symbol w =
    (Returned (match stock_of symbol w with
               | Some s => s_yahoo_symbol s
               | None => None
               end), w).
Proof.
  intros Hf. unfold _get_yahoo_symbol, try_except, bind, db_select_stock.
  now rewrite (db_call_quiet _ w Hf).
Qed.

Lemma get_latest_date_quiet symbol w :
  w_faults w = [] ->
  _get_latest_date_in_db symbol w = (Returned (h_date <$> latest_bar symbol w), w).
Proof.
  intros Hf. unfold _get_latest_date_in_db, try_except, bind, db_select_latest.
  rewrite (db_call_quiet _ w Hf). unfold latest_bar. simpl.
  now destruct (latest_row _ _).
Qed.

Lemma get_history_from_db_quiet symbol start stop w :
  w_faults w = [] ->
  _get_history_from_db symbol start stop w =
    (Returned (map history_entry
                 (sort_by_date (List.filter (in_window (upper symbol) start stop)
                                            (w_history w)))), w).
Proof.
  intros Hf. unfold _get_history_from_db, try_except, bind, db_select_window.
  now rewrite (db_call_quiet _ w Hf).
Qed.

(** [get_history] when no Redis or database call fails, the cache has
    nothing for the key and the stock is known. *)
Lemma get_history_quiet symbol period w stock yahoo :
  w_faults w = [] -> w_txn_base w = None ->
  opt_truthy (cached_value (history_key symbol period) w) = false ->
  stock_of symbol w = Some stock ->
  s_yahoo_symbol stock = Some yahoo ->
  str_truthy yahoo = true ->
  let plan := fetch_plan (h_date <$> latest_bar symbol w) (w_today w) in
  exists table w',
    get_history symbol period w =
      (Returned (history_response
                   (map history_entry
                      (sort_by_date
                         (List.filter
                            (in_window (upper symbol)
                               (fst (period_dates (w_today w) period))
                               (Some (snd (period_dates (w_today w) period))))
                            table)))
                   (fst plan) (w_now_iso w) period), w') /\
    w_history w' = table /\
    (fst plan = false -> table = w_history w) /\
    history_requests w' =
      (history_requests w ++
       (if fst plan then [(yahoo, fetch_request (snd plan) (w_today w))] else []))%list.
Proof.
  intros Hf Hb Hmiss Hs Hy Hty plan.
  unfold get_history, try_except, bind at 1.
  rewrite (redis_get_quiet _ w Hf), Hmiss.
  unfold get_history_uncached, bind at 1.
  rewrite (get_yahoo_symbol_quiet symbol w Hf), Hs, Hy, Hty.
  unfold bind at 1. unfold _get_period_dates, bind at 1, date_today, ret.
  destruct (period_dates (w_today w) period) as [start_date end_date] eqn:Ew.
  unfold bind at 1. rewrite (get_latest_date_quiet symbol w Hf).
  unfold bind at 1. fold plan.
  destruct plan as [need_fetch fetch_start] eqn:Ep. simpl fst. simpl snd.
  destruct need_fetch.
  - unfold bind at 1.
    destruct (fetch_and_store_quiet yahoo symbol fetch_start w Hf Hb) as [table ->].
    unfold bind at 1. rewrite get_history_from_db_quiet by exact Hf.
    unfold bind at 1, now_isoformat. unfold bind.
    rewrite redis_set_quiet by exact Hf. unfold ret.
    eexists _, _. split; [reflexivity|].
    split; [cbn; now destruct (w_redis_up w)|]. split; [discriminate|].
    unfold history_requests. cbn.
    destruct (w_redis_up w); cbn; rewrite !flat_map_app; cbn; now rewrite app_nil_r.
  - unfold bind at 1, ret.
    unfold bind at 1. rewrite get_history_from_db_quiet by exact Hf.
    unfold bind at 1, now_isoformat. unfold bind.
    rewrite redis_set_quiet by exact Hf.
    eexists _, _. split; [reflexivity|].
    split; [cbn; now destruct (w_redis_up w)|]. split; [reflexivity|].
    unfold history_requests. cbn.
    destruct (w_redis_up w); cbn; rewrite !flat_map_app; cbn; now rewrite !app_nil_r.
Qed.

(** ** Gap-fill *)

Lemma latest_row_none sym rows :
  (forall r, In r rows -> h_symbol r <> sym) -> latest_row sym rows = None.
Proof.
  induction rows as [|r rows IH]; intros H; simpl; [reflexivity|].
  destruct (String.eqb (h_symbol r) sym) eqn:E.
  - apply String.eqb_eq in E. exfalso. apply (H r); [now left | exact E].
  - apply IH. intros r' Hr'. apply H. now right.
Qed.

Lemma latest_row_none_inv sym rows :
  latest_row sym rows = None -> forall r, In r rows -> h_symbol r <> sym.
Proof.
  induction rows as [|x rows IH]; simpl; intros L r Hr; [destruct Hr|].
  destruct (String.eqb (h_symbol x) sym) eqn:E.
  - destruct (latest_row sym rows) as [m|]; [destruct (_ <? _)|]; discriminate.
  - destruct Hr as [<-|Hr]; [|now apply IH].
    intros Hx. rewrite Hx, String.eqb_refl in E. discriminate.
Qed.

Lemma latest_row_max sym rows r :
  latest_row sym rows = Some r ->
  In r rows /\ h_symbol r = sym /\
  forall r', In r' rows -> h_symbol r' = sym -> h_date r' <= h_date r.
Proof.
  revert r. induction rows as [|x rows IH]; intros r; simpl; [discriminate|].
  destruct (String.eqb (h_symbol x) sym) eqn:E.
  - apply String.eqb_eq in E.
    destruct (latest_row sym rows) as [m|] eqn:L.
    + destruct (IH m eq_refl) as (Hin & Hs & Hmax).
      destruct (h_date x <? h_date m) eqn:C; intros [= <-].
      * apply Z.ltb_lt in C. split; [now right|]. split; [exact Hs|].
        intros r' [<-|Hr'] Hs'; [lia | now apply Hmax].
      * apply Z.ltb_ge in C. split; [now left|]. split; [exact E|].
        intros r' [<-|Hr'] Hs'; [lia|]. specialize (Hmax r' Hr' Hs'). lia.
    + intros [= <-]. split; [now left|]. split; [exact E|].
      intros r' [<-|Hr'] Hs'; [lia|].
      exfalso. now apply (latest_row_none_inv _ _ L r' Hr').
  - intros L. destruct (IH r L) as (Hin & Hs & Hmax).
    split; [now right|]. split; [exact Hs|].
    intros r' [<-|Hr'] Hs'; [|now apply Hmax].
    rewrite Hs', String.eqb_refl in E. discriminate.
Qed.

Lemma latest_row_of_latest_date symbol w D :
  latest_date_is symbol w D -> h_date <$> latest_bar symbol w = Some D.
Proof.
  intros [(r & Hin & Hs & Hd) Hmax]. unfold latest_bar.
  destruct (latest_row (upper symbol) (w_history w)) as [m|] eqn:L.
  - destruct (latest_row_max _ _ _ L) as (Hin' & Hs' & Hmax').
    simpl. f_equal. specialize (Hmax m Hin' Hs'). specialize (Hmax' r Hin Hs). lia.
  - exfalso. now apply (latest_row_none_inv _ _ L r Hin).
Qed.

(** C2.  In a run of get_history that reaches the synchronizer (no Redis
    or database call fails, the cache has nothing for the key, the stock
    has a Yahoo symbol): when the latest stored date D of the symbol is
    before today minus one day, exactly one provider request is made, for
    the window from D + 1 to today + 1, which starts after D; when the
    store has no row for the symbol, exactly one request is made, for the
    whole history (period "max", no start bound); when D is today minus one
    day or later, no request is made and the table is left as it was. *)
Theorem C2_gap_fill_minimal (symbol period : string) (w : World)
    (stock : Stock) (yahoo : string) :
  w_faults w = [] -> w_txn_base w = None ->
  opt_truthy (cached_value (history_key symbol period) w) = false ->
  stock_of symbol w = Some stock ->
  s_yahoo_symbol stock = Some yahoo ->
  str_truthy yahoo = true ->
  let after := snd (get_history symbol period w) in
  let today := w_today w in
  (forall D, latest_date_is symbol w D -> D < today - 1 ->
     history_requests after =
       (history_requests w ++ [(yahoo, ReqRange (D + 1) (today + 1))])%list /\
     D < D + 1) /\
  (no_rows_for symbol w ->
     history_requests after =
       (history_requests w ++ [(yahoo, ReqPeriod "max")])%list) /\
  (forall D, latest_date_is symbol w D -> today - 1 <= D ->
     history_requests after = history_requests w /\
     w_history after = w_history w).
Proof.
  intros Hf Hb Hmiss Hs Hy Hty after today.
  destruct (get_history_quiet symbol period w stock yahoo Hf Hb Hmiss Hs Hy Hty)
    as (table & w' & E & Ht & Hsame & Hreq).
  assert (A : after = w') by (unfold after; now rewrite E).
  rewrite A. clear A after E. fold today in Hreq, Hsame.
  split; [|split].
  - intros D HD Hlt. apply latest_row_of_latest_date in HD.
    rewrite HD in Hreq. unfold fetch_plan in Hreq. simpl in Hreq.
    apply Z.ltb_lt in Hlt. rewrite Hlt in Hreq. simpl in Hreq.
    split; [exact Hreq | lia].
  - intros Hnone. unfold latest_bar in Hreq.
    rewrite (latest_row_none _ _ Hnone) in Hreq. exact Hreq.
  - intros D HD Hge. apply latest_row_of_latest_date in HD.
    rewrite HD in Hreq, Hsame. unfold fetch_plan in Hreq, Hsame. simpl in Hreq, Hsame.
    apply Z.ltb_ge in Hge. rewrite Hge in Hreq, Hsame. simpl in Hreq, Hsame.
    rewrite app_nil_r in Hreq. split; [exact Hreq|]. rewrite Ht. now apply Hsame.
Qed.

Lemma C2_gap_fill_minimal_witness :
  history_requests
    (snd (get_history "abc" "6M"
            (sample_world [abc_stock] [abc_bar 739914] failing_provider wednesday_noon)))
  = [("ABC.NS", ReqRange 739915 739925)] /\ 739914 < 739914 + 1.
Proof.
  apply (proj1 (C2_gap_fill_minimal "abc" "6M"
           (sample_world [abc_stock] [abc_bar 739914] failing_provider wednesday_noon)
           abc_stock "ABC.NS" eq_refl eq_refl eq_refl eq_refl eq_refl eq_refl) 739914).
  - split.
    + exists (abc_bar 739914). repeat split. now left.
    + intros r [<-|[]] _. simpl. lia.
  - simpl. lia.
Defined.

(** ** Structured results *)

(** A [try]/[except] whose handler returns always returns. *)
Lemma try_except_returns {S A} (body : ST S A) (handler : exn -> ST S A) :
  (forall e s, exists a s', handler e s = (Returned a, s')) ->
  forall s, exists a s', try_except body handler s = (Returned a, s').
Proof.
  intros H s. unfold try_except.
  destruct (body s) as [[a|e] s']; [eauto | apply H].
Qed.

Lemma history_error_returns period msg w :
  exists v, history_error period msg w = (Returned v, w) /\ error_result v.
Proof.
  unfold history_error, bind, now_isoformat, ret. eexists. split; [reflexivity|].
  unfold error_result. simpl. eauto.
Qed.


Lemma get_quote_returns symbol w :
  exists r w', get_quote symbol w = (Returned r, w').
Proof.
  unfold get_quote. apply try_except_returns. intros e s. unfold ret. eauto.
Qed.


(** What the uncached path can hand back. *)
(** Take the next call of a computation that is known to return. *)
Ltac next_call H :=
  lazymatch type of H with
  | (match ?t with pair _ _ => _ end) = _ =>
      let a := fresh "a" in let e := fresh "e" in let w := fresh "w" in
      destruct t as [[a|e] w]; [|discriminate H]
  end.

Lemma get_history_uncached_shape symbol period key w v w' :
  get_history_uncached symbol period key w = (Returned v, w') ->
  ok_result v \/ error_result v.
Proof.
  unfold get_history_uncached, bind. intros H.
  next_call H. destruct a as [y|].
  - destruct (str_truthy y).
    + next_call H. destruct a as [start stop].
      next_call H. next_call H.
      destruct (fetch_plan a a0) as [need start']. lazy iota beta in H.
      next_call H. next_call H. next_call H. next_call H.
      unfold ret in H. injection H as <- _. left. reflexivity.
    + destruct (history_error_returns period "Symbol not found in database" w0)
        as (v' & E & Hv). rewrite E in H. injection H as <- _. now right.
  - destruct (history_error_returns period "Symbol not found in database" w0)
      as (v' & E & Hv). rewrite E in H. injection H as <- _. now right.
Qed.

(** *** The helpers absorb what fails inside them *)










(** ** Quotes *)

Lemma is_market_open_run w :
  exists w', _is_market_open w = (Returned (market_hours (w_ist_now w)), w') /\
    w_faults w' = w_faults w /\ w_redis_up w' = w_redis_up w /\
    w_cache w' = w_cache w /\ w_stocks w' = w_stocks w /\
    w_history w' = w_history w /\ w_now_iso w' = w_now_iso w /\
    w_log w' = w_log w.
Proof.
  unfold _is_market_open, bind, now_ist, ret.
  destruct (w_ist_later w); eexists; (split; [reflexivity|]); cbn; auto 10.
Qed.

Lemma redis_set_run key value ttl w :
  exists b w', redis_set key value ttl w = (Returned b, w') /\
    w_log w' = (w_log w ++ [EvCacheSet key value ttl])%list /\
    (w_redis_up w = true -> w_faults w = [] ->
       w_cache w' !! key = Some (json_wire value, ttl)).
Proof.
  unfold redis_set. cbn. destruct (w_redis_up w); cbn.
  - unfold bind, next_fault. cbn. destruct (w_faults w) as [|[] rest]; cbn.
    + eexists _, _. split; [reflexivity|]. cbn. split; [reflexivity|].
      intros _ _. apply lookup_insert_eq.
    + eexists _, _. split; [reflexivity|]. cbn. split; [reflexivity|]. discriminate.
    + eexists _, _. split; [reflexivity|]. cbn. split; [reflexivity|]. discriminate.
  - eexists _, _. split; [reflexivity|]. cbn. split; [reflexivity|]. discriminate.
Qed.

(** C4 (as amended).  When no Redis or database call fails, the cache has
    nothing for the key, the market is closed, the latest stored bar of
    the symbol has its four prices present, and the symbol has a stock
    record, get_quote returns a quote built from that bar, with change and
    changePercent equal to 0.0, makes no provider call, and writes the
    quote to the cache with ten times the base real-time TTL. *)
Theorem C4_off_hours_fallback (symbol : string) (w : World)
    (bar : StockHistory) (stock : Stock) (o h l c : float) :
  w_faults w = [] ->
  opt_truthy (cached_value (quote_key symbol) w) = false ->
  market_hours (w_ist_now w) = false ->
  latest_bar symbol w = Some bar ->
  h_open bar = Some o -> h_high bar = Some h ->
  h_low bar = Some l -> h_close bar = Some c ->
  stock_of symbol w = Some stock ->
  exists quote w',
    get_quote symbol w = (Returned (Some quote), w') /\
    quote_field "currentPrice" quote = Some (PFloat c) /\
    quote_field "change" quote = Some (PFloat fzero) /\
    quote_field "changePercent" quote = Some (PFloat fzero) /\
    quote_field "dayHigh" quote = Some (PFloat h) /\
    quote_field "dayLow" quote = Some (PFloat l) /\
    quote_field "open" quote = Some (PFloat o) /\
    quote_field "volume" quote = Some (volume_or_zero (h_volume bar)) /\
    field "source" quote = Some (PStr "database") /\
    provider_calls w' = provider_calls w /\
    cache_writes w' =
      (cache_writes w ++ [(quote_key symbol, quote, CACHE_TTL_REALTIME * 10)])%list /\
    (w_redis_up w = true ->
       w_cache w' !! quote_key symbol = Some (quote, CACHE_TTL_REALTIME * 10)).
Proof.
  intros Hf Hmiss Hclosed Hbar Ho Hh Hl Hc Hstock.
  unfold get_quote, try_except, bind at 1.
  rewrite (redis_get_quiet _ w Hf), Hmiss.
  unfold bind at 1.
  destruct (is_market_open_run w) as (w1 & -> & Hf1 & Hup1 & Hc1 & Hs1 & Hh1 & Hn1 & Hl1).
  rewrite Hclosed. change (negb false) with true. cbv iota.
  rewrite Hf in Hf1.
  unfold bind at 1.
  assert (Q : exists quote,
    _get_latest_db_quote symbol w1 = (Returned (Some quote), w1) /\
    truthy quote = true /\
    quote_field "currentPrice" quote = Some (PFloat c) /\
    quote_field "change" quote = Some (PFloat fzero) /\
    quote_field "changePercent" quote = Some (PFloat fzero) /\
    quote_field "dayHigh" quote = Some (PFloat h) /\
    quote_field "dayLow" quote = Some (PFloat l) /\
    quote_field "open" quote = Some (PFloat o) /\
    quote_field "volume" quote = Some (volume_or_zero (h_volume bar)) /\
    field "source" quote = Some (PStr "database") /\
    json_wire quote = quote).
  { unfold _get_latest_db_quote, try_except, bind at 1, db_select_latest.
    rewrite (db_call_quiet _ w1 Hf1). cbn [fst snd].
    unfold latest_bar in Hbar. rewrite Hh1, Hbar.
    unfold bind at 1, db_select_stock. rewrite (db_call_quiet _ w1 Hf1). cbn [fst snd].
    unfold stock_of in Hstock. rewrite Hs1, Hstock.
    rewrite Hc, Hh, Hl, Ho. unfold float_of_column, bind, ret, now_isoformat.
    eexists. split; [reflexivity|]. repeat split.
    apply json_wire_like. cbn. unfold str_or_none, volume_or_zero.
    destruct (s_company_name stock), (s_exchange stock), (s_sector stock),
             (h_volume bar) as [z|]; try reflexivity; now destruct (z =? 0). }
  destruct Q as (quote & -> & Ht & F1 & F2 & F3 & F4 & F5 & F6 & F7 & F8 & Hwire).
  change (opt_truthy (Some quote)) with (truthy quote). rewrite Ht.
  unfold bind at 1.
  destruct (redis_set_run (quote_key symbol) quote (CACHE_TTL_REALTIME * 10) w1)
    as (b & w2 & -> & Hlog & Hcache).
  unfold ret. exists quote, w2. split; [reflexivity|].
  repeat (split; [assumption|]).
  split; [|split].
  - unfold provider_calls. rewrite Hlog, Hl1, List.filter_app. simpl. now rewrite app_nil_r.
  - unfold cache_writes. rewrite Hlog, Hl1, flat_map_app. reflexivity.
  - intros Hup. rewrite Hcache by congruence. now rewrite Hwire.
Qed.

Lemma C4_off_hours_fallback_witness :
  exists quote w',
    get_quote "abc" (sample_world [abc_stock] [abc_bar 739923] abc_provider saturday_noon)
      = (Returned (Some quote), w') /\
    quote_field "currentPrice" quote = Some (PFloat f102) /\
    quote_field "change" quote = Some (PFloat fzero) /\
    quote_field "changePercent" quote = Some (PFloat fzero) /\
    provider_calls w' = [] /\
    cache_writes w' = [(quote_key "abc", quote, 300)].
Proof.
  destruct (C4_off_hours_fallback "abc"
              (sample_world [abc_stock] [abc_bar 739923] abc_provider saturday_noon)
              (abc_bar 739923) abc_stock f100 f102 f100 f102
              eq_refl eq_refl eq_refl eq_refl eq_refl eq_refl eq_refl eq_refl eq_refl)
    as (quote & w' & H1 & H2 & H3 & H4 & _ & _ & _ & _ & _ & H5 & H6 & _).
  exists quote, w'. auto 10.
Defined.

(** C4 as stated fails: the market is closed, the cache is empty and the
    store holds a bar for ABC, but ABC has no stock record, and get_quote
    returns no quote. *)
Lemma C4_counterexample :
  ~ (let w := sample_world [] [abc_bar 739923] abc_provider saturday_noon in
     market_hours (w_ist_now w) = false ->
     opt_truthy (cached_value (quote_key "abc") w) = false ->
     latest_bar "abc" w <> None ->
     exists quote w', get_quote "abc" w = (Returned (Some quote), w')).
Proof.
  intros H. destruct H as (quote & w' & E); [reflexivity | reflexivity | discriminate |].
  vm_compute in E. discriminate E.
Qed.

(** ** Normalization *)

(** Induction on values, with the property of the components at hand. *)
Lemma pyval_induction (P : pyval -> Prop) :
  P PNone -> (forall b, P (PBool b)) -> (forall z, P (PInt z)) ->
  (forall f, P (PFloat f)) -> (forall s, P (PStr s)) ->
  (forall iso, P (PDatetime iso)) ->
  (forall l, Forall P l -> P (PList l)) ->
  (forall d, Forall (fun kv => P (snd kv)) d -> P (PDict d)) ->
  (forall items text, Forall (fun kv => P (snd kv)) items -> P (PSeries items text)) ->
  (forall rows text,
     Forall (fun row => Forall (fun kv => P (snd kv)) (snd row)) rows ->
     P (PDataFrame rows text)) ->
  forall v, P v.
Proof.
  intros HN HB HI HF HS HD HL HDi HSe HFr. fix IH 1.
  assert (D : forall d : list (string * pyval), Forall (fun kv => P (snd kv)) d).
  { fix IHd 1. intros [|[k x] d]; constructor; [apply IH | apply IHd]. }
  intros [| b | z | f | s | iso | l | d | items text | rows text];
    [exact HN | apply HB | apply HI | apply HF | apply HS | apply HD
    | | apply HDi, D | apply HSe, D | ].
  - apply HL. revert l. fix IHl 1. intros [|x l]; constructor; [apply IH | apply IHl].
  - apply HFr. revert rows. fix IHr 1.
    intros [|[idx row] rows]; constructor; [apply D | apply IHr].
Qed.

(** What the sanitizer returns for the items of a dictionary it accepts. *)
Lemma sanitized_items (P : pyval -> Prop) (d d' : list (string * pyval)) :
  Forall (fun kv => forall v', sanitize_for_json (snd kv) = Some v' -> P v') d ->
  mapM (fun '(k, v) => pair k <$> sanitize_for_json v) d = Some d' ->
  Forall (fun kv => P (snd kv)) d'.
Proof.
  intros H E. apply mapM_Some in E.
  induction E as [|[k x] [k' x'] d d' Hx _ IHE]; [constructor|].
  apply Forall_cons in H as [Hk Hd]. constructor; [|now apply IHE].
  apply fmap_Some in Hx as (y & Hy & [= -> ->]). now apply Hk.
Qed.

Lemma forallb_Forall_snd (p : pyval -> bool) (d : list (string * pyval)) :
  Forall (fun kv => p (snd kv) = true) d -> forallb (fun kv => p (snd kv)) d = true.
Proof. induction 1 as [|kv d H _ IH]; simpl; [reflexivity | now rewrite H, IH]. Qed.

(** Where [sanitize_for_json] returns, its result holds no NaN, no
    infinity and no timestamp object. *)
Lemma sanitize_for_json_safe v :
  forall v', sanitize_for_json v = Some v' -> json_safe v' = true.
Proof.
  induction v as [| b | z | f | s | iso | l IHl | d IHd | items text IHd | rows text IHr]
    using pyval_induction; intros v' H; simpl in H; try discriminate H.
  - apply fmap_Some in H as (l' & E & ->). apply mapM_Some in E. simpl.
    induction E as [|x x' l l' Hx _ IHE]; [reflexivity|].
    apply Forall_cons in IHl as [Hk Hl]. simpl.
    now rewrite (Hk x' Hx), (IHE Hl).
  - apply fmap_Some in H as (d' & E & ->). simpl.
    apply forallb_Forall_snd. exact (sanitized_items _ _ _ IHd E).
  - apply fmap_Some in H as (d' & E & ->). simpl.
    apply forallb_Forall_snd. exact (sanitized_items _ _ _ IHd E).
  - apply fmap_Some in H as (d' & E & ->). simpl. apply mapM_Some in E.
    induction E as [|[idx row] [idx' row'] rows d' Hx _ IHE]; [reflexivity|].
    apply Forall_cons in IHr as [Hrow Hrows]. simpl in Hrow.
    apply fmap_Some in Hx as (r & Hr & [= -> ->]). simpl.
    rewrite (forallb_Forall_snd _ _ (sanitized_items _ _ _ Hrow Hr)).
    now rewrite (IHE Hrows).
Qed.

(** The dictionary of a quote starts with the symbol, a string: the
    sanitizer raises on it. *)
Lemma sanitized_quote k s rest :
  sanitized (PDict ((k, PStr s) :: rest)) = raise attribute_error.
Proof. reflexivity. Qed.

(** So no quote is built ... *)
Lemma build_quote_none symbol stock ticker hist w r w' :
  build_quote symbol stock ticker hist w = (Returned r, w') -> r = None.
Proof.
  unfold build_quote. destruct (rev hist) as [|last_row before].
  - unfold ret. now intros [= <- _].
  - unfold bind at 1. intros H. next_call H.
    unfold bind at 1 in H. next_call H.
    unfold bind at 1 in H. rewrite sanitized_quote in H. discriminate H.
Qed.

(** ... and the live fetch answers [None], whatever the provider gives. *)
Lemma fetch_quote_none symbol w :
  exists w', _fetch_quote_from_yfinance symbol w = (Returned None, w').
Proof.
  unfold _fetch_quote_from_yfinance, try_except at 1.
  destruct (bind (db_select_stock (upper symbol)) _ w) as [[r|e] w1] eqn:B;
    [|unfold ret; eauto].
  exists w1. f_equal. f_equal.
  unfold bind at 1 in B. next_call B.
  destruct a as [stock|]; [|now injection B as <- _].
  destruct (s_yahoo_symbol stock) as [yahoo|]; [|now injection B as <- _].
  unfold bind at 1 in B. next_call B.
  destruct a as [[working hist]|].
  - destruct (df_empty hist).
    + unfold bind at 1 in B. next_call B.
      destruct a as [h|]; [|now injection B as <- _].
      eapply build_quote_none; eauto.
    + eapply build_quote_none; eauto.
  - unfold bind at 1 in B. next_call B.
    destruct a as [h|]; [|now injection B as <- _].
    eapply build_quote_none; eauto.
Qed.

(** C9.  The poll loop writes its tick to the cache without normalizing
    it: when the provider's last row for XYZ has a NaN close, one
    iteration stores a tick whose price, change and change_percent are NaN
    under "realtime:XYZ" with TTL 30 and sends the same tick to the
    subscriber.  Nor does [sanitize_for_json] do what the claim says of
    it: on a float (NaN or not) and on a timestamp it raises instead of
    giving null or the ISO text, and so it does on the tick; where it
    does return, its result holds no NaN, no infinity and no timestamp
    object. *)
Theorem C9_realtime_tick_not_normalized :
  (let after := sys_world (step nan_system (OpPoll "XYZ")) in
   w_cache after !! "realtime:XYZ" = Some (nan_tick, 30) /\
   cache_writes after = [("realtime:XYZ", nan_tick, 30)] /\
   json_safe nan_tick = false /\
   In (EvSend "X" (stock_update nan_tick)) (w_log after)) /\
  sanitize_for_json nan_tick = None /\
  (forall f, sanitize_for_json (PFloat f) = None) /\
  (forall iso, sanitize_for_json (PDatetime iso) = None) /\
  (forall v v', sanitize_for_json v = Some v' -> json_safe v' = true).
Proof.
  split; [|split; [reflexivity|split; [reflexivity|split; [reflexivity|]]]].
  - split; [vm_compute; reflexivity|].
    split; [vm_compute; reflexivity|].
    split; [reflexivity|].
    vm_compute; auto.
  - exact sanitize_for_json_safe.
Qed.

(** ** Reading history back *)

Lemma in_insert_by_date r x l : In x (insert_by_date r l) -> x = r \/ In x l.
Proof.
  induction l as [|y l IH]; simpl.
  - intros [<-|[]]. now left.
  - destruct (h_date r <? h_date y); simpl.
    + intros [<-|H]; [now left | now right].
    + intros [<-|H]; [right; now left|].
      destruct (IH H) as [->|H']; [now left | right; now right].
Qed.

Lemma in_sort_by_date x l : In x (sort_by_date l) -> In x l.
Proof.
  unfold sort_by_date. induction l as [|r l IH]; simpl; [tauto|].
  intros H. destruct (in_insert_by_date _ _ _ H) as [->|H']; [now left|].
  right. now apply IH.
Qed.

(** A NaN close from the provider is stored as null and read back as 0. *)
Example nan_close_example :
  let r := get_history "abc" "6M"
             (sample_world [abc_stock] [] abc_nan_provider wednesday_noon) in
  map h_close (w_history (snd r)) = [None] /\
  exists v entry,
    fst r = Returned v /\
    field "data" v = Some (PList [entry]) /\
    field "close" entry = Some (PInt 0) /\
    field "high" entry = Some (PFloat f102).
Proof.
  split; [reflexivity|]. eexists _, _. split; [reflexivity|]. repeat split.
Qed.

Lemma insert_by_date_in r x l : x = r \/ In x l -> In x (insert_by_date r l).
Proof.
  induction l as [|y l IH]; simpl.
  - intros [->|[]]. now left.
  - destruct (h_date r <? h_date y); simpl.
    + intros [->|H]; [now left | now right].
    + intros [->|[->|H]]; [right; apply IH; now left | now left | right; apply IH; now right].
Qed.

Lemma sort_by_date_in x l : In x l -> In x (sort_by_date l).
Proof.
  unfold sort_by_date. induction l as [|r l IH]; simpl; [tauto|].
  intros [->|H]; apply insert_by_date_in; [now left | right; now apply IH].
Qed.

(** A bar stored with a null close and volume against the same bar stored
    with a close of 0.0 and a volume of 0: the volume is read back as the
    same value, the close as the integer 0 and as the float 0.0, which
    are equal as numbers. *)
Example null_and_zero_example :
  field "volume" (history_entry abc_null_bar) = field "volume" (history_entry abc_zero_bar) /\
  field "close" (history_entry abc_null_bar) = Some (PInt 0) /\
  field "close" (history_entry abc_zero_bar) = Some (PFloat fzero) /\
  num_eqb (PInt 0) (PFloat fzero) = true.
Proof. repeat split. Qed.

(** C10 (as amended).  When no Redis or database call fails, no
    transaction is open, the cache has nothing for the key and the symbol
    has a Yahoo symbol, get_history returns a result with a null error
    whose data holds an entry for every bar of the symbol that the store
    holds within the period window; in that entry a null open, high, low
    or close is the integer 0 and a stored price is that price as a
    float, a null volume is the integer 0 and a stored volume is that
    integer; the data holds nothing else; and when no fetch is due the
    store is the one the call started with. *)
Theorem C10_null_fields_read_as_zero (symbol period : string) (w : World)
    (stock : Stock) (yahoo : string) :
  w_faults w = [] -> w_txn_base w = None ->
  opt_truthy (cached_value (history_key symbol period) w) = false ->
  stock_of symbol w = Some stock ->
  s_yahoo_symbol stock = Some yahoo ->
  str_truthy yahoo = true ->
  let window := period_dates (w_today w) period in
  exists v w' data,
    get_history symbol period w = (Returned v, w') /\
    field "error" v = Some PNone /\
    field "data" v = Some (PList data) /\
    (fst (fetch_plan (h_date <$> latest_bar symbol w) (w_today w)) = false ->
       w_history w' = w_history w) /\
    (forall row,
       In row (w_history w') ->
       in_window (upper symbol) (fst window) (Some (snd window)) row = true ->
       exists entry,
         In entry data /\
         field "timestamp" entry = Some (PStr (strftime_ymd (h_date row))) /\
         field "open" entry =
           Some (match h_open row with Some x => PFloat x | None => PInt 0 end) /\
         field "high" entry =
           Some (match h_high row with Some x => PFloat x | None => PInt 0 end) /\
         field "low" entry =
           Some (match h_low row with Some x => PFloat x | None => PInt 0 end) /\
         field "close" entry =
           Some (match h_close row with Some x => PFloat x | None => PInt 0 end) /\
         field "volume" entry =
           Some (match h_volume row with Some z => PInt z | None => PInt 0 end)) /\
    (forall entry,
       In entry data ->
       exists row,
         In row (w_history w') /\
         in_window (upper symbol) (fst window) (Some (snd window)) row = true /\
         entry = history_entry row).
Proof.
  intros Hf Hb Hmiss Hs Hy Hty window.
  destruct (get_history_quiet symbol period w stock yahoo Hf Hb Hmiss Hs Hy Hty)
    as (table & w' & E & Ht & Hsame & _).
  eexists _, w', _. split; [exact E|]. split; [reflexivity|]. split; [reflexivity|].
  split; [intros Hplan; rewrite Ht; now apply Hsame|].
  rewrite Ht. fold window. split.
  - intros row Hin Hwin. exists (history_entry row). split.
    + apply in_map, sort_by_date_in, List.filter_In. now split.
    + repeat split.
  - intros entry Hin. apply in_map_iff in Hin. destruct Hin as (row & <- & Hrow).
    exists row. apply in_sort_by_date, List.filter_In in Hrow.
    destruct Hrow as [Hin Hwin]. repeat split; assumption.
Qed.

Lemma C10_null_fields_read_as_zero_witness :
  exists v w' entry,
    get_history "abc" "6M"
      (sample_world [abc_stock] [abc_null_bar] failing_provider wednesday_noon)
      = (Returned v, w') /\
    field "error" v = Some PNone /\
    field "data" v = Some (PList [entry]) /\
    field "timestamp" entry = Some (PStr "2026-11-03") /\
    field "open" entry = Some (PFloat f100) /\
    field "close" entry = Some (PInt 0) /\
    field "volume" entry = Some (PInt 0).
Proof.
  destruct (C10_null_fields_read_as_zero "abc" "6M"
              (sample_world [abc_stock] [abc_null_bar] failing_provider wednesday_noon)
              abc_stock "ABC.NS" eq_refl eq_refl eq_refl eq_refl eq_refl eq_refl)
    as (v & w' & data & E & Herr & Hdata & Hsame & Hrows & _).
  destruct (Hrows abc_null_bar) as (entry & Hin & Hts & Ho & _ & _ & Hc & Hv).
  { rewrite (Hsame eq_refl). now left. }
  { reflexivity. }
  exists v, w', entry. split; [exact E|]. split; [exact Herr|].
  vm_compute in E. injection E as <- <-.
  injection Hdata as <-. destruct Hin as [<-|[]]. repeat split.
Defined.

(** C10 as stated fails for the prices: the store holds one bar of ABC,
    with a null close in one world and a close of 0.0 in the other, and
    the two answers of get_history differ in that field (the integer 0
    against the float 0.0). *)
Lemma C10_counterexample :
  ~ (forall v1 v2 e1 e2,
       fst (get_history "abc" "6M"
              (sample_world [abc_stock] [abc_null_bar] failing_provider wednesday_noon))
         = Returned v1 ->
       fst (get_history "abc" "6M"
              (sample_world [abc_stock] [abc_zero_bar] failing_provider wednesday_noon))
         = Returned v2 ->
       field "data" v1 = Some (PList [e1]) ->
       field "data" v2 = Some (PList [e2]) ->
       field "close" e1 = field "close" e2).
Proof.
  intros H. specialize (H _ _ _ _ eq_refl eq_refl eq_refl eq_refl). discriminate H.
Qed.

(* ===================================================================== *)
(** * Further properties of the code *)
(* ===================================================================== *)

Import RedisClient Recommendations StocksApi WebSocketApi Invariants MoreSamples.

(** ** Strings *)

Lemma upper_char_idem c : upper_char (upper_char c) = upper_char c.
Proof. destruct c as [[] [] [] [] [] [] [] []]; reflexivity. Qed.

Lemma upper_char_dollar c :
  Ascii.eqb (upper_char c) "$"%char = Ascii.eqb c "$"%char.
Proof. destruct c as [[] [] [] [] [] [] [] []]; reflexivity. Qed.

Lemma upper_char_space c : is_space (upper_char c) = is_space c.
Proof. destruct c as [[] [] [] [] [] [] [] []]; reflexivity. Qed.

Lemma upper_idem s : upper (upper s) = upper s.
Proof. induction s as [|c s IH]; simpl; [reflexivity|]. now rewrite upper_char_idem, IH. Qed.

Lemma lstrip_by_upper p s :
  (forall c, p (upper_char c) = p c) ->
  lstrip_by p (upper s) = upper (lstrip_by p s).
Proof.
  intros Hp. induction s as [|c s IH]; simpl; [reflexivity|].
  rewrite Hp. destruct (p c); [exact IH | reflexivity].
Qed.

Lemma lstrip_by_idem p s : lstrip_by p (lstrip_by p s) = lstrip_by p s.
Proof.
  induction s as [|c s IH]; simpl; [reflexivity|].
  destruct (p c) eqn:E; [exact IH|]. simpl. now rewrite E.
Qed.

Lemma upper_of_list l :
  upper (string_of_list_ascii l) = string_of_list_ascii (map upper_char l).
Proof. induction l as [|c l IH]; simpl; [reflexivity|]. now rewrite IH. Qed.

Lemma list_of_upper s :
  list_ascii_of_string (upper s) = map upper_char (list_ascii_of_string s).
Proof. induction s as [|c s IH]; simpl; [reflexivity|]. now rewrite IH. Qed.

Lemma string_rev_upper s : string_rev (upper s) = upper (string_rev s).
Proof.
  unfold string_rev. now rewrite list_of_upper, upper_of_list, map_rev.
Qed.

Lemma strip_upper s : strip (upper s) = upper (strip s).
Proof.
  unfold strip, rstrip_by.
  rewrite (lstrip_by_upper is_space s upper_char_space).
  rewrite string_rev_upper.
  rewrite (lstrip_by_upper is_space _ upper_char_space).
  apply string_rev_upper.
Qed.

(** What [subscribe_symbols] stores is left alone by the [upper()] of
    [unsubscribe_symbol]. *)
Lemma upper_strip_upper s : upper (strip (upper s)) = strip (upper s).
Proof. now rewrite <- strip_upper, upper_idem. Qed.

Lemma append_inj_l a b suf : String.append a suf = String.append b suf -> a = b.
Proof.
  intros E.
  rewrite <- (drop_last_app a suf), <- (drop_last_app b suf). now rewrite E.
Qed.

Lemma clean_symbol_upper t : clean_symbol (upper t) = clean_symbol t.
Proof.
  unfold clean_symbol, lstrip_dollar.
  rewrite lstrip_by_upper by apply upper_char_dollar. apply upper_idem.
Qed.

Lemma clean_symbol_idem t : clean_symbol (clean_symbol t) = clean_symbol t.
Proof.
  unfold clean_symbol at 2. rewrite clean_symbol_upper.
  unfold clean_symbol, lstrip_dollar. now rewrite lstrip_by_idem.
Qed.

Lemma upper_clean_symbol t : upper (clean_symbol t) = clean_symbol t.
Proof. unfold clean_symbol. apply upper_idem. Qed.

Lemma append_inj_r a x y : String.append a x = String.append a y -> x = y.
Proof. induction a as [|c a IH]; simpl; intros E; [exact E|]. injection E as E. auto. Qed.

Lemma two_suffixes_differ a (x y : string) :
  x <> y -> NoDup [String.append a x; String.append a y].
Proof.
  intros N. apply NoDup_cons_2; [|apply NoDup_singleton].
  intros E%list_elem_of_singleton. apply N. exact (append_inj_r _ _ _ E).
Qed.

(** ** Candidate symbols *)

(** X1. Whatever the ticker, [get_safe_ticker_data_sync] tries one or two
    candidates; each is in upper case and is an index symbol or ends with
    [.NS] or [.BO], and a candidate is never tried twice. *)
Theorem symbol_variations_shape (ticker : string) :
  let candidates := symbol_variations ticker in
  (length candidates = 1%nat \/ length candidates = 2%nat) /\
  NoDup candidates /\
  Forall (fun v => upper v = v /\
                   (in_index_symbols v = true \/ endswith v ".NS" = true \/
                    endswith v ".BO" = true)) candidates.
Proof.
  cbv zeta. unfold symbol_variations.
  pose proof (upper_clean_symbol ticker) as U.
  set (clean := clean_symbol ticker) in *.
  destruct (in_index_symbols clean) eqn:I.
  { split; [left; reflexivity|]. split; [apply NoDup_singleton|].
    constructor; [split; auto | constructor]. }
  destruct (endswith clean ".BSE") eqn:B.
  { apply endswith_inv in B as [a Ha].
    assert (D : drop_last 4 clean = a).
    { rewrite Ha. exact (drop_last_app a ".BSE"). }
    rewrite D.
    assert (Ua : upper a = a).
    { rewrite Ha, upper_app in U. exact (append_inj_l _ _ _ U). }
    split; [right; reflexivity|]. split.
    - apply two_suffixes_differ; discriminate.
    - constructor; [split|constructor; [split|constructor]].
      + rewrite upper_app, Ua. reflexivity.
      + right; right. apply endswith_app.
      + rewrite upper_app, Ua. reflexivity.
      + right; left. apply endswith_app. }
  destruct (endswith clean ".NS" || endswith clean ".BO") eqn:N.
  { split; [left; reflexivity|]. split; [apply NoDup_singleton|].
    apply orb_true_iff in N. constructor; [split; [exact U | tauto] | constructor]. }
  split; [right; reflexivity|]. split.
  - apply two_suffixes_differ; discriminate.
  - constructor; [split|constructor; [split|constructor]].
    + rewrite upper_app, U. reflexivity.
    + right; left. apply endswith_app.
    + rewrite upper_app, U. reflexivity.
    + right; right. apply endswith_app.
Qed.


(** X2. The candidates do not depend on the case of the ticker nor on
    leading dollar signs: they are those of the cleaned ticker. *)
Theorem symbol_variations_normalized (ticker : string) :
  symbol_variations (upper ticker) = symbol_variations ticker /\
  symbol_variations (String "$"%char ticker) = symbol_variations ticker /\
  symbol_variations (clean_symbol ticker) = symbol_variations ticker.
Proof.
  unfold symbol_variations.
  rewrite clean_symbol_upper, clean_symbol_idem. repeat split.
Qed.

(** ** The loop over the candidates *)

Lemma try_variants_step variant rest w :
  try_variants (variant :: rest) w =
    match w_provider w variant (ReqPeriod "6mo") with
    | Some (row :: rows) =>
        (Returned (Some (variant, row :: rows)), asked [variant] w)
    | _ => try_variants rest (asked [variant] w)
    end.
Proof.
  simpl. unfold bind, try_except, ticker_history, ret. simpl.
  destruct (w_provider w variant (ReqPeriod "6mo")) as [[|row rows]|]; reflexivity.
Qed.

Lemma asked_app a b w : asked (a ++ b) w = asked b (asked a w).
Proof. unfold asked. apply fold_left_app. Qed.

Lemma asked_provider variants w : w_provider (asked variants w) = w_provider w.
Proof.
  revert w. induction variants as [|v l IH]; intros w; [reflexivity|].
  change (asked (v :: l) w) with (asked l (asked [v] w)). now rewrite IH.
Qed.

Lemma asked_requests variants w :
  history_requests (asked variants w)
    = (history_requests w ++ map six_months variants)%list.
Proof.
  revert w. induction variants as [|v l IH]; intros w.
  - simpl. now rewrite app_nil_r.
  - change (asked (v :: l) w) with (asked l (asked [v] w)). rewrite IH.
    unfold history_requests at 1, asked. simpl.
    rewrite flat_map_app. simpl. now rewrite <- app_assoc.
Qed.

Lemma try_variants_skip before rest w :
  (forall v, In v before -> no_data (w_provider w v (ReqPeriod "6mo"))) ->
  try_variants (before ++ rest)%list w = try_variants rest (asked before w).
Proof.
  revert w. induction before as [|v l IH]; intros w H; [reflexivity|].
  change ((v :: l) ++ rest)%list with (v :: (l ++ rest))%list.
  rewrite try_variants_step.
  assert (E : try_variants (l ++ rest)%list (asked [v] w)
              = try_variants rest (asked (v :: l) w)).
  { rewrite IH; [reflexivity|]. intros v' Hv'.
    rewrite asked_provider. apply H. now right. }
  destruct (H v (or_introl eq_refl)) as [-> | ->]; exact E.
Qed.

(** X3. When the candidates before one have no data (the provider raises
    or answers with an empty frame) and that one has some,
    [get_safe_ticker_data_sync] returns it with its frame; the six-month
    history was asked once for each candidate up to it, in order, and for
    none after it, and nothing else changed. *)
Theorem first_candidate_with_data_wins (ticker : string) (w : World)
    (before after : list string) (variant : string) (hist : DataFrame) :
  symbol_variations ticker = (before ++ variant :: after)%list ->
  (forall v, In v before -> no_data (w_provider w v (ReqPeriod "6mo"))) ->
  w_provider w variant (ReqPeriod "6mo") = Some hist ->
  hist <> [] ->
  get_safe_ticker_data_sync ticker w
    = (Returned (Some (variant, hist)), asked (before ++ [variant]) w) /\
  history_requests (asked (before ++ [variant]) w)
    = (history_requests w ++ map six_months (before ++ [variant]))%list.
Proof.
  intros V Hb Hv Hne. split; [|apply asked_requests].
  unfold get_safe_ticker_data_sync. rewrite V.
  rewrite try_variants_skip by exact Hb.
  rewrite try_variants_step, asked_provider, Hv, asked_app.
  destruct hist as [|row rows]; [congruence | reflexivity].
Qed.

Lemma first_candidate_with_data_wins_witness :
  get_safe_ticker_data_sync "xyz.bse"
      (sample_world [] [] nan_provider wednesday_noon)
    = (Returned (Some ("XYZ.NS", nan_frame)),
       asked ["XYZ.BO"; "XYZ.NS"] (sample_world [] [] nan_provider wednesday_noon)) /\
  history_requests
      (asked ["XYZ.BO"; "XYZ.NS"] (sample_world [] [] nan_provider wednesday_noon))
    = [("XYZ.BO", ReqPeriod "6mo"); ("XYZ.NS", ReqPeriod "6mo")].
Proof.
  apply (first_candidate_with_data_wins "xyz.bse"
           (sample_world [] [] nan_provider wednesday_noon)
           ["XYZ.BO"] [] "XYZ.NS" nan_frame).
  - reflexivity.
  - intros v [<- | []]. right. reflexivity.
  - reflexivity.
  - discriminate.
Defined.

Lemma try_variants_exhausted variants w :
  (forall v, In v variants -> no_data (w_provider w v (ReqPeriod "6mo"))) ->
  try_variants variants w = (Returned None, asked variants w).
Proof.
  intros H. rewrite <- (app_nil_r variants) at 1.
  now rewrite try_variants_skip.
Qed.

(** X4. When no candidate has data, [get_safe_ticker_data_sync] returns
    nothing, without raising, after asking once for each candidate. *)
Theorem no_candidate_with_data (ticker : string) (w : World) :
  (forall v, In v (symbol_variations ticker) ->
             no_data (w_provider w v (ReqPeriod "6mo"))) ->
  get_safe_ticker_data_sync ticker w
    = (Returned None, asked (symbol_variations ticker) w) /\
  history_requests (asked (symbol_variations ticker) w)
    = (history_requests w ++ map six_months (symbol_variations ticker))%list.
Proof.
  intros H. split; [|apply asked_requests].
  now apply try_variants_exhausted.
Qed.

Lemma no_candidate_with_data_witness :
  get_safe_ticker_data_sync "abc"
      (sample_world [] [] failing_provider wednesday_noon)
    = (Returned None,
       asked (symbol_variations "abc")
             (sample_world [] [] failing_provider wednesday_noon)) /\
  history_requests
      (asked (symbol_variations "abc")
             (sample_world [] [] failing_provider wednesday_noon))
    = ([] ++ map six_months (symbol_variations "abc"))%list.
Proof.
  apply (no_candidate_with_data "abc"
           (sample_world [] [] failing_provider wednesday_noon)).
  intros v _. left. reflexivity.
Defined.

(** ** Normalization *)

Lemma items_is_Some (d : list (string * pyval)) :
  Forall (fun kv => is_Some (sanitize_for_json (snd kv)) <-> scalar_free (snd kv) = true) d ->
  is_Some (mapM (fun '(k, v) => pair k <$> sanitize_for_json v) d)
  <-> forallb (fun kv => scalar_free (snd kv)) d = true.
Proof.
  intros H. rewrite mapM_is_Some.
  induction H as [|[k x] d Hx _ IH]; simpl.
  - split; [reflexivity | constructor].
  - rewrite Forall_cons, andb_true_iff, <- IH, <- Hx. simpl.
    now rewrite fmap_is_Some.
Qed.

Lemma items_unchanged (d : list (string * pyval)) :
  Forall (fun kv => sanitize_for_json (snd kv) = Some (snd kv)) d ->
  mapM (fun '(k, v) => pair k <$> sanitize_for_json v) d = Some d.
Proof.
  intros H. apply mapM_Some.
  induction H as [|[k x] d Hx _ IH]; constructor; [|exact IH].
  simpl in Hx. now rewrite Hx.
Qed.

Lemma sanitize_is_Some (v : pyval) :
  is_Some (sanitize_for_json v) <-> scalar_free v = true.
Proof.
  induction v as [| b | z | f | s | iso | l IHl | d IHd | items text IHd | rows text IHr]
    using pyval_induction; simpl;
    try (split; [intros [? [=]] | discriminate]).
  - rewrite fmap_is_Some, mapM_is_Some.
    induction IHl as [|x l Hx _ IH]; simpl.
    + split; [reflexivity | constructor].
    + rewrite Forall_cons, andb_true_iff, <- IH, <- Hx. reflexivity.
  - rewrite fmap_is_Some. now apply items_is_Some.
  - rewrite fmap_is_Some. now apply items_is_Some.
  - rewrite fmap_is_Some, mapM_is_Some.
    induction IHr as [|[idx row] rows Hrow _ IH]; simpl.
    + split; [reflexivity | constructor].
    + rewrite Forall_cons, andb_true_iff, <- IH. simpl.
      now rewrite fmap_is_Some, (items_is_Some row Hrow).
Qed.

Lemma sanitize_for_json_fixed (v : pyval) :
  forall v', sanitize_for_json v = Some v' -> sanitize_for_json v' = Some v'.
Proof.
  induction v as [| b | z | f | s | iso | l IHl | d IHd | items text IHd | rows text IHr]
    using pyval_induction; intros v' H; simpl in H; try discriminate H.
  - apply fmap_Some in H as (l' & E & ->). apply mapM_Some in E. simpl.
    apply fmap_Some. exists l'. split; [|reflexivity]. apply mapM_Some.
    induction E as [|x x' l l' Hx _ IH]; [constructor|].
    apply Forall_cons in IHl as [Hk Hl]. constructor; [now apply Hk | now apply IH].
  - apply fmap_Some in H as (d' & E & ->). simpl.
    now rewrite (items_unchanged d' (sanitized_items _ _ _ IHd E)).
  - apply fmap_Some in H as (d' & E & ->). simpl.
    now rewrite (items_unchanged d' (sanitized_items _ _ _ IHd E)).
  - apply fmap_Some in H as (d' & E & ->). simpl.
    apply fmap_Some. exists d'. split; [|reflexivity].
    apply mapM_Some in E. apply mapM_Some.
    induction E as [|[idx row] [idx' row'] rows d' Hx _ IH]; [constructor|].
    apply Forall_cons in IHr as [Hrow Hrows]. simpl in Hrow.
    apply fmap_Some in Hx as (r & Hr & [= -> ->]).
    constructor; [|now apply IH]. simpl.
    now rewrite (items_unchanged r (sanitized_items _ _ _ Hrow Hr)).
Qed.

(** X5. [sanitize_for_json] raises on every value that holds a scalar (a
    number, a string, a boolean, [None] or a timestamp) and returns on the
    others, which are the dictionaries, lists and pandas objects whose
    leaves are empty containers; what it returns holds no NaN, no infinity
    and no timestamp object, and sanitizing it again returns it
    unchanged. *)
Theorem sanitize_for_json_scalar_free (v : pyval) :
  (sanitize_for_json v = None <-> scalar_free v = false) /\
  (forall v', sanitize_for_json v = Some v' ->
     json_safe v' = true /\ sanitize_for_json v' = Some v').
Proof.
  split.
  - pose proof (sanitize_is_Some v) as H.
    destruct (sanitize_for_json v) as [v'|], (scalar_free v).
    + split; discriminate.
    + pose proof (proj1 H (ex_intro _ v' eq_refl)). discriminate.
    + destruct (proj2 H eq_refl) as [? [=]].
    + split; reflexivity.
  - intros v' H. split.
    + exact (sanitize_for_json_safe v v' H).
    + exact (sanitize_for_json_fixed v v' H).
Qed.

Lemma sanitize_for_json_scalar_free_witness :
  json_safe (PDict [("rows", PList [])]) = true /\
  sanitize_for_json (PDict [("rows", PList [])]) = Some (PDict [("rows", PList [])]).
Proof.
  apply (sanitize_for_json_scalar_free (PSeries [("rows", PList [])] "rows    []")).
  reflexivity.
Defined.

(** ** Technical signals *)

(** The MACD comparison always casts a vote, so the signals counted by
    [calculate_technical_recommendations] number between one and four: the
    divisor of [averageRating] is the number of votes, never the guard
    value of [max]. *)
Lemma signal_votes_bounds (i : Indicators) :
  (1 <= buy_signals i + sell_signals i <= 4)%nat /\
  (fst (macd_votes i) + snd (macd_votes i) = 1)%nat.
Proof.
  unfold buy_signals, sell_signals, ma_votes, rsi_votes, macd_votes.
  repeat match goal with |- context [if ?b then _ else _] => destruct b end;
    simpl; lia.
Qed.

(** X6. When the 200-day average, the RSI and the MACD or its signal line
    are missing (NaN), the only vote is the sell vote of the MACD branch:
    the rating is "Sell". *)
Theorem missing_indicators_rate_sell (i : Indicators) :
  isnan (ma_200 i) = true ->
  isnan (rsi i) = true ->
  isnan (macd_current i) = true \/ isnan (signal_current i) = true ->
  buy_signals i = 0%nat /\ sell_signals i = 1%nat /\ rating i = "Sell".
Proof.
  intros H200 Hrsi Hmacd.
  assert (M : ma_votes i = (0, 0)%nat).
  { unfold ma_votes, safe_compare. rewrite H200.
    rewrite !orb_true_r. cbn [orb]. rewrite !andb_false_r.
    destruct (isnan (ma_20 i) || isnan (current_price i)); cbn [andb];
      [reflexivity|].
    destruct (SFltb (current_price i) (ma_20 i)); cbn [andb]; [|reflexivity].
    destruct (isnan (ma_50 i) || isnan (ma_20 i)); cbn [andb]; [reflexivity|].
    destruct (SFltb (ma_20 i) (ma_50 i)); reflexivity. }
  assert (R : rsi_votes i = (0, 0)%nat).
  { unfold rsi_votes, rsi_val, safe_value. rewrite Hrsi. reflexivity. }
  assert (C : macd_votes i = (0, 1)%nat).
  { unfold macd_votes, safe_compare.
    destruct Hmacd as [-> | ->]; [|rewrite orb_true_r]; reflexivity. }
  unfold rating, buy_signals, sell_signals. rewrite M, R, C. repeat split.
Qed.

Lemma missing_indicators_rate_sell_witness :
  let i := mkIndicators f100 f100 f100 S754_nan S754_nan S754_nan S754_nan in
  buy_signals i = 0%nat /\ sell_signals i = 1%nat /\ rating i = "Sell".
Proof.
  apply (missing_indicators_rate_sell
           (mkIndicators f100 f100 f100 S754_nan S754_nan S754_nan S754_nan));
    [reflexivity | reflexivity | left; reflexivity].
Defined.

(** ** Period windows *)

Lemma period_mapping_range k delta :
  mapping_get k period_mapping = Some delta -> 1 <= delta <= 1825.
Proof.
  unfold period_mapping. simpl.
  repeat (destruct (String.eqb k _); [intros [= <-]; lia|]).
  discriminate.
Qed.

(** X7. [_get_period_dates] does not depend on the case of the period; the
    window always ends today, and its start is open exactly for "ALL" and
    otherwise lies between 1825 days and one day before today. *)
Theorem period_window (today : Z) (period : string) :
  period_dates today (upper period) = period_dates today period /\
  snd (period_dates today period) = today /\
  match fst (period_dates today period) with
  | Some start => today - 1825 <= start <= today - 1 /\ upper period <> "ALL"
  | None => upper period = "ALL"
  end.
Proof.
  unfold period_dates. rewrite upper_idem.
  split; [reflexivity|].
  destruct (String.eqb (upper period) "ALL") eqn:A.
  - apply String.eqb_eq in A. split; [reflexivity | exact A].
  - apply String.eqb_neq in A.
    destruct (mapping_get (upper period) period_mapping) as [delta|] eqn:G.
    + apply period_mapping_range in G.
      destruct (negb (delta =? 0)); simpl; (split; [reflexivity | split; [lia | exact A]]).
    + simpl. split; [reflexivity | split; [lia | exact A]].
Qed.


(** ** Properties kept by the service, whichever call fails *)

Section WorldInvariant.

Variable P : World -> Prop.

Lemma maintains_ret {A} (a : A) : maintains P (ret a).
Proof. intros w H. exact H. Qed.

Lemma maintains_raise {A} e : maintains P (@raise World A e).
Proof. intros w H. exact H. Qed.

Lemma maintains_bind {A B} (m : M A) (k : A -> M B) :
  maintains P m -> (forall a, maintains P (k a)) -> maintains P (bind m k).
Proof.
  intros Hm Hk w H. unfold bind. specialize (Hm w H).
  destruct (m w) as [[a|e] w']; simpl in *; [now apply Hk | exact Hm].
Qed.

Lemma maintains_try {A} (b : M A) (h : exn -> M A) :
  maintains P b -> (forall e, maintains P (h e)) -> maintains P (try_except b h).
Proof.
  intros Hb Hh w H. unfold try_except. specialize (Hb w H).
  destruct (b w) as [[a|e] w']; simpl in *; [exact Hb | now apply Hh].
Qed.

Hypothesis P_faults : forall f w, P w -> P (set_faults f w).
Hypothesis P_clock : forall t l w, P w -> P (set_ist t l w).

Lemma maintains_next_fault : maintains P next_fault.
Proof.
  intros w H. unfold next_fault. destruct (w_faults w); simpl; auto.
Qed.

Lemma maintains_db_read {A} (q : World -> A) :
  maintains P (db_call (fun w => (q w, w))).
Proof.
  intros w H. unfold db_call, bind. pose proof (maintains_next_fault w H) as H1.
  destruct (next_fault w) as [[[]|e] w1]; simpl in *; exact H1.
Qed.

Lemma maintains_redis_get key : maintains P (redis_get key).
Proof.
  intros w H. unfold redis_get. destruct (negb (w_redis_up w)); [exact H|].
  unfold bind. pose proof (maintains_next_fault w H) as H1.
  destruct (next_fault w) as [[[]|e] w1]; simpl in *; exact H1.
Qed.

Lemma maintains_date_today : maintains P date_today.
Proof. intros w H. exact H. Qed.

Lemma maintains_now_isoformat : maintains P now_isoformat.
Proof. intros w H. exact H. Qed.

Lemma maintains_sql_now : maintains P sql_now.
Proof. intros w H. exact H. Qed.

Lemma maintains_now_ist : maintains P now_ist.
Proof.
  intros w H. unfold now_ist. simpl. destruct (w_ist_later w); auto.
Qed.

Lemma maintains_float_of_column x : maintains P (float_of_column x).
Proof. destruct x; [apply maintains_ret | apply maintains_raise]. Qed.

Lemma maintains_int_or_zero_of_float x : maintains P (int_or_zero_of_float x).
Proof.
  unfold int_or_zero_of_float.
  destruct (isnan x); [apply maintains_ret|].
  destruct (int_of_float x); [apply maintains_ret | apply maintains_raise].
Qed.

Ltac maintain :=
  repeat lazymatch goal with
    | |- maintains _ (ret _) => apply maintains_ret
    | |- maintains _ (raise _) => apply maintains_raise
    | |- maintains _ (bind _ _) => apply maintains_bind; [|intros ?]
    | |- maintains _ (try_except _ _) => apply maintains_try; [|intros ?]
    | |- maintains _ next_fault => apply maintains_next_fault
    | |- maintains _ (redis_get _) => apply maintains_redis_get
    | |- maintains _ date_today => apply maintains_date_today
    | |- maintains _ now_isoformat => apply maintains_now_isoformat
    | |- maintains _ sql_now => apply maintains_sql_now
    | |- maintains _ now_ist => apply maintains_now_ist
    | |- maintains _ (db_select_stock _) => apply maintains_db_read
    | |- maintains _ (db_select_latest _) => apply maintains_db_read
    | |- maintains _ (db_select_window _ _ _) => apply maintains_db_read
    | |- maintains _ (float_of_column _) => apply maintains_float_of_column
    | |- maintains _ (int_or_zero_of_float _) => apply maintains_int_or_zero_of_float
    | |- maintains _ (match ?x with Some _ => _ | None => _ end) => destruct x
    | |- maintains _ (if ?b then _ else _) => destruct b
    | |- maintains _ (let '(_, _) := ?x in _) => destruct x
    end.

Lemma maintains_is_market_open : maintains P _is_market_open.
Proof. unfold _is_market_open. maintain. Qed.

Lemma maintains_get_yahoo_symbol symbol : maintains P (_get_yahoo_symbol symbol).
Proof. unfold _get_yahoo_symbol. maintain. Qed.

Lemma maintains_get_latest_date symbol : maintains P (_get_latest_date_in_db symbol).
Proof. unfold _get_latest_date_in_db. maintain. Qed.

Lemma maintains_get_history_from_db symbol start stop :
  maintains P (_get_history_from_db symbol start stop).
Proof. unfold _get_history_from_db. maintain. Qed.

Lemma maintains_get_latest_db_quote symbol : maintains P (_get_latest_db_quote symbol).
Proof. unfold _get_latest_db_quote. maintain. Qed.

Hypothesis P_provider : forall e w, is_provider_call e = true -> P w -> P (add_log e w).

Lemma maintains_ticker_history symbol req : maintains P (ticker_history symbol req).
Proof.
  intros w H. unfold ticker_history.
  pose proof (P_provider (EvHistory symbol req) w eq_refl H) as H1.
  simpl. destruct (w_provider w symbol req); exact H1.
Qed.

Lemma maintains_ticker_info symbol : maintains P (ticker_info symbol).
Proof.
  intros w H. unfold ticker_info.
  pose proof (P_provider (EvInfo symbol) w eq_refl H) as H1.
  simpl. destruct (w_info w symbol); exact H1.
Qed.

Ltac maintain' :=
  repeat first
    [ progress maintain
    | lazymatch goal with
      | |- maintains _ (ticker_history _ _) => apply maintains_ticker_history
      | |- maintains _ (ticker_info _) => apply maintains_ticker_info
      | |- maintains _ _is_market_open => apply maintains_is_market_open
      | |- maintains _ (_get_yahoo_symbol _) => apply maintains_get_yahoo_symbol
      | |- maintains _ (_get_latest_date_in_db _) => apply maintains_get_latest_date
      | |- maintains _ (_get_history_from_db _ _ _) => apply maintains_get_history_from_db
      | |- maintains _ (_get_latest_db_quote _) => apply maintains_get_latest_db_quote
      | |- maintains _ (_get_period_dates _) => unfold _get_period_dates
      end ].

Lemma maintains_try_variants variants : maintains P (try_variants variants).
Proof.
  induction variants as [|v rest IH]; simpl; maintain'. exact IH.
Qed.

Lemma maintains_try_periods yahoo periods hist :
  maintains P (try_periods yahoo periods hist).
Proof.
  revert hist. induction periods as [|p rest IH]; intros hist; simpl; maintain'; apply IH.
Qed.

Lemma maintains_sanitized data : maintains P (sanitized data).
Proof. unfold sanitized. maintain. Qed.

Lemma maintains_build_quote symbol stock ticker hist :
  maintains P (build_quote symbol stock ticker hist).
Proof.
  unfold build_quote.
  destruct (rev hist); maintain'; try apply maintains_sanitized; maintain'.
Qed.

Lemma maintains_fetch_quote symbol : maintains P (_fetch_quote_from_yfinance symbol).
Proof.
  unfold _fetch_quote_from_yfinance, get_safe_ticker_data_async,
    get_safe_ticker_data_sync.
  maintain'; try apply maintains_try_variants; try apply maintains_try_periods;
    try apply maintains_build_quote.
  all: try (destruct a1; maintain'; try apply maintains_try_periods;
            try apply maintains_build_quote).
Qed.

Hypothesis P_cache_set : forall key value ttl, maintains P (redis_set key value ttl).

Lemma maintains_get_quote_live symbol key : maintains P (get_quote_live symbol key).
Proof.
  unfold get_quote_live. maintain'; try apply maintains_fetch_quote; apply P_cache_set.
Qed.

Lemma maintains_get_quote symbol : maintains P (get_quote symbol).
Proof.
  unfold get_quote. maintain'; try apply maintains_get_quote_live; apply P_cache_set.
Qed.

Hypothesis P_store : forall symbol data, maintains P (_store_history_to_db symbol data).

Lemma maintains_fetch_and_store yahoo symbol start :
  maintains P (_fetch_and_store_history yahoo symbol start).
Proof.
  unfold _fetch_and_store_history. maintain'; apply P_store.
Qed.

Lemma maintains_history_error period msg : maintains P (history_error period msg).
Proof. unfold history_error. maintain. Qed.

Lemma maintains_get_history symbol period : maintains P (get_history symbol period).
Proof.
  unfold get_history, get_history_uncached.
  maintain'; try apply maintains_history_error;
    try apply maintains_fetch_and_store; try apply P_cache_set.
  all: destruct (fetch_plan _ _) as [need start]; maintain';
    try apply maintains_fetch_and_store; try apply P_cache_set.
Qed.

End WorldInvariant.


(** ** Writing the history table *)

(** X8. [_store_history_to_db] is all or nothing, whichever statement
    fails: what is committed afterwards is either the table as it was or
    the table with every bar of the frame upserted, never a part of the
    batch; and the call raises only when the rollback itself fails. *)
Theorem store_is_all_or_nothing (symbol : string) (data : DataFrame) (w : World) :
  w_txn_base w = None ->
  let r := _store_history_to_db symbol data w in
  (committed (snd r) = w_history w \/
   exists ps, fst (prepare_insert_data symbol data w) = Returned ps /\
              committed (snd r) = upsert_rows (w_sql_now w) ps (w_history w) /\
              w_history (snd r) = committed (snd r)) /\
  (fst r = Returned tt \/ fst r = Raised db_error).
Proof.
  intros Hb. cbv zeta.
  destruct (prepare_insert_data_pure symbol data) as [r Hr].
  unfold _store_history_to_db, try_except, bind. rewrite Hr.
  destruct w as [up cache stocks history base faults provider info today iso
                 now ist later log].
  simpl in Hb. subst base.
  destruct r as [[|p ps]|e].
  - simpl. auto.
  - unfold sql_now, db_write, db_commit, db_rollback, db_call, bind, next_fault,
      ret, raise, committed.
    destruct faults as [|[] [|[] [|[] faults]]]; simpl; eauto 10.
  - unfold db_rollback, db_call, bind, next_fault, ret, raise, committed.
    destruct faults as [|[] faults]; simpl; auto.
Qed.

Lemma store_is_all_or_nothing_witness :
  let w := sample_world [abc_stock] [abc_bar 739922] abc_provider wednesday_noon in
  let r := _store_history_to_db "abc" abc_frame (set_faults [false; true] w) in
  (committed (snd r) = w_history (set_faults [false; true] w) \/
   exists ps, fst (prepare_insert_data "abc" abc_frame (set_faults [false; true] w))
                = Returned ps /\
              committed (snd r)
                = upsert_rows (w_sql_now (set_faults [false; true] w)) ps
                              (w_history (set_faults [false; true] w)) /\
              w_history (snd r) = committed (snd r)) /\
  (fst r = Returned tt \/ fst r = Raised db_error).
Proof.
  apply (store_is_all_or_nothing "abc" abc_frame
           (set_faults [false; true]
              (sample_world [abc_stock] [abc_bar 739922] abc_provider wednesday_noon))).
  reflexivity.
Defined.

Lemma not_nan_float_or_none x : not_nan (float_or_none x) = true.
Proof. unfold float_or_none. destruct x; reflexivity. Qed.

Lemma prepare_insert_data_clean symbol data w ps w' :
  prepare_insert_data symbol data w = (Returned ps, w') ->
  forallb clean_params ps = true.
Proof.
  revert ps w w'. induction data as [|row rest IH]; simpl; intros ps w w'.
  - intros [= <- _]. reflexivity.
  - unfold bind, bar_params, bind, int_or_none, ret, raise.
    destruct (isnan (r_volume row)); [|destruct (int_of_float (r_volume row))];
      try discriminate;
      (destruct (prepare_insert_data symbol rest w) as [[ps'|e] w1] eqn:E;
       [|discriminate]; intros [= <- _]; simpl;
       unfold clean_params at 1; simpl;
       rewrite !not_nan_float_or_none; exact (IH _ _ _ E)).
Qed.

Lemma upsert_row_clean now table p :
  forallb nan_free table = true -> clean_params p = true ->
  forallb nan_free (upsert_row now table p) = true.
Proof.
  intros Ht Hp. unfold upsert_row. destruct (existsb (conflicts p) table).
  - induction table as [|r t IH]; simpl in *; [reflexivity|].
    apply andb_true_iff in Ht as [Hr Ht]. rewrite (IH Ht), andb_true_r.
    destruct (conflicts p r); [exact Hp | exact Hr].
  - rewrite forallb_app, Ht. simpl. rewrite andb_true_r. exact Hp.
Qed.

Lemma upsert_rows_clean now ps table :
  forallb nan_free table = true -> forallb clean_params ps = true ->
  forallb nan_free (upsert_rows now ps table) = true.
Proof.
  unfold upsert_rows. revert table.
  induction ps as [|p ps IH]; intros table Ht Hps; simpl in *; [exact Ht|].
  apply andb_true_iff in Hps as [Hp Hps].
  apply IH; [now apply upsert_row_clean | exact Hps].
Qed.

Lemma store_keeps_clean_table symbol data :
  maintains clean_table (_store_history_to_db symbol data).
Proof.
  intros w [Hh Hc].
  destruct (prepare_insert_data_pure symbol data) as [r Hr].
  pose proof (prepare_insert_data_clean symbol data w) as Hclean.
  rewrite Hr in Hclean.
  unfold _store_history_to_db, try_except, bind. rewrite Hr.
  unfold clean_table, committed in *.
  destruct w as [up cache stocks history base faults provider info today iso
                 now ist later log].
  simpl in Hh, Hc.
  destruct r as [[|p ps]|e].
  - simpl. auto.
  - specialize (Hclean (p :: ps) _ eq_refl).
    pose proof (upsert_rows_clean now (p :: ps) history Hh Hclean) as Hu.
    unfold sql_now, db_write, db_commit, db_rollback, db_call, bind, next_fault,
      ret, raise.
    destruct base as [b|], faults as [|[] [|[] [|[] faults]]]; simpl; auto.
  - unfold db_rollback, db_call, bind, next_fault, ret, raise.
    destruct base as [b|], faults as [|[] faults]; simpl; auto.
Qed.

Lemma cache_set_keeps_table (P : list StockHistory -> option (list StockHistory) -> Prop)
    key value ttl :
  maintains (fun w => P (w_history w) (w_txn_base w)) (redis_set key value ttl).
Proof.
  intros w H. unfold redis_set, bind, next_fault, ret. cbn.
  destruct (w_redis_up w); cbn; [|exact H].
  destruct (w_faults w) as [|[] f]; cbn; exact H.
Qed.

(** X9. No NaN price ever reaches the history table: a table without
    NaN prices stays so through [_store_history_to_db] and through
    [get_history], whatever the provider answers and whichever call
    fails (a NaN price of the provider is stored as NULL). *)
Theorem stored_prices_are_never_nan (symbol period : string) (data : DataFrame)
    (w : World) :
  clean_table w ->
  clean_table (snd (_store_history_to_db symbol data w)) /\
  clean_table (snd (get_history symbol period w)).
Proof.
  intros H. split; [now apply store_keeps_clean_table|].
  revert w H. apply maintains_get_history.
  - intros f w H. exact H.
  - intros e w _ H. exact H.
  - intros key value ttl.
    exact (cache_set_keeps_table
             (fun h b => forallb nan_free h = true /\
                         forallb nan_free (match b with Some x => x | None => h end) = true)
             key value ttl).
  - apply store_keeps_clean_table.
Qed.

Lemma stored_prices_are_never_nan_witness :
  let w := sample_world [abc_stock] [] abc_nan_provider wednesday_noon in
  clean_table (snd (_store_history_to_db "abc" nan_frame w)) /\
  clean_table (snd (get_history "abc" "6M" w)).
Proof.
  apply (stored_prices_are_never_nan "abc" "6M" nan_frame
           (sample_world [abc_stock] [] abc_nan_provider wednesday_noon)).
  split; reflexivity.
Defined.

(** ** Fetching a gap *)

Lemma prepare_insert_data_overflow symbol data w :
  Exists (fun row => isinf (r_volume row) = true) data ->
  exists e, prepare_insert_data symbol data w = (Raised e, w).
Proof.
  induction 1 as [row rest Hinf | row rest _ [e IH]]; simpl.
  - unfold bind, bar_params, bind, int_or_none.
    destruct (r_volume row); try discriminate. simpl. eauto.
  - unfold bind, bar_params, bind, int_or_none, ret, raise.
    destruct (isnan (r_volume row)); [rewrite IH; eauto|].
    destruct (int_of_float (r_volume row)); [rewrite IH; eauto | eauto].
Qed.

Lemma fetch_step yahoo start (k : DataFrame -> M unit) w :
  bind (match start with
        | Some s => bind date_today (fun today => ticker_history yahoo (ReqRange s (today + 1)))
        | None => ticker_history yahoo (ReqPeriod "max")
        end) k w =
  match w_provider w yahoo (fetch_request start (w_today w)) with
  | Some df => k df (add_log (EvHistory yahoo (fetch_request start (w_today w))) w)
  | None => (Raised provider_error,
             add_log (EvHistory yahoo (fetch_request start (w_today w))) w)
  end.
Proof.
  unfold bind, date_today, ticker_history, fetch_request.
  destruct start; cbn; destruct (w_provider w yahoo _); reflexivity.
Qed.

(** X10. [_fetch_and_store_history] leaves the table as it was, and does
    not raise, when the provider raises, when it answers with an empty
    frame, and when one row of the frame has an infinite volume: the
    whole batch is dropped then, the rows before and after it included. *)
Theorem unusable_frame_leaves_table (yahoo symbol : string) (start : option Z)
    (w : World) :
  w_txn_base w = None ->
  (no_data (w_provider w yahoo (fetch_request start (w_today w))) \/
   exists hist,
     w_provider w yahoo (fetch_request start (w_today w)) = Some hist /\
     Exists (fun row => isinf (r_volume row) = true) hist) ->
  let r := _fetch_and_store_history yahoo symbol start w in
  fst r = Returned tt /\
  w_history (snd r) = w_history w /\
  committed (snd r) = w_history w /\
  history_requests (snd r)
    = (history_requests w ++ [(yahoo, fetch_request start (w_today w))])%list.
Proof.
  intros Hb Hcase. cbv zeta.
  unfold _fetch_and_store_history, try_except. rewrite fetch_step.
  assert (L : forall w1 : World,
            history_requests (add_log (EvHistory yahoo (fetch_request start (w_today w))) w1)
            = (history_requests w1 ++ [(yahoo, fetch_request start (w_today w))])%list).
  { intros w1. unfold history_requests. simpl. rewrite flat_map_app. reflexivity. }
  destruct Hcase as [[-> | ->] | [hist [-> Hinf]]].
  - simpl. unfold committed. simpl. rewrite Hb. auto.
  - simpl. unfold committed. simpl. rewrite Hb. auto.
  - assert (Hne : df_empty hist = false) by (destruct Hinf; reflexivity).
    rewrite Hne. change (negb false) with true. cbv iota.
    set (w1 := add_log _ w).
    destruct (prepare_insert_data_overflow symbol hist w1 Hinf) as [e He].
    unfold _store_history_to_db, try_except, bind. cbv beta. rewrite He.
    unfold db_rollback, db_call, bind, next_fault, ret, raise, committed.
    subst w1. destruct w as [up cache stocks history base faults provider info
                             today iso now ist later log].
    simpl in Hb. subst base.
    destruct faults as [|[] faults]; simpl; repeat split;
      unfold history_requests; simpl; now rewrite flat_map_app.
Qed.

Lemma unusable_frame_leaves_table_witness :
  let w := sample_world [abc_stock] [abc_bar 739914] inf_provider wednesday_noon in
  let r := _fetch_and_store_history "ABC.NS" "abc" (Some 739915) w in
  fst r = Returned tt /\
  w_history (snd r) = w_history w /\
  committed (snd r) = w_history w /\
  history_requests (snd r)
    = (history_requests w ++ [("ABC.NS", fetch_request (Some 739915) (w_today w))])%list.
Proof.
  apply (unusable_frame_leaves_table "ABC.NS" "abc" (Some 739915)
           (sample_world [abc_stock] [abc_bar 739914] inf_provider wednesday_noon)).
  - reflexivity.
  - right. exists inf_frame. split; [reflexivity|].
    apply Exists_cons_tl, Exists_cons_hd. reflexivity.
Defined.

(** ** Reading the history table *)

Lemma insert_by_date_perm r l : insert_by_date r l ≡ₚ r :: l.
Proof.
  induction l as [|x l IH]; simpl; [reflexivity|].
  destruct (h_date r <? h_date x); [reflexivity|].
  rewrite IH. apply Permutation_swap.
Qed.

Lemma sort_by_date_perm l : sort_by_date l ≡ₚ l.
Proof.
  induction l as [|x l IH]; simpl; [reflexivity|].
  rewrite insert_by_date_perm. now rewrite IH.
Qed.

Lemma insert_by_date_ascending r l : ascending l -> ascending (insert_by_date r l).
Proof.
  induction l as [|x l IH]; simpl; intros H.
  - split; [intros r' []|exact I].
  - destruct H as [Hx Hl]. destruct (h_date r <? h_date x) eqn:E.
    + apply Z.ltb_lt in E. simpl. split; [|split; assumption].
      intros r' [<- | Hr']; [lia|]. specialize (Hx r' Hr'). lia.
    + apply Z.ltb_ge in E. simpl. split; [|now apply IH].
      intros r' Hr'. apply in_insert_by_date in Hr' as [-> | Hr']; [lia | now apply Hx].
Qed.

Lemma sort_by_date_ascending l : ascending (sort_by_date l).
Proof.
  induction l as [|x l IH]; simpl; [exact I|]. now apply insert_by_date_ascending.
Qed.

(** X11. When the query does not fail, [_get_history_from_db] returns one
    entry for each stored row of the symbol within the window, no other,
    in ascending date order, and changes nothing. *)
Theorem history_rows_in_date_order (symbol : string) (start stop : option Z)
    (w : World) :
  w_faults w = [] ->
  exists rows,
    _get_history_from_db symbol start stop w = (Returned (map history_entry rows), w) /\
    ascending rows /\
    rows ≡ₚ List.filter (in_window (upper symbol) start stop) (w_history w) /\
    forall r, In r rows <->
      In r (w_history w) /\ h_symbol r = upper symbol /\
      match start with Some a => a <= h_date r | None => True end /\
      match stop with Some b => h_date r <= b | None => True end.
Proof.
  intros Hf. eexists. split; [apply get_history_from_db_quiet; exact Hf|].
  split; [apply sort_by_date_ascending|].
  split; [apply sort_by_date_perm|].
  intros r. rewrite <- !list_elem_of_In, (sort_by_date_perm _), !list_elem_of_In.
  rewrite filter_In. unfold in_window.
  rewrite !andb_true_iff, String.eqb_eq.
  destruct start, stop; rewrite ?Z.leb_le; intuition.
Qed.

Lemma history_rows_in_date_order_witness :
  let w := sample_world [abc_stock] [abc_bar 739923; abc_bar 739914]
                        abc_provider wednesday_noon in
  exists rows,
    _get_history_from_db "abc" (Some 739900) (Some 739924) w
      = (Returned (map history_entry rows), w) /\
    ascending rows /\
    rows ≡ₚ List.filter (in_window (upper "abc") (Some 739900) (Some 739924))
                        (w_history w) /\
    forall r, In r rows <->
      In r (w_history w) /\ h_symbol r = upper "abc" /\
      739900 <= h_date r /\ h_date r <= 739924.
Proof.
  apply (history_rows_in_date_order "abc" (Some 739900) (Some 739924)
           (sample_world [abc_stock] [abc_bar 739923; abc_bar 739914]
                         abc_provider wednesday_noon)).
  reflexivity.
Defined.


(** ** The cache in front of the service *)

Lemma same_data_refl w : same_data w w.
Proof. unfold same_data. repeat split. Qed.

Lemma same_data_faults w0 f w : same_data w0 w -> same_data w0 (set_faults f w).
Proof. intros H. exact H. Qed.

Lemma same_data_clock w0 t l w : same_data w0 w -> same_data w0 (set_ist t l w).
Proof. intros H. exact H. Qed.

Lemma same_data_stock symbol w0 w : same_data w0 w -> stock_of symbol w = stock_of symbol w0.
Proof. intros H. unfold stock_of. now rewrite (proj1 (proj2 (proj2 H))). Qed.

Lemma same_data_cached key w0 w : same_data w0 w -> cached_value key w = cached_value key w0.
Proof.
  intros (H1 & H2 & _). unfold cached_value. now rewrite H1, H2.
Qed.

(** What a computation leaves, from what it keeps. *)
Lemma maintains_run {A} (P : World -> Prop) (m : M A) w r w' :
  maintains P m -> P w -> m w = (r, w') -> P w'.
Proof. intros Hm H E. specialize (Hm w H). now rewrite E in Hm. Qed.

Lemma redis_get_same key w0 : maintains (same_data w0) (redis_get key).
Proof. apply maintains_redis_get. exact (same_data_faults w0). Qed.

Lemma redis_get_result key w :
  exists w', (redis_get key w = (Returned (cached_value key w), w') \/
              redis_get key w = (Returned None, w')) /\ same_data w w'.
Proof.
  pose proof (redis_get_same key w w (same_data_refl w)) as S.
  unfold redis_get, cached_value, bind, next_fault, ret in *.
  destruct (w_redis_up w); simpl in *; [|eauto].
  destruct (w_faults w) as [|[] f]; simpl in *; eauto.
Qed.

Lemma select_stock_unknown symbol w :
  stock_of symbol w = None ->
  exists w', (db_select_stock (upper symbol) w = (Returned None, w') \/
              db_select_stock (upper symbol) w = (Raised db_error, w')) /\
             same_data w w'.
Proof.
  intros Hs. unfold stock_of in Hs.
  unfold db_select_stock, db_call, bind, next_fault, raise.
  destruct (w_faults w) as [|[] f]; simpl; rewrite ?Hs;
    eexists; (split; [eauto|]); unfold same_data; simpl; repeat split.
Qed.

Lemma yahoo_symbol_unknown symbol w :
  stock_of symbol w = None ->
  exists w', _get_yahoo_symbol symbol w = (Returned None, w') /\ same_data w w'.
Proof.
  intros Hs. unfold _get_yahoo_symbol, try_except, bind.
  destruct (select_stock_unknown symbol w Hs) as (w' & [-> | ->] & S); eauto.
Qed.

Lemma latest_db_quote_same symbol w0 : maintains (same_data w0) (_get_latest_db_quote symbol).
Proof.
  apply maintains_get_latest_db_quote. exact (same_data_faults w0).
Qed.

Lemma latest_db_quote_unknown symbol w :
  stock_of symbol w = None ->
  exists w', _get_latest_db_quote symbol w = (Returned None, w') /\ same_data w w'.
Proof.
  intros Hs.
  pose proof (latest_db_quote_same symbol w w (same_data_refl w)) as S.
  unfold _get_latest_db_quote, try_except, bind in *.
  destruct (db_select_latest (upper symbol) w) as [[[row|]|e] w1] eqn:E1.
  - assert (S1 : same_data w w1).
    { eapply (maintains_run (same_data w)); [|apply same_data_refl|exact E1].
      apply maintains_db_read. exact (same_data_faults w). }
    assert (Hs1 : stock_of symbol w1 = None) by now rewrite (same_data_stock symbol w w1 S1).
    destruct (select_stock_unknown symbol w1 Hs1) as (w2 & [E2 | E2] & S2);
      rewrite E2 in *; simpl in *; eauto.
  - simpl in *. eauto.
  - simpl in *. eauto.
Qed.

Lemma fetch_quote_unknown symbol w :
  stock_of symbol w = None ->
  exists w', _fetch_quote_from_yfinance symbol w = (Returned None, w') /\ same_data w w'.
Proof.
  intros Hs. unfold _fetch_quote_from_yfinance, try_except, bind.
  destruct (select_stock_unknown symbol w Hs) as (w' & [-> | ->] & S); eauto.
Qed.

Lemma is_market_open_same w :
  exists w', _is_market_open w = (Returned (market_hours (w_ist_now w)), w') /\
             same_data w w'.
Proof.
  unfold _is_market_open, bind, now_ist, ret.
  eexists. split; [reflexivity|].
  destruct (w_ist_later w); [apply same_data_refl | apply same_data_clock, same_data_refl].
Qed.

Lemma same_data_trans w1 w2 w3 : same_data w1 w2 -> same_data w2 w3 -> same_data w1 w3.
Proof.
  unfold same_data. intros H1 H2.
  repeat match goal with H : _ /\ _ |- _ => destruct H end.
  repeat split; congruence.
Qed.

(** X12. A truthy cache entry ends [get_quote] and [get_history] at once:
    the cached value is returned as it is, and no database read, clock
    reading, provider call or cache write takes place. *)
Theorem cache_hit_short_circuits (symbol period : string) (w : World) (hit : pyval) :
  w_faults w = [] ->
  truthy hit = true ->
  (cached_value (quote_key symbol) w = Some hit ->
     get_quote symbol w = (Returned (Some hit), w)) /\
  (cached_value (history_key symbol period) w = Some hit ->
     get_history symbol period w = (Returned hit, w)).
Proof.
  intros Hf Ht. split; intros Hc.
  - unfold get_quote, try_except, bind.
    rewrite (redis_get_quiet _ w Hf), Hc.
    change (opt_truthy (Some hit)) with (truthy hit). rewrite Ht. reflexivity.
  - unfold get_history, try_except, bind.
    rewrite (redis_get_quiet _ w Hf), Hc.
    change (opt_truthy (Some hit)) with (truthy hit). rewrite Ht. reflexivity.
Qed.

Lemma cache_hit_short_circuits_witness :
  get_quote "abc" warm_world = (Returned (Some cached_answer), warm_world) /\
  get_history "abc" "6M" warm_world = (Returned cached_answer, warm_world).
Proof.
  destruct (cache_hit_short_circuits "abc" "6M" warm_world cached_answer
              eq_refl eq_refl) as [Hq Hh].
  split; [apply Hq | apply Hh]; vm_compute; reflexivity.
Defined.

Lemma history_response_truthy data need ts period :
  truthy (history_response data need ts period) = true.
Proof. reflexivity. Qed.

(** X13. After a [get_history] that went to the store (Redis connected,
    no call failing, a stock with a Yahoo symbol), the response is in the
    cache under the key of the symbol and period with the historical TTL,
    and the same call made again returns the same response and changes
    nothing: no provider request, no database read. *)
Theorem history_then_served_from_cache (symbol period : string) (w : World)
    (stock : Stock) (yahoo : string) :
  w_faults w = [] -> w_txn_base w = None -> w_redis_up w = true ->
  opt_truthy (cached_value (history_key symbol period) w) = false ->
  stock_of symbol w = Some stock ->
  s_yahoo_symbol stock = Some yahoo ->
  str_truthy yahoo = true ->
  exists v w',
    get_history symbol period w = (Returned v, w') /\
    w_cache w' !! history_key symbol period = Some (v, CACHE_TTL_HISTORICAL) /\
    get_history symbol period w' = (Returned v, w').
Proof.
  intros Hf Hb Hup Hmiss Hs Hy Hty.
  assert (G : exists v w',
    get_history symbol period w = (Returned v, w') /\
    w_cache w' !! history_key symbol period = Some (v, CACHE_TTL_HISTORICAL) /\
    w_faults w' = [] /\ w_redis_up w' = true /\ truthy v = true).
  { unfold get_history, try_except, bind at 1.
    rewrite (redis_get_quiet _ w Hf), Hmiss.
    unfold get_history_uncached, bind at 1.
    rewrite (get_yahoo_symbol_quiet symbol w Hf), Hs, Hy, Hty.
    unfold bind at 1. unfold _get_period_dates, bind at 1, date_today, ret.
    destruct (period_dates (w_today w) period) as [start_date end_date] eqn:Ew.
    unfold bind at 1. rewrite (get_latest_date_quiet symbol w Hf).
    unfold bind at 1.
    destruct (fetch_plan _ _) as [need_fetch fetch_start] eqn:Ep.
    destruct need_fetch.
    - unfold bind at 1.
      destruct (fetch_and_store_quiet yahoo symbol fetch_start w Hf Hb) as [table ->].
      unfold bind at 1. rewrite get_history_from_db_quiet by exact Hf.
      unfold bind at 1, now_isoformat. unfold bind.
      rewrite redis_set_quiet by exact Hf. rewrite history_response_wire. unfold ret.
      eexists _, _. split; [reflexivity|]. cbn. rewrite Hup. cbn.
      rewrite lookup_insert_eq. auto.
    - unfold bind at 1, ret.
      unfold bind at 1. rewrite get_history_from_db_quiet by exact Hf.
      unfold bind at 1, now_isoformat. unfold bind.
      rewrite redis_set_quiet by exact Hf. rewrite history_response_wire.
      eexists _, _. split; [reflexivity|]. cbn. rewrite Hup. cbn.
      rewrite lookup_insert_eq. auto. }
  destruct G as (v & w' & E & Hc & Hf' & Hup' & Ht).
  exists v, w'. split; [exact E|]. split; [exact Hc|].
  unfold get_history, try_except, bind.
  rewrite (redis_get_quiet _ w' Hf'). unfold cached_value. rewrite Hup', Hc.
  change (opt_truthy (fst <$> Some (v, CACHE_TTL_HISTORICAL))) with (truthy v).
  rewrite Ht. reflexivity.
Qed.

Lemma history_then_served_from_cache_witness :
  let w := sample_world [abc_stock] [] abc_provider wednesday_noon in
  exists v w',
    get_history "abc" "6M" w = (Returned v, w') /\
    w_cache w' !! history_key "abc" "6M" = Some (v, CACHE_TTL_HISTORICAL) /\
    get_history "abc" "6M" w' = (Returned v, w').
Proof.
  apply (history_then_served_from_cache "abc" "6M"
           (sample_world [abc_stock] [] abc_provider wednesday_noon)
           abc_stock "ABC.NS"); reflexivity.
Defined.

(** X14. For a symbol without a stock row and without a cache entry,
    whichever call fails: [get_quote] returns nothing and [get_history]
    returns the error result "Symbol not found in database"; neither
    calls the provider, writes the cache or touches the tables. *)
Theorem unknown_symbol_costs_nothing (symbol period : string) (w : World) :
  stock_of symbol w = None ->
  (opt_truthy (cached_value (quote_key symbol) w) = false ->
     exists w', get_quote symbol w = (Returned None, w') /\ same_data w w') /\
  (opt_truthy (cached_value (history_key symbol period) w) = false ->
     exists v w',
       get_history symbol period w = (Returned v, w') /\ same_data w w' /\
       field "error" v = Some (PStr "Symbol not found in database") /\
       error_result v).
Proof.
  intros Hs. split; intros Hmiss.
  - assert (L : forall w2, same_data w w2 ->
              exists w', get_quote_live symbol (quote_key symbol) w2 = (Returned None, w') /\
                         same_data w w').
    { intros w2 S2. unfold get_quote_live, bind.
      assert (Hs2 : stock_of symbol w2 = None) by now rewrite (same_data_stock symbol w w2 S2).
      destruct (fetch_quote_unknown symbol w2 Hs2) as (w3 & -> & S3).
      simpl. eexists. split; [reflexivity|]. eapply same_data_trans; eassumption. }
    unfold get_quote, try_except, bind.
    destruct (redis_get_result (quote_key symbol) w) as (w1 & [-> | ->] & S1).
    + rewrite Hmiss.
      destruct (is_market_open_same w1) as (w2 & -> & S2).
      pose proof (same_data_trans _ _ _ S1 S2) as S12.
      destruct (market_hours (w_ist_now w1)); cbn [negb].
      * destruct (L w2 S12) as (w' & -> & S'). eauto.
      * assert (Hs2 : stock_of symbol w2 = None)
          by now rewrite (same_data_stock symbol w w2 S12).
        destruct (latest_db_quote_unknown symbol w2 Hs2) as (w3 & -> & S3).
        cbn [opt_truthy].
        destruct (L w3 (same_data_trans _ _ _ S12 S3)) as (w' & -> & S'). eauto.
    + cbn [opt_truthy].
      destruct (is_market_open_same w1) as (w2 & -> & S2).
      pose proof (same_data_trans _ _ _ S1 S2) as S12.
      destruct (market_hours (w_ist_now w1)); cbn [negb].
      * destruct (L w2 S12) as (w' & -> & S'). eauto.
      * assert (Hs2 : stock_of symbol w2 = None)
          by now rewrite (same_data_stock symbol w w2 S12).
        destruct (latest_db_quote_unknown symbol w2 Hs2) as (w3 & -> & S3).
        cbn [opt_truthy].
        destruct (L w3 (same_data_trans _ _ _ S12 S3)) as (w' & -> & S'). eauto.
  - assert (L : forall w1, same_data w w1 ->
              exists v w',
                get_history_uncached symbol period (history_key symbol period) w1
                  = (Returned v, w') /\ same_data w w' /\
                field "error" v = Some (PStr "Symbol not found in database") /\
                error_result v).
    { intros w1 S1. unfold get_history_uncached, bind.
      assert (Hs1 : stock_of symbol w1 = None) by now rewrite (same_data_stock symbol w w1 S1).
      destruct (yahoo_symbol_unknown symbol w1 Hs1) as (w2 & -> & S2).
      unfold history_error, bind, now_isoformat, ret.
      eexists _, _. split; [reflexivity|].
      split; [eapply same_data_trans; eassumption|].
      split; [reflexivity|]. unfold error_result. simpl. eauto. }
    unfold get_history, try_except, bind.
    destruct (redis_get_result (history_key symbol period) w) as (w1 & [-> | ->] & S1).
    + rewrite Hmiss. destruct (L w1 S1) as (v & w' & -> & H). eauto.
    + cbn [opt_truthy]. destruct (L w1 S1) as (v & w' & -> & H). eauto.
Qed.

Lemma unknown_symbol_costs_nothing_witness :
  let w := set_faults [false; true]
             (sample_world [abc_stock] [abc_bar 739923] abc_provider saturday_noon) in
  (exists w', get_quote "xyz" w = (Returned None, w') /\ same_data w w') /\
  (exists v w',
     get_history "xyz" "1M" w = (Returned v, w') /\ same_data w w' /\
     field "error" v = Some (PStr "Symbol not found in database") /\
     error_result v).
Proof.
  pose proof (unknown_symbol_costs_nothing "xyz" "1M"
                (set_faults [false; true]
                   (sample_world [abc_stock] [abc_bar 739923] abc_provider saturday_noon))
                eq_refl) as [Hq Hh].
  split; [apply Hq | apply Hh]; reflexivity.
Defined.

(** ** The live fetch *)

Lemma cache_writes_provider e w :
  is_provider_call e = true -> cache_writes (add_log e w) = cache_writes w.
Proof.
  intros H. unfold cache_writes. simpl. rewrite flat_map_app.
  destruct e; try discriminate; simpl; now rewrite app_nil_r.
Qed.

Lemma fetch_quote_leaves_cache symbol w :
  let w' := snd (_fetch_quote_from_yfinance symbol w) in
  cache_writes w' = cache_writes w /\ w_cache w' = w_cache w.
Proof.
  apply (maintains_fetch_quote
           (fun w' => cache_writes w' = cache_writes w /\ w_cache w' = w_cache w)).
  - intros f w1 H. exact H.
  - intros e w1 He [H1 H2]. split; [|exact H2].
    now rewrite cache_writes_provider.
  - split; reflexivity.
Qed.

(** The live step of [get_quote]: the fetch gives nothing, so the lines
    that choose the TTL and write the cache are not reached. *)
Lemma get_quote_live_none symbol key w :
  exists w',
    get_quote_live symbol key w = (Returned None, w') /\
    cache_writes w' = cache_writes w /\ w_cache w' = w_cache w.
Proof.
  pose proof (fetch_quote_leaves_cache symbol w) as [Hw Hc].
  destruct (fetch_quote_none symbol w) as (w' & E). rewrite E in Hw, Hc.
  exists w'. unfold get_quote_live, bind. rewrite E. simpl. auto.
Qed.

(** C5.  The provider-fetch step of get_quote never caches anything: the
    fetch builds the dictionary of the quote and hands it to
    [sanitize_for_json], which raises on it; the fetch answers [None],
    and the step returns [None] before the TTL is chosen.  So whenever
    get_quote reaches that step, because the market is open or because it
    is closed and the store lookup gave nothing, get_quote returns [None]
    and writes nothing to the cache.  On a Wednesday at noon with a
    provider that has the six-month history of ABC.NS, get_quote("abc")
    asks the provider, returns [None] and leaves the cache empty; so it
    does on a Saturday with no bar stored. *)
Theorem C5_live_fetch_caches_nothing :
  (forall symbol key w, exists w',
     get_quote_live symbol key w = (Returned None, w') /\
     cache_writes w' = cache_writes w /\ w_cache w' = w_cache w) /\
  (forall symbol w w1 w2 w3 cached is_open,
     redis_get (quote_key symbol) w = (Returned cached, w1) ->
     opt_truthy cached = false ->
     _is_market_open w1 = (Returned is_open, w2) ->
     (is_open = true /\ w3 = w2 \/
      is_open = false /\
      exists db_quote,
        _get_latest_db_quote symbol w2 = (Returned db_quote, w3) /\
        opt_truthy db_quote = false) ->
     exists w',
       get_quote symbol w = (Returned None, w') /\
       cache_writes w' = cache_writes w3 /\ w_cache w' = w_cache w3) /\
  (let w := sample_world [abc_stock] [] abc_provider wednesday_noon in
   market_hours (w_ist_now w) = true /\
   w_provider w "ABC.NS" (ReqPeriod "6mo") = Some abc_frame /\
   history_requests (snd (get_quote "abc" w)) = [("ABC.NS", ReqPeriod "6mo")] /\
   fst (get_quote "abc" w) = Returned None /\
   cache_writes (snd (get_quote "abc" w)) = [] /\
   w_cache (snd (get_quote "abc" w)) = w_cache w) /\
  (let w := sample_world [abc_stock] [] abc_provider saturday_noon in
   market_hours (w_ist_now w) = false /\
   latest_bar "abc" w = None /\
   history_requests (snd (get_quote "abc" w)) = [("ABC.NS", ReqPeriod "6mo")] /\
   fst (get_quote "abc" w) = Returned None /\
   cache_writes (snd (get_quote "abc" w)) = []).
Proof.
  split; [exact get_quote_live_none|]. split.
  - intros symbol w w1 w2 w3 cached is_open Hget Hmiss Hopen Hreach.
    destruct (get_quote_live_none symbol (quote_key symbol) w3) as (w' & E & Hw & Hc).
    exists w'. split; [|split; assumption].
    unfold get_quote, try_except, bind at 1. rewrite Hget, Hmiss.
    unfold bind at 1. rewrite Hopen.
    destruct Hreach as [[-> ->]|(-> & db_quote & Hdb & Hnone)].
    + change (negb true) with false. cbv iota. now rewrite E.
    + change (negb false) with true. cbv iota.
      unfold bind at 1. rewrite Hdb, Hnone. now rewrite E.
  - split; repeat split; vm_compute; reflexivity.
Qed.

(** ** Where a quote comes from *)

Lemma db_quote_source symbol w q w' :
  _get_latest_db_quote symbol w = (Returned (Some q), w') ->
  field "source" q = Some (PStr "database").
Proof.
  unfold _get_latest_db_quote, try_except at 1. intros H.
  destruct (bind (db_select_latest (upper symbol)) _ w) as [[r|e] w1] eqn:B;
    [|discriminate H].
  injection H as -> ->. unfold bind at 1 in B. next_call B.
  destruct a as [row|]; [|discriminate B].
  unfold bind at 1 in B. next_call B.
  destruct a as [stock|]; [|discriminate B].
  unfold bind at 1 in B. next_call B. unfold bind at 1 in B. next_call B.
  unfold bind at 1 in B. next_call B. unfold bind at 1 in B. next_call B.
  unfold bind, now_isoformat, ret in B. injection B as <- _. reflexivity.
Qed.

Lemma cache_writes_kept {A} (m : M A) w r w' :
  (forall w0, maintains (fun w1 => cache_writes w1 = cache_writes w0) m) ->
  m w = (r, w') -> cache_writes w' = cache_writes w.
Proof.
  intros Hm E. exact (maintains_run _ m w r w' (Hm w) eq_refl E).
Qed.

(** X15. Without a cache hit, [get_quote] gives a quote only when the
    market is closed, and that quote is the one built from the store: its
    source is "database" and it is written to the cache under the key of
    the symbol with ten times the real-time TTL.  In every other case
    [get_quote] answers [None] and writes nothing to the cache: no quote
    of the provider is ever returned. *)
Theorem uncached_quote_is_from_store (symbol : string) (w w1 : World)
    (cached : option pyval) :
  redis_get (quote_key symbol) w = (Returned cached, w1) ->
  opt_truthy cached = false ->
  exists r w',
    get_quote symbol w = (Returned r, w') /\
    match r with
    | None => cache_writes w' = cache_writes w
    | Some q =>
        market_hours (w_ist_now w1) = false /\
        field "source" q = Some (PStr "database") /\
        cache_writes w' =
          (cache_writes w ++ [(quote_key symbol, q, CACHE_TTL_REALTIME * 10)])%list
    end.
Proof.
  intros Hget Hmiss.
  assert (C1 : cache_writes w1 = cache_writes w).
  { apply (cache_writes_kept (redis_get (quote_key symbol)) w (Returned cached));
      [|exact Hget].
    intros w0. apply maintains_redis_get. intros f w2 H. exact H. }
  unfold get_quote, try_except, bind at 1. rewrite Hget, Hmiss.
  unfold bind at 1.
  destruct (is_market_open_run w1) as (w2 & -> & _ & _ & _ & _ & _ & _ & Hl2).
  assert (C2 : cache_writes w2 = cache_writes w) by (unfold cache_writes in *; congruence).
  destruct (market_hours (w_ist_now w1)) eqn:Hm.
  - change (negb true) with false. cbv iota.
    destruct (get_quote_live_none symbol (quote_key symbol) w2) as (w' & -> & Hw & _).
    exists None, w'. split; [reflexivity | congruence].
  - change (negb false) with true. cbv iota. unfold bind at 1.
    destruct (_get_latest_db_quote symbol w2) as [[db|e] w3] eqn:Edb.
    + assert (C3 : cache_writes w3 = cache_writes w).
      { rewrite <- C2.
        apply (cache_writes_kept (_get_latest_db_quote symbol) w2 (Returned db));
          [|exact Edb].
        intros w0. apply maintains_get_latest_db_quote. intros f w4 H. exact H. }
      destruct (opt_truthy db) eqn:Ht.
      * destruct db as [q|]; [|discriminate Ht].
        unfold bind at 1.
        destruct (redis_set_run (quote_key symbol) q (CACHE_TTL_REALTIME * 10) w3)
          as (b & w4 & -> & Hlog & _).
        unfold ret. exists (Some q), w4. split; [reflexivity|].
        split; [reflexivity|]. split; [exact (db_quote_source _ _ _ _ Edb)|].
        unfold cache_writes in *. rewrite Hlog, flat_map_app, C3. reflexivity.
      * destruct (get_quote_live_none symbol (quote_key symbol) w3) as (w' & -> & Hw & _).
        exists None, w'. split; [reflexivity | congruence].
    + assert (C3 : cache_writes w3 = cache_writes w).
      { rewrite <- C2.
        apply (cache_writes_kept (_get_latest_db_quote symbol) w2 (Raised e));
          [|exact Edb].
        intros w0. apply maintains_get_latest_db_quote. intros f w4 H. exact H. }
      unfold ret. exists None, w3. split; [reflexivity | exact C3].
Qed.

Lemma uncached_quote_is_from_store_witness :
  exists r w',
    get_quote "abc" (sample_world [abc_stock] [abc_bar 739923] abc_provider saturday_noon)
      = (Returned r, w') /\
    match r with
    | None => cache_writes w' = []
    | Some q =>
        market_hours (Some saturday_noon) = false /\
        field "source" q = Some (PStr "database") /\
        cache_writes w' = ([] ++ [(quote_key "abc", q, CACHE_TTL_REALTIME * 10)])%list
    end.
Proof.
  apply (uncached_quote_is_from_store "abc"
           (sample_world [abc_stock] [abc_bar 739923] abc_provider saturday_noon)
           (sample_world [abc_stock] [abc_bar 739923] abc_provider saturday_noon)
           None); reflexivity.
Defined.

(** ** The route functions *)

(** X16. The function [get_stock_quote] never reaches its handler of
    unexpected errors, because [get_quote] does not raise: it returns what
    [get_quote] returned when that is a non-empty value, and raises the
    404 [HTTPException] otherwise.  During market hours, with an empty
    cache, that is the 404 even for a stock the provider has data for.
    Off-hours, for a stock row whose company name is null, the body it
    returns carries [None] under the name of the stock, a field which the
    response model of the route requires; for a stock row with its name
    and exchange the body has every required field. *)
Theorem quote_function_outcomes :
  (forall symbol w, exists r w',
     get_quote symbol w = (Returned r, w') /\
     get_stock_quote symbol w =
       (Returned (if opt_truthy r
                  then Returns (match r with Some q => q | None => PNone end)
                  else RaisesHttp 404 "Stock not found or no data available"), w')) /\
  fst (get_stock_quote "abc" (sample_world [abc_stock] [] abc_provider wednesday_noon))
    = Returned (RaisesHttp 404 "Stock not found or no data available") /\
  (exists q w',
     get_stock_quote "abc"
       (sample_world [nameless_stock] [abc_bar 739923] abc_provider saturday_noon)
       = (Returned (Returns q), w') /\
     quote_field "symbol" q = Some (PStr "ABC") /\
     quote_field "name" q = Some PNone /\
     lacks_required q = true) /\
  (exists q w',
     get_stock_quote "abc"
       (sample_world [abc_stock] [abc_bar 739923] abc_provider saturday_noon)
       = (Returned (Returns q), w') /\
     lacks_required q = false).
Proof.
  split; [|split; [|split]].
  - intros symbol w. destruct (get_quote_returns symbol w) as (r & w' & E).
    exists r, w'. split; [exact E|].
    unfold get_stock_quote, try_except, bind. rewrite E.
    destruct (opt_truthy r); reflexivity.
  - vm_compute. reflexivity.
  - eexists _, _. split; [vm_compute; reflexivity|]. repeat split.
  - eexists _, _. split; [vm_compute; reflexivity|]. reflexivity.
Qed.

Lemma route_error_returns period msg w :
  exists v, route_error period msg w = (Returned v, w) /\ error_result v /\
            field "source" v = Some (PStr "error").
Proof.
  unfold route_error, bind, now_isoformat, ret. eexists. split; [reflexivity|].
  unfold error_result. simpl. eauto.
Qed.

Lemma get_stock_history_returns symbol period w :
  exists v w', get_stock_history symbol period w = (Returned v, w').
Proof.
  unfold get_stock_history. apply try_except_returns. intros e s.
  destruct (route_error_returns period
              (String.append "Internal server error: " (exn_str e)) s)
    as (v & -> & _). eauto.
Qed.

(** When the cache misses, [get_history] answers with a dictionary it
    built. *)
Lemma get_history_miss_dict symbol period w cached w1 :
  redis_get (history_key symbol period) w = (Returned cached, w1) ->
  opt_truthy cached = false ->
  exists d w', get_history symbol period w = (Returned (PDict d), w') /\ d <> [].
Proof.
  intros Hget Hmiss.
  assert (S : forall v, (exists x, field "error" v = Some x) ->
                        exists d, v = PDict d /\ d <> []).
  { intros v [x Hx]. destruct v; try discriminate Hx.
    exists d. split; [reflexivity|]. now destruct d. }
  unfold get_history, try_except, bind. rewrite Hget, Hmiss.
  destruct (get_history_uncached symbol period (history_key symbol period) w1)
    as [[v|e] w2] eqn:E.
  - destruct (S v) as (d & -> & Hd); [|eauto].
    destruct (get_history_uncached_shape _ _ _ _ _ _ E) as [H | [[msg H] _]]; eauto.
  - destruct (history_error_returns period
                (String.append "Failed to get historical data: " (exn_str e)) w2)
      as (v & -> & [[msg H] _]).
    destruct (S v) as (d & -> & Hd); eauto.
Qed.

(** X17. The function [get_stock_history] always returns.  A non-empty
    dictionary that [get_history] gives is returned as it is, with its
    error entry if it has one, and that is the case whenever the cache has
    nothing for the key.  A cached value that is not a dictionary can end
    otherwise: on a cached 1 the test of the error entry raises, and the
    function returns its own fallback with source "error", no data and
    zero records. *)
Theorem history_function_outcomes :
  (forall symbol period w, exists v w',
     get_stock_history symbol period w = (Returned v, w')) /\
  (forall symbol period w d w',
     get_history symbol period w = (Returned (PDict d), w') -> d <> [] ->
     get_stock_history symbol period w = (Returned (PDict d), w')) /\
  (forall symbol period w cached w1,
     redis_get (history_key symbol period) w = (Returned cached, w1) ->
     opt_truthy cached = false ->
     get_stock_history symbol period w = get_history symbol period w) /\
  (let w := set_cache (<[history_key "abc" "6M" := (PInt 1, 86400)]> ∅)
              (sample_world [abc_stock] [] abc_provider wednesday_noon) in
   fst (get_history "abc" "6M" w) = Returned (PInt 1) /\
   exists v,
     fst (get_stock_history "abc" "6M" w) = Returned v /\
     error_result v /\ field "source" v = Some (PStr "error")).
Proof.
  assert (P : forall symbol period w d w',
            get_history symbol period w = (Returned (PDict d), w') -> d <> [] ->
            get_stock_history symbol period w = (Returned (PDict d), w')).
  { intros symbol period w d w' E Hd.
    unfold get_stock_history, try_except, bind. rewrite E.
    destruct d as [|kv d]; [contradiction|]. reflexivity. }
  split; [exact get_stock_history_returns|]. split; [exact P|]. split.
  - intros symbol period w cached w1 Hget Hmiss.
    destruct (get_history_miss_dict symbol period w cached w1 Hget Hmiss)
      as (d & w' & E & Hd).
    now rewrite (P symbol period w d w' E Hd).
  - split; [vm_compute; reflexivity|].
    eexists. split; [vm_compute; reflexivity|].
    split; [|reflexivity]. unfold error_result. simpl. eauto.
Qed.

(** ** The Redis client *)

Lemma datetime_str_example :
  json_wire (PDict [("at", PDatetime "2026-11-04T12:00:00")])
  = PDict [("at", PStr "2026-11-04 12:00:00")].
Proof. reflexivity. Qed.

(** X18. With Redis connected and no call failing: after a value is set
    under a key, [get] returns for that key what the JSON text of the
    value reads back as, which is the value itself when it is made of
    dictionaries, lists, strings, numbers, booleans and [None], and holds
    the text of [str] in place of each timestamp or pandas object
    otherwise; [exists] reports the key, the other keys answer as before,
    and after [delete] the key is gone. *)
Theorem redis_json_round_trip (key : string) (value : pyval) (ttl : Z) (w : World) :
  w_redis_up w = true -> w_faults w = [] ->
  let w1 := snd (redis_set key value ttl w) in
  let w2 := snd (redis_delete key w1) in
  fst (redis_set key value ttl w) = Returned true /\
  fst (redis_get key w1) = Returned (Some (json_wire value)) /\
  (json_like value = true -> fst (redis_get key w1) = Returned (Some value)) /\
  fst (redis_exists key w1) = Returned true /\
  (forall other, other <> key ->
     fst (redis_get other w1) = fst (redis_get other w) /\
     fst (redis_get other w2) = fst (redis_get other w)) /\
  fst (redis_delete key w1) = Returned true /\
  fst (redis_get key w2) = Returned None /\
  fst (redis_exists key w2) = Returned false.
Proof.
  intros Hup Hf. cbv zeta.
  assert (G : fst (redis_get key (snd (redis_set key value ttl w)))
              = Returned (Some (json_wire value))).
  { unfold redis_set, redis_get, bind, next_fault, ret.
    cbn. rewrite Hup. cbn. rewrite Hf. cbn. rewrite Hup. cbn. rewrite Hf. cbn.
    now rewrite lookup_insert_eq. }
  split; [|split; [exact G|split; [intros Hl; rewrite G; now rewrite json_wire_like|]]].
  - unfold redis_set, bind, next_fault, ret. cbn. rewrite Hup. cbn. now rewrite Hf.
  - unfold redis_set, redis_get, redis_exists, redis_delete, bind, next_fault, ret.
    cbn. rewrite Hup. cbn. rewrite Hf. cbn. rewrite Hup. cbn. rewrite Hf. cbn.
    rewrite Hup. cbn. rewrite Hf. cbn.
    rewrite !lookup_insert_eq, !lookup_delete_eq. cbn.
    repeat split.
    + rewrite lookup_insert_ne by congruence. reflexivity.
    + rewrite lookup_delete_ne, lookup_insert_ne by congruence. reflexivity.
Qed.

Lemma redis_json_round_trip_witness :
  let w := sample_world [] [] failing_provider wednesday_noon in
  let value := PDict [("price", PFloat f102); ("at", PDatetime "2026-11-04T12:00:00")] in
  let w1 := snd (redis_set "k" value 30 w) in
  fst (redis_set "k" value 30 w) = Returned true /\
  fst (redis_get "k" w1)
    = Returned (Some (PDict [("price", PFloat f102);
                             ("at", PStr "2026-11-04 12:00:00")])) /\
  fst (redis_exists "k" w1) = Returned true.
Proof.
  intros w value w1.
  destruct (redis_json_round_trip "k" value 30 w eq_refl eq_refl)
    as (H1 & H2 & _ & H3 & _).
  split; [exact H1|]. split; [exact H2 | exact H3].
Defined.


(** ** The subscription manager, operation by operation *)

Lemma unsubscribe_active c sym m :
  active_connections (unsubscribe_symbol c sym m) = active_connections m.
Proof. unfold unsubscribe_symbol. repeat case_match; reflexivity. Qed.

Lemma unsubscribe_subscriptions c sym m :
  subscriptions (unsubscribe_symbol c sym m) =
    match subscriptions m !! c with
    | Some syms => <[c := syms ∖ {[upper sym]}]> (subscriptions m)
    | None => subscriptions m
    end.
Proof. unfold unsubscribe_symbol. repeat case_match; reflexivity. Qed.

Lemma unsubscribe_subscribers c sym m :
  symbol_subscribers (unsubscribe_symbol c sym m) =
    match symbol_subscribers m !! upper sym with
    | Some C => if decide (C ∖ {[c]} = ∅)
                then delete (upper sym) (symbol_subscribers m)
                else <[upper sym := C ∖ {[c]}]> (symbol_subscribers m)
    | None => symbol_subscribers m
    end.
Proof. unfold unsubscribe_symbol. repeat case_match; reflexivity. Qed.

Lemma listens_unsubscribe c sym m d s :
  listens d s (unsubscribe_symbol c sym m) <->
  listens d s m /\ ~ (d = c /\ s = upper sym).
Proof.
  unfold listens. rewrite unsubscribe_subscribers.
  destruct (symbol_subscribers m !! upper sym) as [C|] eqn:E.
  - destruct (decide (C ∖ {[c]} = ∅)) as [He|Hne];
      destruct (decide (s = upper sym)) as [->|Hs].
    + rewrite lookup_delete_eq, E. split.
      * intros (C' & [=] & _).
      * intros [(C' & [= <-] & Hd) Hn]. exfalso. apply Hn. set_solver.
    + rewrite lookup_delete_ne by congruence. naive_solver.
    + rewrite lookup_insert_eq, E. split.
      * intros (C' & [= <-] & Hd). split; [exists C; set_solver | set_solver].
      * intros [(C' & [= <-] & Hd) Hn]. eexists. split; [reflexivity|].
        apply elem_of_difference. split; [exact Hd|].
        intros ->%elem_of_singleton. tauto.
    + rewrite lookup_insert_ne by congruence. naive_solver.
  - split; [|tauto]. intros (C & HC & Hd). split; [eauto|].
    intros [_ ->]. congruence.
Qed.

Lemma follows_unsubscribe c sym m d s :
  follows d s (unsubscribe_symbol c sym m) <->
  follows d s m /\ ~ (d = c /\ s = upper sym).
Proof.
  unfold follows. rewrite unsubscribe_subscriptions.
  destruct (subscriptions m !! c) as [syms|] eqn:E.
  - destruct (decide (d = c)) as [->|Hd].
    + rewrite lookup_insert_eq, E. split.
      * intros (x & [= <-] & Hs). split; [exists syms; set_solver | set_solver].
      * intros [(x & [= <-] & Hs) Hn]. eexists. split; [reflexivity|].
        apply elem_of_difference. split; [exact Hs|].
        intros ->%elem_of_singleton. tauto.
    + rewrite lookup_insert_ne by congruence. naive_solver.
  - split; [|tauto]. intros (x & Hx & Hs). split; [eauto|].
    intros [-> _]. congruence.
Qed.

Lemma subscriptions_unsubscribe_other c sym m d :
  d <> c -> subscriptions (unsubscribe_symbol c sym m) !! d = subscriptions m !! d.
Proof.
  intros Hd. rewrite unsubscribe_subscriptions.
  destruct (subscriptions m !! c); [|reflexivity].
  now rewrite lookup_insert_ne by congruence.
Qed.

Lemma entry_unsubscribe c sym m d :
  is_Some (subscriptions (unsubscribe_symbol c sym m) !! d)
  <-> is_Some (subscriptions m !! d).
Proof.
  rewrite unsubscribe_subscriptions.
  destruct (subscriptions m !! c) eqn:E; [|reflexivity].
  destruct (decide (d = c)) as [->|Hd].
  - rewrite lookup_insert_eq, E. split; eauto.
  - now rewrite lookup_insert_ne by congruence.
Qed.

Lemma subscribe_one_skip c m sym :
  str_truthy (strip (upper sym)) = false -> subscribe_one c m sym = m.
Proof. intros H. unfold subscribe_one. now rewrite H. Qed.

Lemma subscribe_one_active c m sym :
  active_connections (subscribe_one c m sym) = active_connections m.
Proof. unfold subscribe_one. repeat case_match; reflexivity. Qed.

Lemma subscribe_one_subscriptions c m sym :
  str_truthy (strip (upper sym)) = true ->
  subscriptions (subscribe_one c m sym) =
    match subscriptions m !! c with
    | Some syms => <[c := syms ∪ {[strip (upper sym)]}]> (subscriptions m)
    | None => subscriptions m
    end.
Proof. intros H. unfold subscribe_one. rewrite H. repeat case_match; reflexivity. Qed.

Lemma subscribe_one_subscribers c m sym :
  str_truthy (strip (upper sym)) = true ->
  symbol_subscribers (subscribe_one c m sym) =
    <[strip (upper sym) :=
        match symbol_subscribers m !! strip (upper sym) with
        | Some C => C
        | None => ∅
        end ∪ {[c]}]> (symbol_subscribers m).
Proof. intros H. unfold subscribe_one. rewrite H. repeat case_match; reflexivity. Qed.

Lemma listens_subscribe c m sym d s :
  str_truthy (strip (upper sym)) = true ->
  listens d s (subscribe_one c m sym) <->
  listens d s m \/ (d = c /\ s = strip (upper sym)).
Proof.
  intros H. unfold listens. rewrite (subscribe_one_subscribers c m sym H).
  destruct (decide (s = strip (upper sym))) as [->|Hs].
  - rewrite lookup_insert_eq. split.
    + intros (C & [= <-] & [Hd | ->%elem_of_singleton]%elem_of_union); [|auto].
      destruct (symbol_subscribers m !! strip (upper sym)); [eauto | set_solver].
    + intros [(C & HC & Hd) | [-> _]]; eexists; (split; [reflexivity|]).
      * rewrite HC. set_solver.
      * set_solver.
  - rewrite lookup_insert_ne by congruence. naive_solver.
Qed.

Lemma follows_subscribe c m sym d s :
  str_truthy (strip (upper sym)) = true ->
  is_Some (subscriptions m !! c) ->
  follows d s (subscribe_one c m sym) <->
  follows d s m \/ (d = c /\ s = strip (upper sym)).
Proof.
  intros H [syms E]. unfold follows. rewrite (subscribe_one_subscriptions c m sym H), E.
  destruct (decide (d = c)) as [->|Hd].
  - rewrite lookup_insert_eq, E. split.
    + intros (x & [= <-] & [Hs | ->%elem_of_singleton]%elem_of_union); eauto.
    + intros [(x & [= <-] & Hs) | [_ ->]]; eexists; (split; [reflexivity|]); set_solver.
  - rewrite lookup_insert_ne by congruence. naive_solver.
Qed.

Lemma subscriptions_subscribe_other c m sym d :
  d <> c -> subscriptions (subscribe_one c m sym) !! d = subscriptions m !! d.
Proof.
  intros Hd. destruct (str_truthy (strip (upper sym))) eqn:H.
  - rewrite (subscribe_one_subscriptions c m sym H).
    destruct (subscriptions m !! c); [|reflexivity].
    now rewrite lookup_insert_ne by congruence.
  - now rewrite subscribe_one_skip.
Qed.

Lemma entry_subscribe c m sym d :
  is_Some (subscriptions (subscribe_one c m sym) !! d)
  <-> is_Some (subscriptions m !! d).
Proof.
  destruct (str_truthy (strip (upper sym))) eqn:H; [|now rewrite subscribe_one_skip].
  rewrite (subscribe_one_subscriptions c m sym H).
  destruct (subscriptions m !! c) eqn:E; [|reflexivity].
  destruct (decide (d = c)) as [->|Hd].
  - rewrite lookup_insert_eq, E. split; eauto.
  - now rewrite lookup_insert_ne by congruence.
Qed.

(** The loop of [disconnect] and of the unsubscribe message. *)
Lemma unsubscribe_all_cons c t l m :
  unsubscribe_all c (t :: l) m = unsubscribe_all c l (unsubscribe_symbol c t m).
Proof. reflexivity. Qed.

Lemma active_unsubscribe_all c l m :
  active_connections (unsubscribe_all c l m) = active_connections m.
Proof.
  revert m. induction l as [|t l IH]; intros m; [reflexivity|].
  rewrite unsubscribe_all_cons, IH. apply unsubscribe_active.
Qed.

Lemma listens_unsubscribe_all c l m d s :
  listens d s (unsubscribe_all c l m) <->
  listens d s m /\ ~ (d = c /\ exists t, In t l /\ s = upper t).
Proof.
  revert m. induction l as [|t l IH]; intros m.
  - simpl. naive_solver.
  - rewrite unsubscribe_all_cons, IH, listens_unsubscribe. simpl. naive_solver.
Qed.

Lemma follows_unsubscribe_all c l m d s :
  follows d s (unsubscribe_all c l m) <->
  follows d s m /\ ~ (d = c /\ exists t, In t l /\ s = upper t).
Proof.
  revert m. induction l as [|t l IH]; intros m.
  - simpl. naive_solver.
  - rewrite unsubscribe_all_cons, IH, follows_unsubscribe. simpl. naive_solver.
Qed.

Lemma subscriptions_unsubscribe_all_other c l m d :
  d <> c -> subscriptions (unsubscribe_all c l m) !! d = subscriptions m !! d.
Proof.
  intros Hd. revert m. induction l as [|t l IH]; intros m; [reflexivity|].
  rewrite unsubscribe_all_cons, IH. now apply subscriptions_unsubscribe_other.
Qed.

Lemma entry_unsubscribe_all c l m d :
  is_Some (subscriptions (unsubscribe_all c l m) !! d)
  <-> is_Some (subscriptions m !! d).
Proof.
  revert m. induction l as [|t l IH]; intros m; [reflexivity|].
  rewrite unsubscribe_all_cons, IH. apply entry_unsubscribe.
Qed.

(** [disconnect], through the loop it runs. *)
Lemma disconnect_unfold c m :
  disconnect c m =
    let m1 := mkManager (delete c (active_connections m))
                        (subscriptions m) (symbol_subscribers m)
                        (update_tasks m) (tasks_created m) (tasks_cancelled m) in
    match subscriptions m !! c with
    | Some syms =>
        let m2 := unsubscribe_all c (elements syms) m1 in
        mkManager (active_connections m2) (delete c (subscriptions m2))
                  (symbol_subscribers m2) (update_tasks m2)
                  (tasks_created m2) (tasks_cancelled m2)
    | None => m1
    end.
Proof. reflexivity. Qed.

Lemma disconnect_active c m :
  active_connections (disconnect c m) = delete c (active_connections m).
Proof.
  rewrite disconnect_unfold. cbv zeta.
  destruct (subscriptions m !! c); [|reflexivity].
  simpl. now rewrite active_unsubscribe_all.
Qed.

Lemma disconnect_entry c m : subscriptions (disconnect c m) !! c = None.
Proof.
  rewrite disconnect_unfold. cbv zeta.
  destruct (subscriptions m !! c) eqn:E; simpl; [apply lookup_delete_eq | exact E].
Qed.

Lemma disconnect_subscriptions_other c m d :
  d <> c -> subscriptions (disconnect c m) !! d = subscriptions m !! d.
Proof.
  intros Hd. rewrite disconnect_unfold. cbv zeta.
  destruct (subscriptions m !! c); [|reflexivity].
  simpl. rewrite lookup_delete_ne by congruence.
  now rewrite subscriptions_unsubscribe_all_other.
Qed.

Lemma follows_disconnect c m d s :
  follows d s (disconnect c m) <-> follows d s m /\ d <> c.
Proof.
  unfold follows. destruct (decide (d = c)) as [->|Hd].
  - rewrite disconnect_entry. naive_solver.
  - rewrite disconnect_subscriptions_other by exact Hd. naive_solver.
Qed.

Lemma listens_ext m m' d s :
  symbol_subscribers m' = symbol_subscribers m -> listens d s m' <-> listens d s m.
Proof. intros E. unfold listens. now rewrite E. Qed.

Lemma listens_disconnect c m d s :
  listens d s (disconnect c m) <->
  listens d s m /\ ~ (d = c /\ exists t, follows c t m /\ s = upper t).
Proof.
  pose (m1 := mkManager (delete c (active_connections m))
                        (subscriptions m) (symbol_subscribers m)
                        (update_tasks m) (tasks_created m) (tasks_cancelled m)).
  unfold follows. destruct (subscriptions m !! c) as [syms|] eqn:E.
  - assert (Hss : symbol_subscribers (disconnect c m)
                  = symbol_subscribers (unsubscribe_all c (elements syms) m1)).
    { rewrite disconnect_unfold. cbv zeta. rewrite E. reflexivity. }
    rewrite (listens_ext _ _ d s Hss), listens_unsubscribe_all.
    rewrite (listens_ext m m1 d s eq_refl).
    split; intros [H1 H2]; (split; [exact H1|]); intros [-> (t & Ht & ->)];
      apply H2; (split; [reflexivity|]).
    + destruct Ht as (x & [= <-] & Ht). exists t. split; [|reflexivity].
      apply list_elem_of_In, elem_of_elements, Ht.
    + exists t. split; [|reflexivity]. exists syms. split; [reflexivity|].
      apply elem_of_elements, list_elem_of_In, Ht.
  - assert (Hss : symbol_subscribers (disconnect c m) = symbol_subscribers m).
    { rewrite disconnect_unfold. cbv zeta. rewrite E. reflexivity. }
    rewrite (listens_ext _ _ d s Hss).
    split; [|tauto]. intros H. split; [exact H|].
    intros [_ (t & (x & [=] & _) & _)].
Qed.


(** ** Properties of the manager kept by every operation *)

Section ManagerInvariant.

Variable P : Manager -> Prop.

(** The clients whose operations keep the property. *)
Variable mine : string -> Prop.

Lemma preserves_ret {A} (a : A) : preserves P (ret a).
Proof. intros s H. exact H. Qed.

Lemma preserves_raise {A} e : preserves P (@raise System A e).
Proof. intros s H. exact H. Qed.

Lemma preserves_lift {A} (m : M A) : preserves P (lift m).
Proof. intros s H. unfold lift. destruct (m (sys_world s)). exact H. Qed.

Lemma preserves_get : preserves P get_manager.
Proof. intros s H. exact H. Qed.

Lemma preserves_modify f : (forall m, P m -> P (f m)) -> preserves P (modify f).
Proof. intros Hf s H. simpl. now apply Hf. Qed.

Lemma preserves_bind {A B} (m : W A) (k : A -> W B) :
  preserves P m -> (forall a, preserves P (k a)) -> preserves P (bind m k).
Proof.
  intros Hm Hk s H. unfold bind. specialize (Hm s H).
  destruct (m s) as [[a|e] s']; simpl in *; [now apply Hk | exact Hm].
Qed.

Lemma holds_bind {A B} (m : W A) (k : A -> W B) s :
  P (sys_manager (snd (m s))) -> (forall a, preserves P (k a)) ->
  P (sys_manager (snd (bind m k s))).
Proof.
  intros Hm Hk. unfold bind.
  destruct (m s) as [[a|e] s']; simpl in *; [now apply Hk | exact Hm].
Qed.

Lemma holds_try {A} (b : W A) (h : exn -> W A) s :
  P (sys_manager (snd (b s))) -> (forall e, preserves P (h e)) ->
  P (sys_manager (snd (try_except b h s))).
Proof.
  intros Hb Hh. unfold try_except.
  destruct (b s) as [[a|e] s']; simpl in *; [exact Hb | now apply Hh].
Qed.

Lemma preserves_try {A} (b : W A) (h : exn -> W A) :
  preserves P b -> (forall e, preserves P (h e)) -> preserves P (try_except b h).
Proof.
  intros Hb Hh s H. unfold try_except. specialize (Hb s H).
  destruct (b s) as [[a|e] s']; simpl in *; [exact Hb | now apply Hh].
Qed.

Ltac preserve :=
  repeat lazymatch goal with
    | |- preserves _ (ret _) => apply preserves_ret
    | |- preserves _ (raise _) => apply preserves_raise
    | |- preserves _ (lift _) => apply preserves_lift
    | |- preserves _ get_manager => apply preserves_get
    | |- preserves _ (bind _ _) => apply preserves_bind; [|intros ?]
    | |- preserves _ (try_except _ _) => apply preserves_try; [|intros ?]
    | |- preserves _ (modify _) => apply preserves_modify; intros ? ?
    end.

Hypothesis P_unsubscribe :
  forall c sym m, mine c -> P m -> P (unsubscribe_symbol c sym m).
Hypothesis P_subscribe :
  forall c sym m, mine c -> is_Some (subscriptions m !! c) -> P m ->
                  P (subscribe_one c m sym).
Hypothesis P_disconnect : forall c m, mine c -> P m -> P (disconnect c m).

Lemma P_unsubscribe_all c l m : mine c -> P m -> P (unsubscribe_all c l m).
Proof.
  intros Hc. revert m. induction l as [|t l IH]; intros m H; [exact H|].
  rewrite unsubscribe_all_cons. apply IH. now apply P_unsubscribe.
Qed.

Lemma P_unsubscribe_clients symbol clients m :
  (forall c, In c clients -> mine c) -> P m ->
  P (fold_left (fun acc c => unsubscribe_symbol c symbol acc) clients m).
Proof.
  revert m. induction clients as [|c l IH]; intros m Hl H; [exact H|].
  simpl. apply IH; [intros; apply Hl; now right|].
  apply P_unsubscribe; [apply Hl; now left | exact H].
Qed.

Lemma P_subscribe_all c l m :
  mine c -> is_Some (subscriptions m !! c) -> P m ->
  P (fold_left (subscribe_one c) l m).
Proof.
  intros Hc. revert m. induction l as [|t l IH]; intros m He H; [exact H|].
  simpl. apply IH; [now apply entry_subscribe | now apply P_subscribe].
Qed.

Lemma preserves_send_to_client c msg : mine c -> preserves P (send_to_client c msg).
Proof.
  intros Hc. unfold send_to_client. apply preserves_bind; [apply preserves_get|].
  intros m. destruct (active_connections m !! c); preserve. now apply P_disconnect.
Qed.

Lemma preserves_send_cached c symbols : mine c -> preserves P (send_cached c symbols).
Proof.
  intros Hc. induction symbols as [|s l IH]; simpl; preserve.
  - destruct (opt_truthy a); [now apply preserves_send_to_client | apply preserves_ret].
  - exact IH.
Qed.

Lemma preserves_subscribe_symbols c symbols :
  mine c -> preserves P (subscribe_symbols c symbols).
Proof.
  intros Hc s H. unfold subscribe_symbols, bind, get_manager.
  destruct (subscriptions (sys_manager s) !! c) eqn:E; [|exact H].
  unfold modify. apply (preserves_send_cached c symbols Hc). simpl.
  apply P_subscribe_all; [exact Hc | rewrite E; eauto | exact H].
Qed.

Lemma preserves_send_all clients msg :
  (forall c, In c clients -> mine c) -> preserves P (send_all clients msg).
Proof.
  induction clients as [|c l IH]; intros Hl; simpl; preserve.
  - apply preserves_send_to_client, Hl. now left.
  - apply IH. intros; apply Hl; now right.
Qed.

Lemma send_all_failed clients msg s :
  forall failed s', send_all clients msg s = (Returned failed, s') ->
                    forall c, In c failed -> In c clients.
Proof.
  revert s. induction clients as [|c l IH]; intros s failed s'; simpl.
  - intros [= <- _] c [].
  - unfold bind. destruct (send_to_client c msg s) as [[ok|e] s1]; [|discriminate].
    destruct (send_all l msg s1) as [[rest|e] s2] eqn:E; [|discriminate].
    intros [= <- _] c' Hc'. specialize (IH s1 rest s2 E).
    destruct ok; [right; now apply IH|].
    destruct Hc' as [-> | Hc']; [now left | right; now apply IH].
Qed.

Lemma preserves_broadcast symbol data :
  (forall c, mine c) -> preserves P (broadcast_to_symbol_subscribers symbol data).
Proof.
  intros Hall. unfold broadcast_to_symbol_subscribers.
  apply preserves_bind; [apply preserves_get|]. intros m.
  destruct (symbol_subscribers m !! symbol); preserve.
  - apply preserves_send_all. auto.
  - apply P_unsubscribe_clients; auto.
Qed.

Lemma preserves_update_once symbol :
  (forall c, mine c) -> preserves P (update_symbol_once symbol).
Proof.
  intros Hall. unfold update_symbol_once.
  apply preserves_bind; [apply preserves_lift|]. intros [[t hist]|]; preserve.
  destruct (rev hist); preserve.
  - destruct (dict_get "previousClose" a) as [v|]; preserve.
    unfold number_of. destruct v; preserve.
  - unfold int_of. destruct (int_of_float _); preserve.
  - now apply preserves_broadcast.
Qed.

Lemma preserves_update_iteration symbol :
  (forall c, mine c) -> preserves P (update_symbol_iteration symbol).
Proof.
  intros Hall. unfold update_symbol_iteration.
  apply preserves_bind; [apply preserves_get|]. intros m.
  destruct (has_subscribers symbol m); preserve. now apply preserves_update_once.
Qed.

Lemma preserves_subscribe_message c symbols :
  mine c -> preserves P (subscribe_message c symbols).
Proof.
  intros Hc s H. unfold subscribe_message, bind, get_manager.
  destruct (subscriptions (sys_manager s) !! c) eqn:E; [|exact H].
  destruct (iterate symbols) as [items|]; [|exact H].
  destruct (strings_prefix items) as [l [|]].
  - now apply preserves_subscribe_symbols.
  - simpl. apply P_subscribe_all; [exact Hc | rewrite E; eauto | exact H].
Qed.

Lemma preserves_unsubscribe_message c symbols :
  mine c -> preserves P (unsubscribe_message c symbols).
Proof.
  intros Hc. unfold unsubscribe_message.
  destruct (iterate symbols) as [items|]; preserve.
  destruct (strings_prefix items) as [l ok]. preserve.
  - now apply P_unsubscribe_all.
  - destruct ok; preserve.
Qed.

Lemma preserves_handle_frame c frame : mine c -> preserves P (handle_frame c frame).
Proof.
  intros Hc. unfold handle_frame.
  destruct frame as [[| | | | | | |d| |]|]; preserve.
  destruct (is_type "subscribe" _); preserve;
    [now apply preserves_subscribe_message|].
  destruct (is_type "unsubscribe" _); preserve;
    [now apply preserves_unsubscribe_message|].
  destruct (is_type "ping" _); preserve.
Qed.

Lemma preserves_receive_loop c frames : mine c -> preserves P (receive_loop c frames).
Proof.
  intros Hc. induction frames as [|f l IH]; simpl; preserve.
  - now apply preserves_handle_frame.
  - exact IH.
Qed.

(** The endpoint of a client, from a state where [connect] keeps the
    property. *)
Lemma holds_endpoint ws c frames s :
  mine c -> P (sys_manager s) -> P (connect ws c (sys_manager s)) ->
  P (sys_manager (snd (websocket_endpoint ws c frames s))).
Proof.
  intros Hc H Hconnect. unfold websocket_endpoint.
  apply holds_bind; [|intros ?; preserve; now apply P_disconnect].
  apply holds_try; [|intros ?; preserve].
  apply holds_bind; [|intros ?; preserve; now apply preserves_receive_loop].
  unfold connect_accept, bind, lift.
  destruct (next_fault (sys_world s)) as [[[]|e] w1]; simpl; assumption.
Qed.

(** Runs of the manager, when every client keeps the property and
    [connect] keeps it. *)
Lemma holds_step s op :
  (forall c, mine c) -> (forall ws c m, P m -> P (connect ws c m)) ->
  P (sys_manager s) -> P (sys_manager (step s op)).
Proof.
  intros Hall Hconnect H. destruct op; simpl.
  - now apply Hconnect.
  - now apply P_disconnect.
  - now apply preserves_subscribe_symbols.
  - now apply P_unsubscribe.
  - now apply preserves_update_iteration.
Qed.

Lemma holds_run ops s :
  (forall c, mine c) -> (forall ws c m, P m -> P (connect ws c m)) ->
  P (sys_manager s) -> P (sys_manager (run ops s)).
Proof.
  intros Hall Hconnect. revert s.
  induction ops as [|op l IH]; intros s H; simpl; [exact H|].
  apply IH. now apply holds_step.
Qed.

End ManagerInvariant.


(** ** No empty subscriber set *)

Lemma sets_nonempty_ext m m' :
  symbol_subscribers m' = symbol_subscribers m -> sets_nonempty m -> sets_nonempty m'.
Proof. intros E H symbol C. rewrite E. apply H. Qed.

Lemma sets_nonempty_unsubscribe c sym m :
  sets_nonempty m -> sets_nonempty (unsubscribe_symbol c sym m).
Proof.
  intros H symbol C. rewrite unsubscribe_subscribers.
  destruct (symbol_subscribers m !! upper sym) as [C0|] eqn:E; [|apply H].
  destruct (decide (C0 ∖ {[c]} = ∅)) as [He|Hne].
  - intros [_ HC]%lookup_delete_Some. exact (H _ _ HC).
  - intros [[_ <-] | [_ HC]]%lookup_insert_Some; [exact Hne | exact (H _ _ HC)].
Qed.

Lemma sets_nonempty_subscribe c sym m :
  sets_nonempty m -> sets_nonempty (subscribe_one c m sym).
Proof.
  intros H. destruct (str_truthy (strip (upper sym))) eqn:T;
    [|now rewrite subscribe_one_skip].
  intros symbol C. rewrite (subscribe_one_subscribers c m sym T).
  intros [[_ <-] | [_ HC]]%lookup_insert_Some; [set_solver | exact (H _ _ HC)].
Qed.

Lemma sets_nonempty_unsubscribe_all c l m :
  sets_nonempty m -> sets_nonempty (unsubscribe_all c l m).
Proof.
  revert m. induction l as [|t l IH]; intros m H; [exact H|].
  rewrite unsubscribe_all_cons. apply IH. now apply sets_nonempty_unsubscribe.
Qed.

Lemma sets_nonempty_disconnect c m :
  sets_nonempty m -> sets_nonempty (disconnect c m).
Proof.
  intros H. rewrite disconnect_unfold. cbv zeta.
  destruct (subscriptions m !! c) as [syms|].
  - eapply sets_nonempty_ext; [reflexivity|].
    apply sets_nonempty_unsubscribe_all.
    eapply sets_nonempty_ext; [|exact H]. reflexivity.
  - eapply sets_nonempty_ext; [|exact H]. reflexivity.
Qed.

Lemma sets_nonempty_run ops w :
  sets_nonempty (sys_manager (run ops (mkSystem init w))).
Proof.
  apply (holds_run sets_nonempty (fun _ => True)).
  - intros c sym m _. apply sets_nonempty_unsubscribe.
  - intros c sym m _ _. apply sets_nonempty_subscribe.
  - intros c m _. apply sets_nonempty_disconnect.
  - intros c. exact I.
  - intros ws c m H. eapply sets_nonempty_ext; [|exact H]. reflexivity.
  - intros symbol C. simpl. rewrite lookup_empty. discriminate.
Qed.

(** X19. In every state the manager reaches from its initial state
    (connects, disconnects, subscriptions, unsubscriptions and poll
    iterations, in any world), the symbols with an update task are the
    symbols kept in [symbol_subscribers], each of which has a subscriber:
    the status route reports as many update tasks as active symbols. *)
Theorem status_tasks_match_symbols (ops : list Op) (w : World) :
  let m := sys_manager (run ops (mkSystem init w)) in
  dom (update_tasks m) = dom (symbol_subscribers m) /\
  exists symbols,
    field "active_symbols" (get_websocket_status m) = Some (PList (map PStr symbols)) /\
    field "update_tasks" (get_websocket_status m)
      = Some (PInt (Z.of_nat (length symbols))) /\
    NoDup symbols /\
    forall symbol, In symbol symbols <-> subscribed symbol m.
Proof.
  cbv zeta.
  pose proof (sets_nonempty_run ops w) as Hne.
  pose proof (lifecycle_inv_run ops (mkSystem init w) lifecycle_inv_init) as Hinv.
  set (m := sys_manager (run ops (mkSystem init w))) in *.
  assert (Hsub : forall symbol,
            symbol ∈ dom (symbol_subscribers m) <-> subscribed symbol m).
  { intros symbol. rewrite elem_of_dom. unfold subscribed. split.
    - intros [C HC]. exists C. split; [exact HC | exact (Hne _ _ HC)].
    - intros (C & HC & _). eauto. }
  assert (Hdom : dom (update_tasks m) = dom (symbol_subscribers m)).
  { apply set_eq. intros symbol. rewrite Hsub, <- (Hinv symbol).
    apply elem_of_dom. }
  split; [exact Hdom|].
  exists (elements (dom (symbol_subscribers m))).
  split; [reflexivity|]. split.
  - simpl. do 3 f_equal. rewrite <- size_dom, Hdom. reflexivity.
  - split; [apply NoDup_elements|].
    intros symbol. rewrite <- list_elem_of_In, elem_of_elements. apply Hsub.
Qed.

(** ** Connections and subscription sets go together *)

Lemma paired_connect ws c m : paired m -> paired (connect ws c m).
Proof.
  intros H d. simpl. destruct (decide (d = c)) as [->|Hd].
  - rewrite !lookup_insert_eq. split; eauto.
  - rewrite !lookup_insert_ne by congruence. apply H.
Qed.

Lemma paired_unsubscribe c sym m : paired m -> paired (unsubscribe_symbol c sym m).
Proof. intros H d. rewrite unsubscribe_active, entry_unsubscribe. apply H. Qed.

Lemma paired_subscribe c sym m : paired m -> paired (subscribe_one c m sym).
Proof. intros H d. rewrite subscribe_one_active, entry_subscribe. apply H. Qed.

Lemma paired_disconnect c m : paired m -> paired (disconnect c m).
Proof.
  intros H d. rewrite disconnect_active. destruct (decide (d = c)) as [->|Hd].
  - rewrite lookup_delete_eq, disconnect_entry. split; intros [? [=]].
  - rewrite lookup_delete_ne, disconnect_subscriptions_other by congruence. apply H.
Qed.

(** X20. In every state the manager reaches from its initial state, a
    client has a websocket in [active_connections] exactly when it has a
    subscription set: the guard of [subscribe_symbols] lets through
    exactly the connected clients. *)
Theorem connected_iff_subscription_set (ops : list Op) (w : World) (c : string) :
  let m := sys_manager (run ops (mkSystem init w)) in
  is_Some (active_connections m !! c) <-> is_Some (subscriptions m !! c).
Proof.
  cbv zeta. revert c. change (paired (sys_manager (run ops (mkSystem init w)))).
  apply (holds_run paired (fun _ => True)).
  - intros c sym m _. apply paired_unsubscribe.
  - intros c sym m _ _. apply paired_subscribe.
  - intros c m _. apply paired_disconnect.
  - intros c. exact I.
  - intros ws c m. apply paired_connect.
  - intros c. simpl. rewrite !lookup_empty. split; intros [? [=]].
Qed.

(** ** Both sides of a subscription *)

Lemma consistent_init : consistent init.
Proof.
  split.
  - intros c s (C & HC & _). simpl in HC. rewrite lookup_empty in HC. discriminate.
  - intros c s (x & Hx & _). simpl in Hx. rewrite lookup_empty in Hx. discriminate.
Qed.

Lemma consistent_unsubscribe c sym m :
  consistent m -> consistent (unsubscribe_symbol c sym m).
Proof.
  intros [H1 H2]. split; intros d s.
  - rewrite listens_unsubscribe, follows_unsubscribe. intros [H Hn]. auto.
  - rewrite follows_unsubscribe. intros [H _]. eauto.
Qed.

Lemma consistent_subscribe c sym m :
  is_Some (subscriptions m !! c) -> consistent m -> consistent (subscribe_one c m sym).
Proof.
  intros He [H1 H2]. destruct (str_truthy (strip (upper sym))) eqn:T;
    [|rewrite subscribe_one_skip by exact T; now split].
  split; intros d s.
  - rewrite (listens_subscribe c m sym d s T), (follows_subscribe c m sym d s T He).
    intros [H | H]; auto.
  - rewrite (follows_subscribe c m sym d s T He).
    intros [H | [_ ->]]; [eauto | apply upper_strip_upper].
Qed.

Lemma consistent_disconnect c m : consistent m -> consistent (disconnect c m).
Proof.
  intros [H1 H2]. split; intros d s.
  - rewrite listens_disconnect, follows_disconnect. intros [H Hn].
    split; [auto|]. intros ->. apply Hn. split; [reflexivity|].
    exists s. split; [auto|]. symmetry. eauto.
  - rewrite follows_disconnect. intros [H _]. eauto.
Qed.

Lemma consistent_connect ws c m :
  subscriptions m !! c = None -> consistent m -> consistent (connect ws c m).
Proof.
  intros Hfresh [H1 H2].
  assert (F : forall d s, follows d s (connect ws c m) <-> follows d s m).
  { intros d s. unfold follows. simpl. destruct (decide (d = c)) as [->|Hd].
    - rewrite lookup_insert_eq, Hfresh. split.
      + intros (x & [= <-] & Hx). set_solver.
      + intros (x & [=] & _).
    - now rewrite lookup_insert_ne by congruence. }
  split; intros d s; rewrite F; [|apply H2].
  rewrite (listens_ext m (connect ws c m) d s eq_refl). apply H1.
Qed.

Lemma consistent_gone c m :
  consistent m -> subscriptions m !! c = None -> active_connections m !! c = None ->
  client_gone c m.
Proof.
  intros [H1 _] Hs Ha. split; [exact Ha|]. split; [exact Hs|].
  intros symbol Hl. destruct (H1 _ _ Hl) as (x & Hx & _). congruence.
Qed.

Lemma consistent_both_subscribed x y symbol wx wy :
  x <> y -> consistent (both_subscribed x y symbol wx wy).
Proof.
  intros Hxy. unfold both_subscribed, first_subscribed, both_connected.
  apply consistent_subscribe.
  { apply entry_subscribe. simpl. rewrite lookup_insert_eq. eauto. }
  apply consistent_subscribe.
  { simpl. rewrite lookup_insert_ne by congruence. rewrite lookup_insert_eq. eauto. }
  apply consistent_connect.
  { simpl. rewrite lookup_insert_ne by congruence. apply lookup_empty. }
  apply consistent_connect; [apply lookup_empty | apply consistent_init].
Qed.

(** X21. [disconnect] removes every trace of the client: in a manager
    whose two indexes agree (every subscriber is recorded in the
    subscription set of the client, in upper case, as [subscribe_symbols]
    leaves them), after [disconnect] the client has no websocket, no
    subscription set and is in no subscriber set, and the indexes still
    agree. *)
Theorem disconnect_removes_client (c : string) (m : Manager) :
  consistent m ->
  client_gone c (disconnect c m) /\ consistent (disconnect c m).
Proof.
  intros H. pose proof (consistent_disconnect c m H) as H'.
  split; [|exact H'].
  apply consistent_gone; [exact H' | apply disconnect_entry|].
  rewrite disconnect_active. apply lookup_delete_eq.
Qed.

Lemma disconnect_removes_client_witness :
  client_gone "X" (disconnect "X" (both_subscribed "X" "Y" "xyz" 1 2)) /\
  consistent (disconnect "X" (both_subscribed "X" "Y" "xyz" 1 2)).
Proof.
  apply (disconnect_removes_client "X" (both_subscribed "X" "Y" "xyz" 1 2)).
  apply consistent_both_subscribed. discriminate.
Defined.

(** The [finally] of the endpoint always runs, and nothing is raised. *)
Lemma endpoint_result ws c frames s :
  exists s1,
    websocket_endpoint ws c frames s
      = (Returned tt, mkSystem (disconnect c (sys_manager s1)) (sys_world s1)).
Proof.
  unfold websocket_endpoint, bind at 1.
  destruct (try_except _ _ s) as [[[]|e] s1] eqn:E.
  - exists s1. reflexivity.
  - exfalso. revert E. unfold try_except.
    destruct (bind _ _ s) as [[?|?] ?]; discriminate.
Qed.

(** X22. A websocket session leaves no trace, whatever the client sends
    and whichever call fails: started with a fresh client id in a manager
    whose two indexes agree, [websocket_endpoint] returns without raising
    with the client gone from the connections, the subscription sets and
    every subscriber set, and the indexes still agree. *)
Theorem session_leaves_no_trace (ws : nat) (c : string) (frames : list Frame)
    (s : System) :
  consistent (sys_manager s) ->
  subscriptions (sys_manager s) !! c = None ->
  let r := websocket_endpoint ws c frames s in
  fst r = Returned tt /\
  client_gone c (sys_manager (snd r)) /\
  consistent (sys_manager (snd r)).
Proof.
  intros H Hfresh. cbv zeta.
  assert (Hc : consistent (sys_manager (snd (websocket_endpoint ws c frames s)))).
  { apply (holds_endpoint consistent (fun _ => True)).
    - intros c' sym m _. apply consistent_unsubscribe.
    - intros c' sym m _. apply consistent_subscribe.
    - intros c' m _. apply consistent_disconnect.
    - exact I.
    - exact H.
    - now apply consistent_connect. }
  destruct (endpoint_result ws c frames s) as [s1 E]. rewrite E in *. simpl in *.
  split; [reflexivity|]. split; [|exact Hc].
  apply consistent_gone; [exact Hc | apply disconnect_entry|].
  rewrite disconnect_active. apply lookup_delete_eq.
Qed.

Lemma session_leaves_no_trace_witness :
  let s := mkSystem (both_subscribed "X" "Y" "xyz" 1 2)
                    (set_faults [false; false; true]
                       (sample_world [] [] abc_provider wednesday_noon)) in
  let r := websocket_endpoint 3 "Z"
             [FrameText (PDict [("type", PStr "subscribe");
                                ("symbols", PList [PStr "xyz"; PInt 7])]);
              FrameUndecodable] s in
  fst r = Returned tt /\
  client_gone "Z" (sys_manager (snd r)) /\
  consistent (sys_manager (snd r)).
Proof.
  apply (session_leaves_no_trace 3 "Z"
           [FrameText (PDict [("type", PStr "subscribe");
                              ("symbols", PList [PStr "xyz"; PInt 7])]);
            FrameUndecodable]
           (mkSystem (both_subscribed "X" "Y" "xyz" 1 2)
                     (set_faults [false; false; true]
                        (sample_world [] [] abc_provider wednesday_noon)))).
  - apply consistent_both_subscribed. discriminate.
  - vm_compute. reflexivity.
Defined.


(** ** One client's operations and the other clients *)

Lemma tasks_unsubscribe c sym m d s :
  d <> c -> listens d s m ->
  update_tasks (unsubscribe_symbol c sym m) !! s = update_tasks m !! s.
Proof.
  intros Hd (C & HC & Hin). unfold unsubscribe_symbol.
  destruct (symbol_subscribers m !! upper sym) as [C0|] eqn:E; [|reflexivity].
  destruct (decide (C0 ∖ {[c]} = ∅)) as [He|Hne]; [|reflexivity].
  destruct (update_tasks m !! upper sym) eqn:T; [|reflexivity].
  simpl. destruct (decide (s = upper sym)) as [->|Hs].
  - exfalso. rewrite E in HC. injection HC as <-. set_solver.
  - now rewrite lookup_delete_ne by congruence.
Qed.

Lemma tasks_subscribe c sym m d s :
  d <> c -> listens d s m ->
  update_tasks (subscribe_one c m sym) !! s = update_tasks m !! s.
Proof.
  intros Hd (C & HC & Hin). unfold subscribe_one.
  destruct (str_truthy (strip (upper sym))); [|reflexivity].
  destruct (size _ =? 1)%nat eqn:Z; [|reflexivity].
  simpl. destruct (decide (s = strip (upper sym))) as [->|Hs].
  - exfalso. rewrite HC in Z. apply Nat.eqb_eq, size_1_elem_of in Z as [x Hx].
    assert (d = x) by (apply (elem_of_singleton (C:=gset string)); rewrite <- Hx; set_solver).
    assert (c = x) by (apply (elem_of_singleton (C:=gset string)); rewrite <- Hx; set_solver).
    congruence.
  - now rewrite lookup_insert_ne by congruence.
Qed.

Lemma untouched_refl d m : untouched d m m.
Proof. unfold untouched. repeat split; tauto. Qed.

Lemma untouched_unsubscribe d m0 c sym m :
  c <> d -> untouched d m0 m -> untouched d m0 (unsubscribe_symbol c sym m).
Proof.
  intros Hc (Hv & Hl & Ht). unfold untouched, view in *.
  rewrite unsubscribe_active, subscriptions_unsubscribe_other by congruence.
  split; [exact Hv|]. split.
  - intros s. rewrite listens_unsubscribe, Hl. split; [tauto|].
    intros H. split; [exact H|]. intros [-> _]. congruence.
  - intros s Hs. rewrite (tasks_unsubscribe c sym m d s); [auto | congruence|].
    now apply Hl.
Qed.

Lemma untouched_subscribe d m0 c sym m :
  c <> d -> untouched d m0 m -> untouched d m0 (subscribe_one c m sym).
Proof.
  intros Hc (Hv & Hl & Ht). unfold untouched, view in *.
  rewrite subscribe_one_active, subscriptions_subscribe_other by congruence.
  split; [exact Hv|]. split.
  - intros s. destruct (str_truthy (strip (upper sym))) eqn:T;
      [|rewrite subscribe_one_skip by exact T; apply Hl].
    rewrite (listens_subscribe c m sym d s T), Hl. split; [|tauto].
    intros [H | [-> _]]; [exact H | congruence].
  - intros s Hs. rewrite (tasks_subscribe c sym m d s); [auto | congruence|].
    now apply Hl.
Qed.

Lemma untouched_unsubscribe_all d m0 c l m :
  c <> d -> untouched d m0 m -> untouched d m0 (unsubscribe_all c l m).
Proof.
  intros Hc. revert m. induction l as [|t l IH]; intros m H; [exact H|].
  rewrite unsubscribe_all_cons. apply IH. now apply untouched_unsubscribe.
Qed.

Lemma untouched_ext d m0 m m' :
  view d m' = view d m -> symbol_subscribers m' = symbol_subscribers m ->
  update_tasks m' = update_tasks m ->
  untouched d m0 m -> untouched d m0 m'.
Proof.
  intros Ev Es Et (Hv & Hl & Ht). unfold untouched.
  rewrite Ev, Et. split; [exact Hv|]. split; [|exact Ht].
  intros s. rewrite (listens_ext m m' d s Es). apply Hl.
Qed.

Lemma untouched_disconnect d m0 c m :
  c <> d -> untouched d m0 m -> untouched d m0 (disconnect c m).
Proof.
  intros Hc H.
  pose (m1 := mkManager (delete c (active_connections m))
                        (subscriptions m) (symbol_subscribers m)
                        (update_tasks m) (tasks_created m) (tasks_cancelled m)).
  assert (H1 : untouched d m0 m1).
  { apply (untouched_ext d m0 m m1); try reflexivity; [|exact H].
    unfold view. simpl. now rewrite lookup_delete_ne by congruence. }
  rewrite disconnect_unfold. cbv zeta. fold m1.
  destruct (subscriptions m !! c) as [syms|]; [|exact H1].
  eapply untouched_ext; [| | |apply (untouched_unsubscribe_all d m0 c (elements syms) m1 Hc H1)];
    try reflexivity.
  unfold view. simpl. now rewrite lookup_delete_ne by congruence.
Qed.

Lemma untouched_connect d m0 ws c m :
  c <> d -> untouched d m0 m -> untouched d m0 (connect ws c m).
Proof.
  intros Hc. apply untouched_ext; try reflexivity.
  unfold view. simpl. now rewrite !lookup_insert_ne by congruence.
Qed.

(** X23. The session of one client does not touch another: whatever the
    client sends and whichever call fails, across [websocket_endpoint]
    every other client keeps its websocket, its subscription set and its
    place in the subscriber sets, and the update tasks of the symbols it
    listens to are the same tasks. *)
Theorem session_does_not_touch_others (ws : nat) (c d : string)
    (frames : list Frame) (s : System) :
  d <> c ->
  untouched d (sys_manager s)
            (sys_manager (snd (websocket_endpoint ws c frames s))).
Proof.
  intros Hd.
  apply (holds_endpoint (untouched d (sys_manager s)) (fun c => c <> d)).
  - intros c' sym m. apply untouched_unsubscribe.
  - intros c' sym m Hc' _. now apply untouched_subscribe.
  - intros c' m. apply untouched_disconnect.
  - congruence.
  - apply untouched_refl.
  - apply untouched_connect; [congruence | apply untouched_refl].
Qed.

Lemma session_does_not_touch_others_witness :
  let s := mkSystem (both_subscribed "X" "Y" "xyz" 1 2)
                    (sample_world [] [] abc_provider wednesday_noon) in
  untouched "Y" (sys_manager s)
    (sys_manager
       (snd (websocket_endpoint 3 "X"
               [FrameText (PDict [("type", PStr "unsubscribe");
                                  ("symbols", PList [PStr "xyz"])])] s))).
Proof.
  apply (session_does_not_touch_others 3 "X" "Y"
           [FrameText (PDict [("type", PStr "unsubscribe");
                              ("symbols", PList [PStr "xyz"])])]
           (mkSystem (both_subscribed "X" "Y" "xyz" 1 2)
                     (sample_world [] [] abc_provider wednesday_noon))).
  discriminate.
Defined.

(** ** Broadcasting *)

Lemma sends_add_send c msg w :
  sends (add_log (EvSend c msg) w) = (sends w ++ [(c, msg)])%list.
Proof. unfold sends. simpl. now rewrite flat_map_app. Qed.





(** ** A poll without data *)

(** X25. A poll iteration for which no candidate of the symbol has data
    (the provider raises or answers with empty frames) does nothing but
    ask: the six-month history is requested once per candidate, nothing is
    cached, nothing is sent, the manager is unchanged, and the loop goes
    on exactly when the symbol has subscribers. *)
Theorem poll_without_data_is_silent (symbol : string) (s : System) :
  (forall v, In v (symbol_variations symbol) ->
             no_data (w_provider (sys_world s) v (ReqPeriod "6mo"))) ->
  update_symbol_iteration symbol s =
    (Returned (has_subscribers symbol (sys_manager s)),
     mkSystem (sys_manager s)
              (if has_subscribers symbol (sys_manager s)
               then asked (symbol_variations symbol) (sys_world s)
               else sys_world s)).
Proof.
  intros H. unfold update_symbol_iteration, bind at 1, get_manager.
  destruct (has_subscribers symbol (sys_manager s)).
  - unfold bind at 1, try_except, update_symbol_once, bind, lift,
      get_safe_ticker_data_sync.
    rewrite (try_variants_exhausted _ _ H). reflexivity.
  - destruct s. reflexivity.
Qed.

Lemma poll_without_data_is_silent_witness :
  let s := mkSystem (both_subscribed "X" "Y" "xyz" 1 2)
                    (sample_world [] [] failing_provider wednesday_noon) in
  update_symbol_iteration "XYZ" s =
    (Returned (has_subscribers "XYZ" (sys_manager s)),
     mkSystem (sys_manager s)
              (if has_subscribers "XYZ" (sys_manager s)
               then asked (symbol_variations "XYZ") (sys_world s)
               else sys_world s)).
Proof.
  apply (poll_without_data_is_silent "XYZ"
           (mkSystem (both_subscribed "X" "Y" "xyz" 1 2)
                     (sample_world [] [] failing_provider wednesday_noon))).
  intros v _. left. reflexivity.
Defined.

(** ** Two asymmetries *)

(** X26. [unsubscribe_symbol] upper-cases the symbol but does not strip
    it as [subscribe_symbols] does: for a symbol written with surrounding
    blanks, unsubscribing with the very text used to subscribe removes
    nothing, and the client stays subscribed to the stripped symbol. *)
Theorem padded_unsubscribe_is_ignored (c symbol : string) (m : Manager) :
  is_Some (subscriptions m !! c) ->
  str_truthy (strip (upper symbol)) = true ->
  strip (upper symbol) <> upper symbol ->
  let stored := strip (upper symbol) in
  let m1 := subscribe_one c m symbol in
  let m2 := unsubscribe_symbol c symbol m1 in
  (follows c stored m1 /\ listens c stored m1) /\
  (follows c stored m2 /\ listens c stored m2) /\
  (forall d s, follows d s m2 <-> follows d s m1 /\ ~ (d = c /\ s = upper symbol)) /\
  (forall d s, listens d s m2 <-> listens d s m1 /\ ~ (d = c /\ s = upper symbol)).
Proof.
  intros He T Hpad. cbv zeta.
  assert (F1 : follows c (strip (upper symbol)) (subscribe_one c m symbol))
    by (apply (follows_subscribe c m symbol _ _ T He); auto).
  assert (L1 : listens c (strip (upper symbol)) (subscribe_one c m symbol))
    by (apply (listens_subscribe c m symbol _ _ T); auto).
  split; [auto|]. split.
  - split; [apply follows_unsubscribe | apply listens_unsubscribe]; split; auto;
      intros [_ E]; auto.
  - split; intros d s; [apply follows_unsubscribe | apply listens_unsubscribe].
Qed.

Lemma padded_unsubscribe_is_ignored_witness :
  let m := connect 1 "X" init in
  let stored := strip (upper " xyz ") in
  let m1 := subscribe_one "X" m " xyz " in
  let m2 := unsubscribe_symbol "X" " xyz " m1 in
  (follows "X" stored m1 /\ listens "X" stored m1) /\
  (follows "X" stored m2 /\ listens "X" stored m2) /\
  (forall d s, follows d s m2 <-> follows d s m1 /\ ~ (d = "X" /\ s = upper " xyz ")) /\
  (forall d s, listens d s m2 <-> listens d s m1 /\ ~ (d = "X" /\ s = upper " xyz ")).
Proof.
  apply (padded_unsubscribe_is_ignored "X" " xyz " (connect 1 "X" init)).
  - simpl. rewrite lookup_insert_eq. eauto.
  - reflexivity.
  - discriminate.
Defined.

(** X27. [connect] called for a client id that is still in a subscriber
    set replaces its subscription set by an empty one without
    unsubscribing: a later [disconnect] finds nothing to unsubscribe, and
    the id stays in the subscriber set with the update task of the symbol
    still registered.  (The endpoint draws a fresh id for each
    connection.) *)
Theorem reconnect_orphans_subscriptions (ws : nat) (c symbol : string)
    (m : Manager) :
  lifecycle_inv m ->
  listens c symbol m ->
  let m' := disconnect c (connect ws c m) in
  active_connections m' !! c = None /\
  subscriptions m' !! c = None /\
  listens c symbol m' /\
  task_registered symbol m'.
Proof.
  intros Hinv Hl. cbv zeta.
  assert (L : listens c symbol (disconnect c (connect ws c m))).
  { apply listens_disconnect. split.
    - now apply (listens_ext m (connect ws c m) c symbol eq_refl).
    - intros [_ (t & (x & Hx & Ht) & _)]. simpl in Hx.
      rewrite lookup_insert_eq in Hx. injection Hx as <-. set_solver. }
  split; [rewrite disconnect_active; apply lookup_delete_eq|].
  split; [apply disconnect_entry|]. split; [exact L|].
  apply (lifecycle_inv_disconnect c (connect ws c m) (lifecycle_inv_connect ws c m Hinv)).
  destruct L as (C & HC & Hin). exists C. split; [exact HC | set_solver].
Qed.

Lemma reconnect_orphans_subscriptions_witness :
  let m' := disconnect "X" (connect 3 "X" (both_subscribed "X" "Y" "xyz" 1 2)) in
  active_connections m' !! "X" = None /\
  subscriptions m' !! "X" = None /\
  listens "X" "XYZ" m' /\
  task_registered "XYZ" m'.
Proof.
  apply (reconnect_orphans_subscriptions 3 "X" "XYZ" (both_subscribed "X" "Y" "xyz" 1 2)).
  - unfold both_subscribed, first_subscribed, both_connected.
    repeat first [apply lifecycle_inv_subscribe_one | apply lifecycle_inv_connect].
    apply lifecycle_inv_init.
  - pose proof (scenario_both_subscribed "X" "Y" "xyz" 1 2) as H.
    destruct H as (H & _); [discriminate | reflexivity |].
    exists {["X"; "Y"]}. split; [|set_solver].
    rewrite H. apply lookup_singleton_eq.
Defined.


(** ** Task handles *)

Lemma handles_issued_ext m m' :
  update_tasks m' = update_tasks m -> tasks_created m' = tasks_created m ->
  handles_issued m -> handles_issued m'.
Proof. intros E1 E2 H s t. rewrite E1, E2. apply H. Qed.

Lemma handles_issued_unsubscribe c sym m :
  handles_issued m -> handles_issued (unsubscribe_symbol c sym m).
Proof.
  intros H s t. unfold unsubscribe_symbol.
  destruct (symbol_subscribers m !! upper sym) as [C0|]; [|apply H].
  destruct (decide (C0 ∖ {[c]} = ∅)); [|apply H].
  destruct (update_tasks m !! upper sym); [|apply H].
  simpl. intros [_ Ht]%lookup_delete_Some. exact (H _ _ Ht).
Qed.

Lemma handles_issued_subscribe c sym m :
  handles_issued m -> handles_issued (subscribe_one c m sym).
Proof.
  intros H s t. unfold subscribe_one.
  destruct (str_truthy (strip (upper sym))); [|apply H].
  destruct (size _ =? 1)%nat; [|apply H].
  simpl. intros [[_ <-] | [_ Ht]]%lookup_insert_Some; [lia|].
  specialize (H _ _ Ht). lia.
Qed.

Lemma handles_issued_unsubscribe_all c l m :
  handles_issued m -> handles_issued (unsubscribe_all c l m).
Proof.
  revert m. induction l as [|t l IH]; intros m H; [exact H|].
  rewrite unsubscribe_all_cons. apply IH. now apply handles_issued_unsubscribe.
Qed.

Lemma handles_issued_disconnect c m :
  handles_issued m -> handles_issued (disconnect c m).
Proof.
  intros H. rewrite disconnect_unfold. cbv zeta.
  destruct (subscriptions m !! c) as [syms|].
  - eapply handles_issued_ext; [reflexivity | reflexivity |].
    apply handles_issued_unsubscribe_all.
    eapply handles_issued_ext; [| |exact H]; reflexivity.
  - eapply handles_issued_ext; [| |exact H]; reflexivity.
Qed.

Lemma handles_issued_run ops w :
  handles_issued (sys_manager (run ops (mkSystem init w))).
Proof.
  apply (holds_run handles_issued (fun _ => True)).
  - intros c sym m _. apply handles_issued_unsubscribe.
  - intros c sym m _ _. apply handles_issued_subscribe.
  - intros c m _. apply handles_issued_disconnect.
  - intros c. exact I.
  - intros ws c m H. eapply handles_issued_ext; [| |exact H]; reflexivity.
  - intros s t. simpl. rewrite lookup_empty. discriminate.
Qed.

(** X28. A client that is the only subscriber of a symbol and subscribes
    to it again makes [subscribe_symbols] create a second update task: in
    every state the manager reaches, the new task takes the place of the
    registered one in [update_tasks], and the task that was registered is
    not cancelled. *)
Theorem sole_subscriber_resubscribing (ops : list Op) (w : World)
    (c symbol : string) :
  let m := sys_manager (run ops (mkSystem init w)) in
  let n := strip (upper symbol) in
  str_truthy n = true ->
  symbol_subscribers m !! n = Some {[c]} ->
  let m' := subscribe_one c m symbol in
  exists task,
    update_tasks m !! n = Some task /\
    update_tasks m' !! n = Some (tasks_created m) /\
    tasks_created m <> task /\
    tasks_created m' = S (tasks_created m) /\
    tasks_cancelled m' = tasks_cancelled m /\
    symbol_subscribers m' !! n = Some {[c]}.
Proof.
  cbv zeta. intros T Hsole.
  pose proof (lifecycle_inv_run ops (mkSystem init w) lifecycle_inv_init) as Hinv.
  pose proof (handles_issued_run ops w) as Hh.
  set (m := sys_manager (run ops (mkSystem init w))) in *.
  assert (Hreg : task_registered (strip (upper symbol)) m).
  { apply Hinv. exists {[c]}. split; [exact Hsole | set_solver]. }
  destruct Hreg as [task Htask]. exists task.
  split; [exact Htask|].
  assert (Z : (size (({[c]} : gset string) ∪ {[c]}) =? 1)%nat = true).
  { apply Nat.eqb_eq. rewrite union_idemp_L. apply size_singleton. }
  unfold subscribe_one. rewrite T, Hsole, Z. simpl.
  rewrite !lookup_insert_eq, union_idemp_L.
  split; [reflexivity|]. split; [|auto].
  specialize (Hh _ _ Htask). lia.
Qed.

Lemma sole_subscriber_resubscribing_witness :
  let m := sys_manager (run [OpConnect 1 "X"; OpSubscribe "X" ["xyz"]]
                            (mkSystem init (sample_world [] [] abc_provider wednesday_noon))) in
  let m' := subscribe_one "X" m "xyz" in
  exists task,
    update_tasks m !! strip (upper "xyz") = Some task /\
    update_tasks m' !! strip (upper "xyz") = Some (tasks_created m) /\
    tasks_created m <> task /\
    tasks_created m' = S (tasks_created m) /\
    tasks_cancelled m' = tasks_cancelled m /\
    symbol_subscribers m' !! strip (upper "xyz") = Some {["X"]}.
Proof.
  apply (sole_subscriber_resubscribing
           [OpConnect 1 "X"; OpSubscribe "X" ["xyz"]]
           (sample_world [] [] abc_provider wednesday_noon) "X" "xyz").
  - reflexivity.
  - vm_compute. reflexivity.
Defined.

(** ** Broadcasting when sends fail *)

Lemma sends_faults f w : sends (set_faults f w) = sends w.
Proof. reflexivity. Qed.

Lemma send_to_client_cases c msg s :
  exists ok s',
    send_to_client c msg s = (Returned ok, s') /\
    (forall d sym, listens d sym (sys_manager s') -> listens d sym (sys_manager s)) /\
    sends (sys_world s')
      = (sends (sys_world s) ++ if (ok : bool) then [(c, msg)] else [])%list.
Proof.
  unfold send_to_client, bind, get_manager.
  destruct (active_connections (sys_manager s) !! c).
  - unfold try_except, bind, lift, send_text, bind, next_fault.
    destruct (w_faults (sys_world s)) as [|[] f]; simpl.
    + eexists _, _. split; [reflexivity|]. split; [auto|].
      apply sends_add_send.
    + eexists _, _. split; [reflexivity|]. split.
      * intros d sym H. apply listens_disconnect in H. tauto.
      * simpl. rewrite app_nil_r. reflexivity.
    + eexists _, _. split; [reflexivity|]. split; [auto|].
      simpl. rewrite sends_add_send. reflexivity.
  - eexists _, _. split; [reflexivity|]. split; [auto|].
    simpl. now rewrite app_nil_r.
Qed.

Lemma send_all_cases clients msg s :
  exists failed s' sent,
    send_all clients msg s = (Returned failed, s') /\
    (forall d sym, listens d sym (sys_manager s') -> listens d sym (sys_manager s)) /\
    sends (sys_world s') = (sends (sys_world s) ++ sent)%list /\
    (forall c, In c clients -> In c failed \/ In (c, msg) sent) /\
    (forall c m, In (c, m) sent -> In c clients /\ m = msg).
Proof.
  revert s. induction clients as [|c l IH]; intros s.
  - exists [], s, []. simpl. rewrite app_nil_r.
    split; [reflexivity|]. split; [auto|]. split; [reflexivity|].
    split; [intros c [] | intros c m []].
  - simpl. unfold bind at 1.
    destruct (send_to_client_cases c msg s) as (ok & s1 & -> & Hl1 & Hs1).
    destruct (IH s1) as (failed & s2 & sent & E & Hl2 & Hs2 & Hall & Honly).
    unfold bind. rewrite E.
    exists (if ok then failed else c :: failed), s2,
           ((if ok then [(c, msg)] else []) ++ sent)%list.
    split; [reflexivity|]. split; [auto|].
    split; [rewrite Hs2, Hs1, app_assoc; reflexivity|]. split.
    + intros c' [<- | Hc'].
      * destruct ok; [right; now left | left; now left].
      * destruct (Hall c' Hc') as [H | H].
        -- left. destruct ok; [exact H | now right].
        -- right. apply in_or_app. now right.
    + intros c' m [H | H]%in_app_or.
      * destruct ok; [|destruct H]. destruct H as [[= <- <-] | []]. auto.
      * destruct (Honly c' m H). auto.
Qed.

Lemma listens_unsubscribe_clients symbol clients m d s :
  listens d s (fold_left (fun acc c => unsubscribe_symbol c symbol acc) clients m)
  <-> listens d s m /\ ~ (In d clients /\ s = upper symbol).
Proof.
  revert m. induction clients as [|c l IH]; intros m.
  - simpl. tauto.
  - simpl. rewrite IH, listens_unsubscribe. naive_solver.
Qed.

(** X29. Whichever sends fail, after [broadcast_to_symbol_subscribers]
    for a symbol in upper case every client still in the subscriber set
    of the symbol has been sent the update; a subscriber whose send
    failed, or that had no connection, is out of the set.  Nothing is
    sent to a client outside the set, and the call does not raise. *)
Theorem broadcast_keeps_only_served (symbol : string) (data : pyval)
    (s : System) (C : gset string) :
  upper symbol = symbol ->
  symbol_subscribers (sys_manager s) !! symbol = Some C ->
  exists s' sent,
    broadcast_to_symbol_subscribers symbol data s = (Returned tt, s') /\
    sends (sys_world s') = (sends (sys_world s) ++ sent)%list /\
    (forall c, listens c symbol (sys_manager s') ->
               c ∈ C /\ In (c, stock_update data) sent) /\
    (forall c m, In (c, m) sent -> c ∈ C /\ m = stock_update data).
Proof.
  intros Hup HC.
  destruct (send_all_cases (elements C) (stock_update data) s)
    as (failed & s1 & sent & E & Hl & Hs & Hall & Honly).
  eexists _, sent. split.
  { unfold broadcast_to_symbol_subscribers, bind at 1, get_manager. rewrite HC.
    unfold bind. rewrite E. reflexivity. }
  simpl. split; [exact Hs|]. split.
  - intros c Hc. apply listens_unsubscribe_clients in Hc as [Hc Hn].
    apply Hl in Hc. destruct Hc as (C' & HC' & Hin).
    rewrite HC in HC'. injection HC' as <-.
    split; [exact Hin|].
    destruct (Hall c) as [H | H]; [apply list_elem_of_In, elem_of_elements, Hin| |exact H].
    exfalso. apply Hn. auto.
  - intros c m H. destruct (Honly c m H) as [Hc ->].
    split; [|reflexivity]. apply elem_of_elements, list_elem_of_In, Hc.
Qed.

Lemma broadcast_keeps_only_served_witness :
  let s := mkSystem (both_subscribed "X" "Y" "xyz" 1 2)
                    (set_faults [true]
                       (sample_world [] [] abc_provider wednesday_noon)) in
  exists s' sent,
    broadcast_to_symbol_subscribers "XYZ" (PInt 1) s = (Returned tt, s') /\
    sends (sys_world s') = (sends (sys_world s) ++ sent)%list /\
    (forall c, listens c "XYZ" (sys_manager s') ->
               c ∈ ({["X"; "Y"]} : gset string) /\ In (c, stock_update (PInt 1)) sent) /\
    (forall c m, In (c, m) sent ->
                 c ∈ ({["X"; "Y"]} : gset string) /\ m = stock_update (PInt 1)).
Proof.
  apply (broadcast_keeps_only_served "XYZ" (PInt 1)
           (mkSystem (both_subscribed "X" "Y" "xyz" 1 2)
                     (set_faults [true]
                        (sample_world [] [] abc_provider wednesday_noon)))
           {["X"; "Y"]}).
  - reflexivity.
  - vm_compute. reflexivity.
Defined.


(** ** A Redis outage *)

Lemma agrees_ret {A} (a : A) : agrees (ret a).
Proof. intros w1 w2 H. split; [reflexivity | exact H]. Qed.

Lemma agrees_raise {A} e : agrees (@raise World A e).
Proof. intros w1 w2 H. split; [reflexivity | exact H]. Qed.

Lemma agrees_bind {A B} (m : M A) (k : A -> M B) :
  agrees m -> (forall a, agrees (k a)) -> agrees (bind m k).
Proof.
  intros Hm Hk w1 w2 H. unfold bind. destruct (Hm w1 w2 H) as [E R].
  destruct (m w1) as [[a1|e1] w1'], (m w2) as [[a2|e2] w2']; simpl in *;
    try discriminate.
  - injection E as <-. now apply Hk.
  - injection E as <-. split; [reflexivity | exact R].
Qed.

Lemma agrees_try {A} (b : M A) (h : exn -> M A) :
  agrees b -> (forall e, agrees (h e)) -> agrees (try_except b h).
Proof.
  intros Hb Hh w1 w2 H. unfold try_except. destruct (Hb w1 w2 H) as [E R].
  destruct (b w1) as [[a1|e1] w1'], (b w2) as [[a2|e2] w2']; simpl in *;
    try discriminate.
  - split; [exact E | exact R].
  - injection E as <-. now apply Hh.
Qed.

Ltac apart :=
  unfold redis_apart, set_table, set_cache, set_ist, set_faults, add_log in *;
  simpl in *;
  repeat match goal with H : _ /\ _ |- _ => destruct H end;
  repeat split;
  first [ congruence
        | repeat match goal with H : _ = _ |- _ => rewrite H; clear H end;
          reflexivity ].

Lemma agrees_db_call {A} (run : World -> A * World) :
  (forall w1 w2, redis_apart w1 w2 ->
     fst (run w1) = fst (run w2) /\ redis_apart (snd (run w1)) (snd (run w2))) ->
  agrees (db_call run).
Proof.
  intros Hrun w1 w2 H. destruct (Hrun w1 w2 H) as [E R].
  rewrite (db_call_quiet run w1), (db_call_quiet run w2);
    [|apply H|apply H]. simpl. split; [now rewrite E | exact R].
Qed.

Lemma agrees_select_stock sym : agrees (db_select_stock sym).
Proof.
  apply agrees_db_call. intros w1 w2 H. simpl. split; [|exact H].
  destruct H as (_ & _ & -> & _). reflexivity.
Qed.

Lemma agrees_select_latest sym : agrees (db_select_latest sym).
Proof.
  apply agrees_db_call. intros w1 w2 H. simpl. split; [|exact H].
  destruct H as (_ & _ & _ & -> & _). reflexivity.
Qed.

Lemma agrees_select_window sym start stop : agrees (db_select_window sym start stop).
Proof.
  apply agrees_db_call. intros w1 w2 H. simpl. split; [|exact H].
  destruct H as (_ & _ & _ & -> & _). reflexivity.
Qed.

Lemma agrees_db_write f : agrees (db_write f).
Proof.
  apply agrees_db_call. intros w1 w2 H. simpl. split; [reflexivity|]. apart.
Qed.

Lemma agrees_db_commit : agrees db_commit.
Proof.
  apply agrees_db_call. intros w1 w2 H. simpl. split; [reflexivity|]. apart.
Qed.

Lemma agrees_db_rollback : agrees db_rollback.
Proof.
  apply agrees_db_call. intros w1 w2 H. simpl. split; [reflexivity|]. apart.
Qed.

Lemma agrees_ticker_history sym req : agrees (ticker_history sym req).
Proof.
  intros w1 w2 H. unfold ticker_history. simpl.
  assert (E : w_provider w1 sym req = w_provider w2 sym req)
    by (destruct H as (_ & _ & _ & _ & _ & -> & _); reflexivity).
  rewrite E. destruct (w_provider w2 sym req); simpl; (split; [reflexivity|]); apart.
Qed.

Lemma agrees_ticker_info sym : agrees (ticker_info sym).
Proof.
  intros w1 w2 H. unfold ticker_info. simpl.
  assert (E : w_info w1 sym = w_info w2 sym)
    by (destruct H as (_ & _ & _ & _ & _ & _ & -> & _); reflexivity).
  rewrite E. destruct (w_info w2 sym); simpl; (split; [reflexivity|]); apart.
Qed.

Lemma agrees_date_today : agrees date_today.
Proof. intros w1 w2 H. unfold date_today. simpl. split; [f_equal|]; apart. Qed.

Lemma agrees_now_isoformat : agrees now_isoformat.
Proof. intros w1 w2 H. unfold now_isoformat. simpl. split; [f_equal|]; apart. Qed.

Lemma agrees_sql_now : agrees sql_now.
Proof. intros w1 w2 H. unfold sql_now. simpl. split; [f_equal|]; apart. Qed.

Lemma agrees_now_ist : agrees now_ist.
Proof.
  intros w1 w2 H. unfold now_ist. simpl.
  assert (E : w_ist_later w1 = w_ist_later w2) by apart.
  rewrite E. split; [f_equal; apart|].
  destruct (w_ist_later w2); apart.
Qed.

(** The result of [redis_client.set] is not read by the services. *)
Lemma agrees_after_cache_set {A} key value ttl (k : M A) :
  agrees k -> agrees (bind (redis_set key value ttl) (fun _ => k)).
Proof.
  intros Hk w1 w2 H. unfold bind.
  rewrite (redis_set_quiet key value ttl w1), (redis_set_quiet key value ttl w2);
    [|apply H|apply H].
  apply Hk. destruct (w_redis_up w1), (w_redis_up w2); apart.
Qed.

Lemma agrees_prepare symbol data : agrees (prepare_insert_data symbol data).
Proof.
  destruct (prepare_insert_data_pure symbol data) as [r Hr].
  intros w1 w2 H. rewrite !Hr. split; [reflexivity | exact H].
Qed.

Ltac agree :=
  repeat lazymatch goal with
    | |- agrees (ret _) => apply agrees_ret
    | |- agrees (raise _) => apply agrees_raise
    | |- agrees (bind (redis_set _ _ _) _) => apply agrees_after_cache_set
    | |- agrees (bind _ _) => apply agrees_bind; [|intros ?]
    | |- agrees (try_except _ _) => apply agrees_try; [|intros ?]
    | |- agrees date_today => apply agrees_date_today
    | |- agrees now_isoformat => apply agrees_now_isoformat
    | |- agrees sql_now => apply agrees_sql_now
    | |- agrees now_ist => apply agrees_now_ist
    | |- agrees (db_select_stock _) => apply agrees_select_stock
    | |- agrees (db_select_latest _) => apply agrees_select_latest
    | |- agrees (db_select_window _ _ _) => apply agrees_select_window
    | |- agrees (db_write _) => apply agrees_db_write
    | |- agrees db_commit => apply agrees_db_commit
    | |- agrees db_rollback => apply agrees_db_rollback
    | |- agrees (ticker_history _ _) => apply agrees_ticker_history
    | |- agrees (ticker_info _) => apply agrees_ticker_info
    | |- agrees (prepare_insert_data _ _) => apply agrees_prepare
    | |- agrees (float_of_column ?x) => destruct x; simpl
    | |- agrees (int_or_zero_of_float _) => unfold int_or_zero_of_float
    | |- agrees (match ?x with Some _ => _ | None => _ end) => destruct x
    | |- agrees (match ?x with [] => _ | _ :: _ => _ end) => destruct x
    | |- agrees (if ?b then _ else _) => destruct b
    | |- agrees (let '(_, _) := ?x in _) => destruct x
    end.

Lemma agrees_is_market_open : agrees _is_market_open.
Proof. unfold _is_market_open. agree. Qed.

Lemma agrees_get_yahoo_symbol symbol : agrees (_get_yahoo_symbol symbol).
Proof. unfold _get_yahoo_symbol. agree. Qed.

Lemma agrees_get_latest_date symbol : agrees (_get_latest_date_in_db symbol).
Proof. unfold _get_latest_date_in_db. agree. Qed.

Lemma agrees_get_history_from_db symbol start stop :
  agrees (_get_history_from_db symbol start stop).
Proof. unfold _get_history_from_db. agree. Qed.

Lemma agrees_get_latest_db_quote symbol : agrees (_get_latest_db_quote symbol).
Proof. unfold _get_latest_db_quote. agree. Qed.

Lemma agrees_store symbol data : agrees (_store_history_to_db symbol data).
Proof. unfold _store_history_to_db. agree. Qed.

Lemma agrees_fetch_and_store yahoo symbol start :
  agrees (_fetch_and_store_history yahoo symbol start).
Proof. unfold _fetch_and_store_history. agree; apply agrees_store. Qed.

Lemma agrees_try_variants variants : agrees (try_variants variants).
Proof. induction variants as [|v rest IH]; simpl; agree. exact IH. Qed.

Lemma agrees_try_periods yahoo periods hist : agrees (try_periods yahoo periods hist).
Proof.
  revert hist. induction periods as [|p rest IH]; intros hist; simpl; agree; apply IH.
Qed.

Lemma agrees_sanitized data : agrees (sanitized data).
Proof. unfold sanitized. agree. Qed.

Lemma agrees_build_quote symbol stock ticker hist :
  agrees (build_quote symbol stock ticker hist).
Proof. unfold build_quote. agree; try apply agrees_sanitized; agree. Qed.

Lemma agrees_fetch_quote symbol : agrees (_fetch_quote_from_yfinance symbol).
Proof.
  unfold _fetch_quote_from_yfinance, get_safe_ticker_data_async,
    get_safe_ticker_data_sync.
  agree; try apply agrees_try_variants; try apply agrees_try_periods;
    try apply agrees_build_quote.
  all: try (destruct a1; agree; try apply agrees_try_periods;
            try apply agrees_build_quote).
Qed.

Lemma agrees_get_quote_live symbol key : agrees (get_quote_live symbol key).
Proof.
  unfold get_quote_live. agree;
    try apply agrees_fetch_quote; try apply agrees_is_market_open.
Qed.

Lemma agrees_get_history_uncached symbol period key :
  agrees (get_history_uncached symbol period key).
Proof.
  unfold get_history_uncached, _get_period_dates, history_error.
  agree; try apply agrees_get_yahoo_symbol; try apply agrees_get_latest_date.
  all: try match goal with
           | |- context [fetch_plan ?a ?b] => destruct (fetch_plan a b) as [need start]
           end; agree;
    try apply agrees_fetch_and_store; try apply agrees_get_history_from_db.
Qed.

Lemma redis_get_down key w :
  w_redis_up w = false -> redis_get key w = (Returned None, w).
Proof. intros H. unfold redis_get. now rewrite H. Qed.

(** X30. A Redis outage is a cache miss and nothing more: when no call
    fails, [get_quote] and [get_history] with Redis disconnected return
    what they return with Redis connected and nothing cached under the
    key, after the same provider calls, leaving the same tables and
    clock. *)
Theorem redis_outage_is_a_cache_miss (symbol period : string) (w1 w2 : World) :
  redis_apart w1 w2 ->
  w_redis_up w1 = false ->
  (opt_truthy (cached_value (quote_key symbol) w2) = false ->
     fst (get_quote symbol w1) = fst (get_quote symbol w2) /\
     redis_apart (snd (get_quote symbol w1)) (snd (get_quote symbol w2))) /\
  (opt_truthy (cached_value (history_key symbol period) w2) = false ->
     fst (get_history symbol period w1) = fst (get_history symbol period w2) /\
     redis_apart (snd (get_history symbol period w1))
                 (snd (get_history symbol period w2))).
Proof.
  intros H Hdown.
  assert (Hf2 : w_faults w2 = []) by apply H.
  split; intros Hmiss.
  - set (rest := do is_open <- _is_market_open;
                 if negb is_open then
                   do db_quote <- _get_latest_db_quote symbol;
                   if opt_truthy db_quote then
                     do _ <- redis_set (quote_key symbol)
                               (match db_quote with Some q => q | None => PNone end)
                               (CACHE_TTL_REALTIME * 10);
                     ret db_quote
                   else get_quote_live symbol (quote_key symbol)
                 else get_quote_live symbol (quote_key symbol)).
    assert (E1 : get_quote symbol w1 = try_except rest (fun _ => ret None) w1).
    { unfold get_quote, try_except, bind at 1.
      rewrite (redis_get_down _ w1 Hdown). reflexivity. }
    assert (E2 : get_quote symbol w2 = try_except rest (fun _ => ret None) w2).
    { unfold get_quote, try_except, bind at 1.
      rewrite (redis_get_quiet _ w2 Hf2).
      rewrite Hmiss. reflexivity. }
    rewrite E1, E2.
    apply agrees_try; [|intros e; agree|exact H].
    subst rest. agree; try apply agrees_is_market_open;
      try apply agrees_get_latest_db_quote; try apply agrees_get_quote_live.
  - set (key := history_key symbol period) in *.
    set (handler := fun e => history_error period
                     (String.append "Failed to get historical data: " (exn_str e))).
    assert (E1 : get_history symbol period w1
                 = try_except (get_history_uncached symbol period key) handler w1).
    { unfold get_history, try_except, bind at 1.
      rewrite (redis_get_down _ w1 Hdown). reflexivity. }
    assert (E2 : get_history symbol period w2
                 = try_except (get_history_uncached symbol period key) handler w2).
    { unfold get_history, try_except, bind at 1.
      rewrite (redis_get_quiet _ w2 Hf2). fold key.
      rewrite Hmiss. reflexivity. }
    rewrite E1, E2.
    apply agrees_try;
      [apply agrees_get_history_uncached
      |intros e; subst handler; unfold history_error; agree
      |exact H].
Qed.

Lemma redis_outage_is_a_cache_miss_witness :
  let w2 := sample_world [abc_stock] [abc_bar 739914] abc_provider wednesday_noon in
  let w1 := redis_down w2 in
  (fst (get_quote "abc" w1) = fst (get_quote "abc" w2) /\
   redis_apart (snd (get_quote "abc" w1)) (snd (get_quote "abc" w2))) /\
  (fst (get_history "abc" "1M" w1) = fst (get_history "abc" "1M" w2) /\
   redis_apart (snd (get_history "abc" "1M" w1)) (snd (get_history "abc" "1M" w2))).
Proof.
  destruct (redis_outage_is_a_cache_miss "abc" "1M"
              (redis_down (sample_world [abc_stock] [abc_bar 739914]
                                        abc_provider wednesday_noon))
              (sample_world [abc_stock] [abc_bar 739914] abc_provider wednesday_noon))
    as [Hq Hh].
  - unfold redis_apart. repeat split.
  - reflexivity.
  - split; [apply Hq | apply Hh]; reflexivity.
Defined.

